(** * SecondBrain: the request handlers of the API routes, embedded in Rocq

    The development follows the TypeScript sources under [src/app/api]:
    the entry CRUD routes, the capture (classify-and-create) route, the
    summary (digest) route and the three advisory chat routes.

    Modelling conventions, used throughout:
    - a JavaScript string is a [string] of 8-bit characters, the UTF-8
      form of its text; [trim], [\s] and [\d] are modelled on ASCII text,
      and [toLowerCase] is computed on ASCII text and read from the world
      on any other;
    - a JSON value is a [json]; a JavaScript object used as a record is a
      [gmap string json] (the store keeps [data] in a JSON column, so the
      order of the keys is not observable);
    - a number is the rational [Q] that an IEEE 754 double stands for:
      [JSON.parse] rounds a literal to the nearest double, and a literal
      beyond the doubles reads as [Infinity], held as [2^1024]; JSON text
      writes [Infinity] as [null], which is modelled for the [confidence]
      column, while inside [data] a number is handed on as it is;
    - the columns of the table that the table definition leaves nullable
      ([confidence], [needs_review], [archived], [linked_entries]) hold an
      [option]: [None] is SQL [NULL];
    - an instant is an integer number of milliseconds since the epoch, and
      local time is UTC plus a fixed offset;
    - the hosted services a handler talks to (session, store, language
      model, maps, clock) are a [World] read by the handler, the table of
      entries is threaded as state, and every outbound call is recorded in
      a trace. *)

From Stdlib Require Import ZArith QArith Qabs Qround String Ascii List Lia Bool.
From stdpp Require Import base option gmap strings list fin_maps.

#[local] Set Warnings "-register-all".
#[local] Open Scope string_scope.

(** ** JavaScript strings *)

Definition code (c : ascii) : N := N_of_ascii c.

Definition is_digit (c : ascii) : bool :=
  (48 <=? code c)%N && (code c <=? 57)%N.

(** [\s]: tab, line feed, vertical tab, form feed, carriage return, space. *)
Definition is_space (c : ascii) : bool :=
  ((9 <=? code c)%N && (code c <=? 13)%N) || (code c =? 32)%N.

Definition lower_char (c : ascii) : ascii :=
  if (65 <=? code c)%N && (code c <=? 90)%N
  then ascii_of_N (code c + 32) else c.

(** [toLowerCase] of a text of ASCII characters: [A]-[Z] become [a]-[z],
    no other ASCII character has a lower case of its own. *)
Fixpoint lower_ascii (s : string) : string :=
  match s with
  | EmptyString => EmptyString
  | String c t => String (lower_char c) (lower_ascii t)
  end.

Fixpoint is_ascii (s : string) : bool :=
  match s with
  | EmptyString => true
  | String c t => (code c <? 128)%N && is_ascii t
  end.

Fixpoint trimStart (s : string) : string :=
  match s with
  | String c t => if is_space c then trimStart t else s
  | EmptyString => EmptyString
  end.

(** [trimEnd] keeps a character when it is not white space or when
    something that is kept follows it. *)
Fixpoint trimEnd (s : string) : string :=
  match s with
  | EmptyString => EmptyString
  | String c t =>
      match trimEnd t with
      | EmptyString => if is_space c then EmptyString else String c EmptyString
      | t' => String c t'
      end
  end.

Definition trim (s : string) : string := trimEnd (trimStart s).

Fixpoint starts_with (p s : string) : bool :=
  match p, s with
  | EmptyString, _ => true
  | String a p', String b s' => Ascii.eqb a b && starts_with p' s'
  | String _ _, EmptyString => false
  end.

Fixpoint drop_chars (n : nat) (s : string) : string :=
  match n, s with
  | O, _ => s
  | S n', String _ t => drop_chars n' t
  | S _, EmptyString => EmptyString
  end.

Fixpoint take_chars (n : nat) (s : string) : string :=
  match n, s with
  | O, _ => EmptyString
  | S n', String c t => String c (take_chars n' t)
  | S _, EmptyString => EmptyString
  end.

(** [s.includes(p)] *)
Fixpoint includes (s p : string) : bool :=
  starts_with p s ||
  match s with
  | EmptyString => false
  | String _ t => includes t p
  end.

(** [s.replace(p, '')] with a string pattern: the first occurrence of [p]
    is removed. *)
Fixpoint remove_first (p s : string) : string :=
  if starts_with p s then drop_chars (String.length p) s
  else match s with
       | EmptyString => EmptyString
       | String c t => String c (remove_first p t)
       end.

(** String literals of the sources that contain double quotes are written
    here with single quotes and converted by [dq]. *)
Definition dquote : ascii := ascii_of_N 34.

Fixpoint dq (s : string) : string :=
  match s with
  | EmptyString => EmptyString
  | String c t => String (if (code c =? 39)%N then dquote else c) (dq t)
  end.

(** Decimal digits of a natural number, as [String(n)] prints them. *)
Fixpoint digits_fuel (fuel : nat) (n : N) (acc : string) : string :=
  match fuel with
  | O => acc
  | S f =>
      let acc' := String (ascii_of_N (48 + n mod 10)) acc in
      if (n <? 10)%N then acc' else digits_fuel f (n / 10)%N acc'
  end.

Definition N_to_string (n : N) : string :=
  digits_fuel (S (N.to_nat (N.log2 n))) n EmptyString.

(** ** Numbers

    A JavaScript number is an IEEE 754 double. A finite double is held as
    the rational it stands for, [Infinity] as [2^1024], the first power of
    two beyond the doubles; [NaN] is not a value of [Q] and is an absent
    number where it can arise. *)

#[local] Open Scope Z_scope.

Definition infinity : Q := inject_Z (2 ^ 1024).

(** [Number.isFinite] *)
Definition is_finite (q : Q) : bool :=
  negb (Qle_bool infinity (Qabs q)).

(** The integer nearest to [n / d], the even one of two equally near. *)
Definition nearest_even (n d : Z) : Z :=
  let k := n / d in
  match 2 * (n mod d) ?= d with
  | Lt => k
  | Gt => k + 1
  | Eq => if Z.even k then k else k + 1
  end.

(** The [e] with [2^e <= n / d < 2^(e+1)], for positive [n] and [d]. *)
Definition log2_floor (n d : Z) : Z :=
  let e := Z.log2 n - Z.log2 d in
  if d * 2 ^ Z.max 0 e <=? n * 2 ^ Z.max 0 (- e) then e else e - 1.

(** Rounding to the nearest double, ties to the even significand: 53 bits
    of significand, the exponent of the last bit not below -1074, and
    [Infinity] from [2^1024 - 2^970] on. *)
Definition binary64 (q : Q) : Q :=
  let n := Z.abs (Qnum q) in
  let d := Z.pos (Qden q) in
  if n =? 0 then 0%Q
  else
    let p := Z.max (log2_floor n d - 52) (- 1074) in
    let m := nearest_even (n * 2 ^ Z.max 0 (- p)) (d * 2 ^ Z.max 0 p) in
    let v :=
      if 0 <=? p then inject_Z (m * 2 ^ p)
      else Qred (Qmake m (Z.to_pos (2 ^ (- p)))) in
    let v := if Qle_bool infinity v then infinity else v in
    if Qnum q <? 0 then Qopp v else v.

#[local] Close Scope Z_scope.

(** ** JSON values *)

Inductive json : Type :=
| JNull
| JBool (b : bool)
| JNum (q : Q)
| JStr (s : string)
| JArr (l : list json)
| JObj (m : gmap string json).

(** A JavaScript value read from a property: [None] is [undefined]. *)
Definition jsval := option json.

(** [Boolean(v)] *)
Definition truthy (v : jsval) : bool :=
  match v with
  | None => false
  | Some JNull => false
  | Some (JBool b) => b
  | Some (JNum q) => negb (Qeq_bool q 0)
  | Some (JStr s) => negb (String.eqb s "")
  | Some (JArr _) => true
  | Some (JObj _) => true
  end.

(** Property read [v.k]. Reading a property of [null] or [undefined]
    raises a TypeError: the outer [None]. Strings, numbers, booleans and
    arrays have none of the property names the handlers read. *)
Definition prop (v : jsval) (k : string) : option jsval :=
  match v with
  | None => None
  | Some JNull => None
  | Some (JObj m) => Some (m !! k)
  | Some _ => Some None
  end.
Arguments prop : simpl never.

Fixpoint index_entries {A} (i : N) (l : list A) : list (string * A) :=
  match l with
  | [] => []
  | x :: t => (N_to_string i, x) :: index_entries (i + 1) t
  end.

Fixpoint chars_of (s : string) : list json :=
  match s with
  | EmptyString => []
  | String c t => JStr (String c EmptyString) :: chars_of t
  end.

(** The own enumerable properties that an object spread [{...v}] copies. *)
Definition spread (v : jsval) : gmap string json :=
  match v with
  | Some (JObj m) => m
  | Some (JArr l) => list_to_map (index_entries 0 l)
  | Some (JStr s) => list_to_map (index_entries 0 (chars_of s))
  | _ => ∅
  end.

(** [{...a, ...b}]: the keys of [b] win. *)
Definition merge (a b : gmap string json) : gmap string json := b ∪ a.

(** ** Regular expressions

    The fragment of JavaScript regular expressions the routes use, with
    the backtracking order of the language: alternatives left to right,
    greedy quantifiers longest first, lazy ones shortest first. Every
    starred expression in the sources is a one-character class. *)

Inductive regex : Type :=
| Eps
| Chr (c : ascii)
| Cls (p : ascii -> bool)
| Cat (r1 r2 : regex)
| Alt (r1 r2 : regex)
| Rep (greedy : bool) (p : ascii -> bool)
| Opt (r : regex)
| Grp (n : nat) (r : regex)
| Bol
| Eol.

Record MatchResult : Type := mkMatch {
  m_before : string;
  m_text : string;
  m_groups : gmap nat string;
  m_after : string
}.

Section Matcher.
Context {R : Type}.

Fixpoint rep_greedy (p : ascii -> bool) (s : string)
    (k : string -> option R) : option R :=
  match s with
  | String c t =>
      if p c
      then match rep_greedy p t k with
           | Some r => Some r
           | None => k s
           end
      else k s
  | EmptyString => k s
  end.

Fixpoint rep_lazy (p : ascii -> bool) (s : string)
    (k : string -> option R) : option R :=
  match k s with
  | Some r => Some r
  | None =>
      match s with
      | String c t => if p c then rep_lazy p t k else None
      | EmptyString => None
      end
  end.

(** [rx r bol s caps k]: match [r] at the front of [s]; [bol] tells
    whether [s] is the whole subject; [k] continues with the rest. *)
Fixpoint rx (r : regex) (bol : bool) (s : string) (caps : gmap nat string)
    (k : bool -> string -> gmap nat string -> option R) : option R :=
  match r with
  | Eps => k bol s caps
  | Chr c =>
      match s with
      | String a t => if Ascii.eqb a c then k false t caps else None
      | EmptyString => None
      end
  | Cls p =>
      match s with
      | String a t => if p a then k false t caps else None
      | EmptyString => None
      end
  | Cat r1 r2 => rx r1 bol s caps (fun b s' caps' => rx r2 b s' caps' k)
  | Alt r1 r2 =>
      match rx r1 bol s caps k with
      | Some x => Some x
      | None => rx r2 bol s caps k
      end
  | Rep g p =>
      let k' := fun s' =>
        k (bol && (String.length s' =? String.length s)%nat) s' caps in
      if g then rep_greedy p s k' else rep_lazy p s k'
  | Opt r1 =>
      match rx r1 bol s caps k with
      | Some x => Some x
      | None => k bol s caps
      end
  | Grp n r1 =>
      rx r1 bol s caps (fun b s' caps' =>
        k b s'
          (<[n := take_chars (String.length s - String.length s') s]> caps'))
  | Bol => if bol then k bol s caps else None
  | Eol =>
      match s with
      | EmptyString => k bol s caps
      | String _ _ => None
      end
  end.
End Matcher.

Definition match_here (r : regex) (bol : bool) (s : string)
    : option (string * gmap nat string) :=
  rx r bol s ∅ (fun _ rest caps => Some (rest, caps)).

Definition shift_match (c : ascii) (m : MatchResult) : MatchResult :=
  mkMatch (String c (m_before m)) (m_text m) (m_groups m) (m_after m).

(** Leftmost match, scanning the start positions from [s] on. *)
Fixpoint search_from (r : regex) (bol : bool) (s : string) : option MatchResult :=
  match match_here r bol s with
  | Some (rest, caps) =>
      Some (mkMatch EmptyString
              (take_chars (String.length s - String.length rest) s) caps rest)
  | None =>
      match s with
      | EmptyString => None
      | String c t => shift_match c <$> search_from r false t
      end
  end.

(** [s.match(r)] for a regular expression without the [g] flag. *)
Definition js_match (r : regex) (s : string) : option MatchResult :=
  search_from r true s.

(** [s.replace(r, '')] without the [g] flag. *)
Definition replace_re (r : regex) (s : string) : string :=
  match js_match r s with
  | Some m => m_before m ++ m_after m
  | None => s
  end.

(** [s.replace(r, '')] with the [g] flag; an empty match steps over one
    character. *)
Fixpoint replace_all_from (fuel : nat) (r : regex) (bol : bool) (s : string)
    : string :=
  match fuel with
  | O => s
  | S fuel' =>
      match search_from r bol s with
      | None => s
      | Some m =>
          match m_text m, m_after m with
          | EmptyString, EmptyString => m_before m
          | EmptyString, String c t =>
              m_before m ++ String c (replace_all_from fuel' r false t)
          | String _ _, rest =>
              m_before m ++ replace_all_from fuel' r false rest
          end
      end
  end.

Definition replace_all_re (r : regex) (s : string) : string :=
  replace_all_from (S (String.length s)) r true s.

(** Regex building blocks. *)
Fixpoint lit (s : string) : regex :=
  match s with
  | EmptyString => Eps
  | String c EmptyString => Chr c
  | String c t => Cat (Chr c) (lit t)
  end.

(** Literal matched under the [i] flag (ASCII case folding). *)
Fixpoint lit_i (s : string) : regex :=
  match s with
  | EmptyString => Eps
  | String c t =>
      Cat (Cls (fun a => Ascii.eqb (lower_char a) (lower_char c))) (lit_i t)
  end.

Fixpoint seq (rs : list regex) : regex :=
  match rs with
  | [] => Eps
  | [r] => r
  | r :: rs' => Cat r (seq rs')
  end.

Definition star (p : ascii -> bool) : regex := Rep true p.
Definition plus (p : ascii -> bool) : regex := Cat (Cls p) (Rep true p).
Definition ws : regex := star is_space.                      (* \s* *)
Definition not_quote (c : ascii) : bool := negb (Ascii.eqb c dquote).
Definition not_brace (c : ascii) : bool :=
  negb (Ascii.eqb c "{"%char) && negb (Ascii.eqb c "}"%char).
Definition any_char (c : ascii) : bool := true.              (* [\s\S] *)
Definition backticks : regex := lit "```".
Definition is_newline (c : ascii) : bool := (code c =? 10)%N.

(** ** JSON.parse

    A recursive-descent reader of the JSON grammar; the fuel bounds the
    nesting depth and the number of elements by the length of the text. *)

Definition skip_ws_char (c : ascii) : bool :=
  (code c =? 32)%N || (code c =? 9)%N || (code c =? 10)%N || (code c =? 13)%N.

Fixpoint skip_ws (s : string) : string :=
  match s with
  | String c t => if skip_ws_char c then skip_ws t else s
  | EmptyString => EmptyString
  end.

Fixpoint read_digits (s : string) (acc : N) (n : nat) : N * nat * string :=
  match s with
  | String c t =>
      if is_digit c then read_digits t (acc * 10 + (code c - 48))%N (S n)
      else (acc, n, s)
  | EmptyString => (acc, n, s)
  end.

Definition hex_val (c : ascii) : option N :=
  let n := code c in
  if is_digit c then Some (n - 48)%N
  else if (97 <=? n)%N && (n <=? 102)%N then Some (n - 87)%N
  else if (65 <=? n)%N && (n <=? 70)%N then Some (n - 55)%N
  else None.

(** A code unit above 127 is kept as its UTF-8 bytes. *)
Definition utf8 (n : N) (k : string) : string :=
  if (n <? 128)%N then String (ascii_of_N n) k
  else if (n <? 2048)%N
  then String (ascii_of_N (192 + n / 64)) (String (ascii_of_N (128 + n mod 64)) k)
  else String (ascii_of_N (224 + n / 4096))
         (String (ascii_of_N (128 + (n / 64) mod 64))
            (String (ascii_of_N (128 + n mod 64)) k)).

(** The characters of a string literal after its opening quote. *)
Fixpoint read_string (s : string) : option (string * string) :=
  match s with
  | EmptyString => None
  | String c t =>
      if Ascii.eqb c dquote then Some (EmptyString, t)
      else if (code c <? 32)%N then None
      else if Ascii.eqb c "\"%char then
        match t with
        | String e t' =>
            let simple (x : N) :=
              match read_string t' with
              | Some (r, rest) => Some (String (ascii_of_N x) r, rest)
              | None => None
              end in
            if Ascii.eqb e dquote then simple 34%N
            else if Ascii.eqb e "\"%char then simple 92%N
            else if Ascii.eqb e "/"%char then simple 47%N
            else if Ascii.eqb e "b"%char then simple 8%N
            else if Ascii.eqb e "f"%char then simple 12%N
            else if Ascii.eqb e "n"%char then simple 10%N
            else if Ascii.eqb e "r"%char then simple 13%N
            else if Ascii.eqb e "t"%char then simple 9%N
            else if Ascii.eqb e "u"%char then
              match t' with
              | String h1 (String h2 (String h3 (String h4 t''))) =>
                  match hex_val h1, hex_val h2, hex_val h3, hex_val h4 with
                  | Some a, Some b, Some c', Some d =>
                      match read_string t'' with
                      | Some (r, rest) =>
                          Some (utf8 (a * 4096 + b * 256 + c' * 16 + d)%N r, rest)
                      | None => None
                      end
                  | _, _, _, _ => None
                  end
              | _ => None
              end
            else None
        | EmptyString => None
        end
      else
        match read_string t with
        | Some (r, rest) => Some (String c r, rest)
        | None => None
        end
  end.

Definition pow10 (n : nat) : positive := Nat.iter n (Pos.mul 10) 1%positive.

(** Number: [-? int frac? exp?]; a leading zero stands alone. The value
    is the double nearest to the literal. *)
Definition read_number (s : string) : option (Q * string) :=
  let '(neg, s1) :=
    match s with
    | String c t => if Ascii.eqb c "-"%char then (true, t) else (false, s)
    | EmptyString => (false, s)
    end in
  match s1 with
  | String c0 _ =>
      if is_digit c0 then
        let '(ip, ni, s2) :=
          if Ascii.eqb c0 "0"%char
          then (0%N, 1%nat, drop_chars 1 s1) else read_digits s1 0%N 0%nat in
        let '(fp, nf, s3, okf) :=
          match s2 with
          | String d t =>
              if Ascii.eqb d "."%char
              then let '(f, n, r) := read_digits t 0%N 0%nat in
                   (f, n, r, negb (n =? 0)%nat)
              else (0%N, 0%nat, s2, true)
          | EmptyString => (0%N, 0%nat, s2, true)
          end in
        let '(ex, eneg, s4, oke) :=
          match s3 with
          | String e t =>
              if Ascii.eqb (lower_char e) "e"%char then
                let '(sg, t1) :=
                  match t with
                  | String g t0 =>
                      if Ascii.eqb g "-"%char then (true, t0)
                      else if Ascii.eqb g "+"%char then (false, t0)
                      else (false, t)
                  | EmptyString => (false, t)
                  end in
                let '(x, n, r) := read_digits t1 0%N 0%nat in
                (x, sg, r, negb (n =? 0)%nat)
              else (0%N, false, s3, true)
          | EmptyString => (0%N, false, s3, true)
          end in
        if okf && oke then
          let mant : Z := Z.of_N (ip * N.pos (pow10 nf) + fp) in
          let base : Q := Qmake (if neg then - mant else mant) (pow10 nf) in
          let scale : Q :=
            if eneg then Qmake 1 (pow10 (N.to_nat ex))
            else inject_Z (Z.pos (pow10 (N.to_nat ex))) in
          Some (binary64 (base * scale), s4)
        else None
      else None
  | EmptyString => None
  end.

Fixpoint read_value (fuel : nat) (s : string) : option (json * string) :=
  match fuel with
  | O => None
  | S fuel' =>
      let s := skip_ws s in
      if starts_with "null" s then Some (JNull, drop_chars 4 s)
      else if starts_with "true" s then Some (JBool true, drop_chars 4 s)
      else if starts_with "false" s then Some (JBool false, drop_chars 5 s)
      else match s with
           | EmptyString => None
           | String c t =>
               if Ascii.eqb c dquote then
                 match read_string t with
                 | Some (str, rest) => Some (JStr str, rest)
                 | None => None
                 end
               else if Ascii.eqb c "["%char then
                 match skip_ws t with
                 | String "]"%char rest => Some (JArr [], rest)
                 | _ =>
                     match read_elements fuel' t with
                     | Some (l, rest) => Some (JArr l, rest)
                     | None => None
                     end
                 end
               else if Ascii.eqb c "{"%char then
                 match skip_ws t with
                 | String "}"%char rest => Some (JObj ∅, rest)
                 | _ =>
                     match read_members fuel' t ∅ with
                     | Some (m, rest) => Some (JObj m, rest)
                     | None => None
                     end
                 end
               else
                 match read_number s with
                 | Some (q, rest) => Some (JNum q, rest)
                 | None => None
                 end
           end
  end
with read_elements (fuel : nat) (s : string) : option (list json * string) :=
  match fuel with
  | O => None
  | S fuel' =>
      match read_value fuel' s with
      | Some (v, rest) =>
          match skip_ws rest with
          | String "]"%char rest' => Some ([v], rest')
          | String ","%char rest' =>
              match read_elements fuel' rest' with
              | Some (l, rest'') => Some (v :: l, rest'')
              | None => None
              end
          | _ => None
          end
      | None => None
      end
  end
with read_members (fuel : nat) (s : string) (acc : gmap string json)
    : option (gmap string json * string) :=
  match fuel with
  | O => None
  | S fuel' =>
      match skip_ws s with
      | String c t =>
          if Ascii.eqb c dquote then
            match read_string t with
            | Some (key, rest) =>
                match skip_ws rest with
                | String ":"%char rest1 =>
                    match read_value fuel' rest1 with
                    | Some (v, rest2) =>
                        let acc' := <[key := v]> acc in
                        match skip_ws rest2 with
                        | String "}"%char rest3 => Some (acc', rest3)
                        | String ","%char rest3 => read_members fuel' rest3 acc'
                        | _ => None
                        end
                    | None => None
                    end
                | _ => None
                end
            | None => None
            end
          else None
      | EmptyString => None
      end
  end.

(** [JSON.parse(s)]; [None] stands for the SyntaxError it throws. *)
Definition JSON_parse (s : string) : option json :=
  match read_value (S (String.length s)) s with
  | Some (v, rest) =>
      match skip_ws rest with
      | EmptyString => Some v
      | String _ _ => None
      end
  | None => None
  end.

(** ** Dates

    The time-value arithmetic of the language standard: a time value is a
    number of milliseconds since the epoch, and the calendar fields are
    functions of it. *)

#[local] Open Scope Z_scope.

Definition msPerDay : Z := 86400000.
Definition msPerHour : Z := 3600000.
Definition msPerMinute : Z := 60000.
Definition msPerSecond : Z := 1000.

Definition Day (t : Z) : Z := t / msPerDay.
Definition TimeWithinDay (t : Z) : Z := t mod msPerDay.

Definition DayFromYear (y : Z) : Z :=
  365 * (y - 1970) + (y - 1969) / 4 - (y - 1901) / 100 + (y - 1601) / 400.

(** The largest year whose first day is not after [t]. *)
Definition YearFromTime (t : Z) : Z :=
  let d := Day t in
  let y := 1970 + (d * 400) / 146097 in
  if d <? DayFromYear y then y - 1
  else if DayFromYear (y + 1) <=? d then y + 1
  else y.

Definition DaysInYear (y : Z) : Z := DayFromYear (y + 1) - DayFromYear y.
Definition InLeapYear (t : Z) : Z := DaysInYear (YearFromTime t) - 365.
Definition DayWithinYear (t : Z) : Z := Day t - DayFromYear (YearFromTime t).

(** Day within the year on which month [m] (0 to 11) starts. *)
Definition month_start (m leap : Z) : Z :=
  match m with
  | 0 => 0
  | 1 => 31
  | 2 => 59 + leap
  | 3 => 90 + leap
  | 4 => 120 + leap
  | 5 => 151 + leap
  | 6 => 181 + leap
  | 7 => 212 + leap
  | 8 => 243 + leap
  | 9 => 273 + leap
  | 10 => 304 + leap
  | _ => 334 + leap
  end.

Definition MonthFromTime (t : Z) : Z :=
  let d := DayWithinYear t in
  let l := InLeapYear t in
  if d <? 31 then 0
  else if d <? 59 + l then 1
  else if d <? 90 + l then 2
  else if d <? 120 + l then 3
  else if d <? 151 + l then 4
  else if d <? 181 + l then 5
  else if d <? 212 + l then 6
  else if d <? 243 + l then 7
  else if d <? 273 + l then 8
  else if d <? 304 + l then 9
  else if d <? 334 + l then 10
  else 11.

Definition DateFromTime (t : Z) : Z :=
  DayWithinYear t - month_start (MonthFromTime t) (InLeapYear t) + 1.

Definition HourFromTime (t : Z) : Z := (t / msPerHour) mod 24.
Definition MinFromTime (t : Z) : Z := (t / msPerMinute) mod 60.
Definition SecFromTime (t : Z) : Z := (t / msPerSecond) mod 60.
Definition msFromTime (t : Z) : Z := t mod msPerSecond.

Definition MakeTime (hour min sec ms : Z) : Z :=
  hour * msPerHour + min * msPerMinute + sec * msPerSecond + ms.

Definition MakeDay (year month date : Z) : Z :=
  let ym := year + month / 12 in
  let mn := month mod 12 in
  DayFromYear ym + month_start mn (DaysInYear ym - 365) + date - 1.

Definition MakeDate (day time : Z) : Z := day * msPerDay + time.

(** Local time is UTC plus the offset [tz] (milliseconds). *)
Definition LocalTime (tz t : Z) : Z := t + tz.
Definition UTC (tz t : Z) : Z := t - tz.

Definition getDate (tz t : Z) : Z := DateFromTime (LocalTime tz t).

Definition setDate (tz t dt : Z) : Z :=
  let lt := LocalTime tz t in
  UTC tz (MakeDate (MakeDay (YearFromTime lt) (MonthFromTime lt) dt)
            (TimeWithinDay lt)).

Definition setHours (tz t hour min sec ms : Z) : Z :=
  let lt := LocalTime tz t in
  UTC tz (MakeDate (Day lt) (MakeTime hour min sec ms)).

Definition pad (width : nat) (n : Z) : string :=
  let s := N_to_string (Z.to_N n) in
  String.concat "" (repeat "0"%string (width - String.length s)) ++ s.

(** [toISOString]: [YYYY-MM-DDTHH:mm:ss.sssZ], with a signed six-digit
    year outside 0..9999. *)
Definition toISOString (t : Z) : string :=
  let y := YearFromTime t in
  let year :=
    if (0 <=? y)%Z && (y <=? 9999)%Z then pad 4 y
    else ((if (y <? 0)%Z then "-" else "+") ++ pad 6 (Z.abs y))%string in
  (year ++ "-" ++ pad 2 (MonthFromTime t + 1) ++ "-" ++ pad 2 (DateFromTime t)
   ++ "T" ++ pad 2 (HourFromTime t) ++ ":" ++ pad 2 (MinFromTime t) ++ ":"
   ++ pad 2 (SecFromTime t) ++ "." ++ pad 3 (msFromTime t) ++ "Z")%string.

(** [parseInt] on a string of decimal digits. *)
Definition parseInt (s : string) : Z :=
  let '(n, _, _) := read_digits s 0%N 0%nat in Z.of_N n.

#[local] Close Scope Z_scope.

(** ** The entries table (lib/supabase.ts) *)

Inductive Category : Type := people | projects | ideas | tasks.

Definition category_name (c : Category) : string :=
  match c with
  | people => "people"
  | projects => "projects"
  | ideas => "ideas"
  | tasks => "tasks"
  end.

Definition category_eqb (a b : Category) : bool :=
  String.eqb (category_name a) (category_name b).

(** A row of the table. [category] and [data] are [NOT NULL] in the table
    definition; [confidence], [needs_review], [archived] and
    [linked_entries] are not, and [None] is their [NULL]. *)
Record Entry : Type := mkEntry {
  id : string;
  category : Category;
  data : json;
  confidence : option Q;
  needs_review : option bool;
  archived : option bool;
  linked_entries : option (list string);
  created_at : string;
  updated_at : string;
  user_id : string
}.

(** ** The world of one request

    What the handler obtains from the hosted services while it serves one
    request. *)

Record World : Type := mkWorld {
  auth_user : option string;   (* data.user of auth.getUser(): the caller's id *)
  auth_error : bool;           (* error of auth.getUser() *)
  store_up : bool;             (* false: every query answers with an error *)
  model_reply : option string; (* text of the model's answer; None: the call throws *)
  maps_key : bool;             (* NEXT_PUBLIC_GOOGLE_MAPS_API_KEY is set *)
  now : Z;                     (* new Date() *)
  tz : Z;                      (* offset of local time from UTC *)
  next_id : string;            (* gen_random_uuid() *)
  Date_parse : string -> option Z; (* new Date(text); None: Invalid Date *)
  lower_case : string -> string;   (* toLowerCase of a text that is not ASCII *)
  Number_of : json -> option (option Q);
    (* ToNumber of a string, an array or an object; the outer None: it
       throws, the inner None: NaN *)
  cast_bool : json -> option bool;
    (* the boolean the database reads from a value that is neither a
       boolean nor null; None: it refuses the value *)
  cast_float : json -> option Q;
    (* the same for a number *)
  cast_list : json -> option (list string)
    (* the same for an array of ids *)
}.

(** [s.toLowerCase()] *)
Definition toLowerCase (w : World) (s : string) : string :=
  if is_ascii s then lower_ascii s else lower_case w s.

(** [ToNumber(v)]; the outer [None]: a TypeError, the inner [None]: [NaN]. *)
Definition ToNumber (w : World) (v : jsval) : option (option Q) :=
  match v with
  | None => Some None
  | Some JNull => Some (Some 0%Q)
  | Some (JBool b) => Some (Some (if b then 1%Q else 0%Q))
  | Some (JNum q) => Some (Some q)
  | Some j => Number_of w j
  end.

Inductive Event : Type :=
| StoreQuery
| ModelCall
| MapsCall.

Record St : Type := mkSt {
  table : list Entry;
  trace : list Event
}.

(** Handlers are computations over the table and the trace. *)
Definition M (A : Type) : Type := St -> A * St.

#[export] Instance M_ret : MRet M := fun A a st => (a, st).
#[export] Instance M_bind : MBind M := fun A B f c st =>
  let '(a, st') := c st in f a st'.

Definition emit (e : Event) : M unit :=
  fun st => (tt, mkSt (table st) (trace st ++ [e])).

Inductive StoreError : Type := PGRST116 | StoreFailure.

Inductive Result (A : Type) : Type :=
| Ok (a : A)
| Err (e : StoreError).
Arguments Ok {A} a.
Arguments Err {A} e.

(** The columns that the database reads from the JSON payload of a write.
    [category] is a text that the table definition checks to be one of the
    four names and [data] any JSON value; neither may be null. The other
    columns take a value of their type as it is and [null] as [NULL] (the
    payload travels as JSON text, in which an infinite number is written
    [null]); what the database makes of any other value (a flag written as
    a string, say) is its own reading, given by the world. *)
Definition as_category (v : jsval) : option Category :=
  match v with
  | Some (JStr s) =>
      if String.eqb s "people" then Some people
      else if String.eqb s "projects" then Some projects
      else if String.eqb s "ideas" then Some ideas
      else if String.eqb s "tasks" then Some tasks
      else None
  | _ => None
  end.

Definition as_data (v : jsval) : option json :=
  match v with
  | Some JNull => None
  | Some j => Some j
  | None => None
  end.

Definition as_float (w : World) (v : json) : option (option Q) :=
  match v with
  | JNull => Some None
  | JNum q => Some (if is_finite q then Some q else None)
  | _ => Some <$> cast_float w v
  end.

Definition as_flag (w : World) (v : json) : option (option bool) :=
  match v with
  | JNull => Some None
  | JBool b => Some (Some b)
  | _ => Some <$> cast_bool w v
  end.

Definition as_string (v : jsval) : option string :=
  match v with Some (JStr s) => Some s | _ => None end.

Fixpoint as_strings (l : list json) : option (list string) :=
  match l with
  | [] => Some []
  | JStr s :: t => cons s <$> as_strings t
  | _ :: _ => None
  end.

Definition as_list (w : World) (v : json) : option (option (list string)) :=
  match v with
  | JNull => Some None
  | JArr l =>
      match as_strings l with
      | Some ids => Some (Some ids)
      | None => Some <$> cast_list w v
      end
  | _ => Some <$> cast_list w v
  end.

(** One column of a payload: a key that is absent leaves the column at
    [old], its default in an insert and its value so far in an update. *)
Definition column {A} (dec : json -> option A) (v : jsval) (old : A)
    : option A :=
  match v with
  | None => Some old
  | Some j => dec j
  end.

(** The row an insert payload describes; [id] and the two time stamps are
    column defaults, as are [FALSE] for the two flags and the empty array
    for [linked_entries]. *)
Definition row_of_insert (w : World) (p : gmap string json) : option Entry :=
  c ← as_category (p !! "category");
  d ← as_data (p !! "data");
  q ← column (as_float w) (p !! "confidence") None;
  r ← column (as_flag w) (p !! "needs_review") (Some false);
  a ← column (as_flag w) (p !! "archived") (Some false);
  l ← column (as_list w) (p !! "linked_entries") (Some []);
  u ← as_string (p !! "user_id");
  Some (mkEntry (next_id w) c d q r a l
          (toISOString (now w)) (toISOString (now w)) u).

Definition apply_patch (w : World) (p : gmap string json) (e : Entry)
    : option Entry :=
  c ← column (λ j, as_category (Some j)) (p !! "category") (category e);
  d ← column (λ j, as_data (Some j)) (p !! "data") (data e);
  r ← column (as_flag w) (p !! "needs_review") (needs_review e);
  a ← column (as_flag w) (p !! "archived") (archived e);
  l ← column (as_list w) (p !! "linked_entries") (linked_entries e);
  t ← column (λ j, as_string (Some j)) (p !! "updated_at") (updated_at e);
  Some (mkEntry (id e) c d (confidence e) r a l (created_at e) t (user_id e)).

Fixpoint patch_rows (w : World) (sel : Entry -> bool) (p : gmap string json)
    (rows : list Entry) : option (list Entry * list Entry) :=
  match rows with
  | [] => Some ([], [])
  | e :: t =>
      '(t', hit) ← patch_rows w sel p t;
      if sel e
      then e' ← apply_patch w p e; Some (e' :: t', e' :: hit)
      else Some (e :: t', hit)
  end.

(** [from('entries').select(..).eq(..)...]: the rows that pass the filters. *)
Definition select_where (w : World) (sel : Entry -> bool)
    : M (Result (list Entry)) :=
  fun st =>
    (if store_up w then Ok (filter (fun e => sel e = true) (table st))
     else Err StoreFailure,
     mkSt (table st) (trace st ++ [StoreQuery])).

(** [.single()]: exactly one row, or the error PGRST116. *)
Definition single (r : Result (list Entry)) : Result Entry :=
  match r with
  | Ok [e] => Ok e
  | Ok _ => Err PGRST116
  | Err e => Err e
  end.

(** [from('entries').insert(p).select()]: the primary key stays unique. *)
Definition insert_row (w : World) (p : gmap string json)
    : M (Result (list Entry)) :=
  fun st =>
    let st' := mkSt (table st) (trace st ++ [StoreQuery]) in
    if store_up w then
      match row_of_insert w p with
      | Some e =>
          if existsb (fun x => String.eqb (id x) (id e)) (table st)
          then (Err StoreFailure, st')
          else (Ok [e], mkSt (table st ++ [e]) (trace st'))
      | None => (Err StoreFailure, st')
      end
    else (Err StoreFailure, st').

(** [from('entries').update(p).eq(..)...]: answers the rows it changed. *)
Definition update_where (w : World) (sel : Entry -> bool)
    (p : gmap string json) : M (Result (list Entry)) :=
  fun st =>
    let st' := mkSt (table st) (trace st ++ [StoreQuery]) in
    if store_up w then
      match patch_rows w sel p (table st) with
      | Some (rows, hit) => (Ok hit, mkSt rows (trace st'))
      | None => (Err StoreFailure, st')
      end
    else (Err StoreFailure, st').

(** [from('entries').delete().eq(..)...] *)
Definition delete_where (w : World) (sel : Entry -> bool)
    : M (Result unit) :=
  fun st =>
    let st' := mkSt (table st) (trace st ++ [StoreQuery]) in
    if store_up w
    then (Ok tt, mkSt (filter (fun e => sel e = false) (table st)) (trace st'))
    else (Err StoreFailure, st').

(** [.order('created_at', { ascending: false })] *)
Fixpoint insert_desc (e : Entry) (l : list Entry) : list Entry :=
  match l with
  | [] => [e]
  | x :: t =>
      if String.leb (created_at x) (created_at e) then e :: l
      else x :: insert_desc e t
  end.

Definition order_desc (l : list Entry) : list Entry := foldr insert_desc [] l.

Definition map_result {A B} (f : A -> B) (r : Result A) : Result B :=
  match r with
  | Ok a => Ok (f a)
  | Err e => Err e
  end.

(** Filters of the query builder. *)
Definition eq_id (i : string) (e : Entry) : bool := String.eqb (id e) i.
Definition eq_user (u : string) (e : Entry) : bool := String.eqb (user_id e) u.
Definition eq_category (c : string) (e : Entry) : bool :=
  String.eqb (category_name (category e)) c.
(** A comparison with [NULL] is not true: a row whose flag is [NULL]
    passes neither [eq(.., true)] nor [eq(.., false)]. *)
Definition eq_flag (b : bool) (flag : option bool) : bool :=
  match flag with
  | Some a => Bool.eqb a b
  | None => false
  end.
Definition eq_archived (b : bool) (e : Entry) : bool := eq_flag b (archived e).
Definition eq_needs_review (b : bool) (e : Entry) : bool :=
  eq_flag b (needs_review e).

(** Some row carries [null] as its data: reading a property of it raises
    a TypeError. *)
Definition has_null_data (l : list Entry) : bool :=
  existsb (fun e => match data e with JNull => true | _ => false end) l.

(** [l.length === 0] *)
Definition is_empty {A} (l : list A) : bool :=
  match l with
  | [] => true
  | _ :: _ => false
  end.

(** ** Requests and responses *)

Record Request : Type := mkRequest {
  param_id : string;                  (* the [id] segment of the route *)
  query : list (string * string);     (* searchParams *)
  body : option json                  (* request.json(); None: it throws *)
}.

Fixpoint searchParams_get (q : list (string * string)) (k : string)
    : option string :=
  match q with
  | [] => None
  | (k', v) :: t => if String.eqb k' k then Some v else searchParams_get t k
  end.

Inductive Body : Type :=
| BError (msg : string)                              (* { error } *)
| BErrorBullets (msg : string)                       (* { error, bullets: [] } *)
| BRows (rows : list Entry)
| BRow (row : Entry)
| BSuccess                                           (* { success: true } *)
| BCapture (entry : Entry) (needsReview : bool) (mentionedPeople : jsval)
| BChat (response : string) (updated : bool) (updatedFields : jsval)
| BBullets (bullets : json)
| BOther (payload : json).

Record Response : Type := mkResponse {
  status : nat;
  payload : Body
}.

(** [NextResponse.json(b)] and [NextResponse.json(b, { status })] *)
Module NextResponse.
Definition json (b : Body) : Response := mkResponse 200 b.
Definition json_status (b : Body) (s : nat) : Response := mkResponse s b.
End NextResponse.

Definition unauthorized : Response :=
  NextResponse.json_status (BError "Unauthorized") 401.

(** [v ?? d] *)
Definition nullish (v : jsval) (d : json) : jsval :=
  match v with
  | None => Some d
  | Some JNull => Some d
  | Some _ => v
  end.

(** An object literal sent to the store: a key whose value is [undefined]
    is not transmitted. *)
Fixpoint object (fields : list (string * jsval)) : gmap string json :=
  match fields with
  | [] => ∅
  | (k, Some v) :: t => <[k := v]> (object t)
  | (_, None) :: t => object t
  end.
Arguments object : simpl never.

(** ** Route [api/entries] (src/app/api/entries/route.ts) *)

Module EntriesRoute.

Definition GET (w : World) (request : Request) : M Response :=
  match auth_user w with
  | None => mret unauthorized
  | Some user =>
      let category := searchParams_get (query request) "category" in
      let archivedParam := searchParams_get (query request) "archived" in
      let needsReview :=
        match searchParams_get (query request) "needs_review" with
        | Some v => String.eqb v "true"
        | None => false
        end in
      let by_category e :=
        match category with
        | Some c => if String.eqb c "" then true else eq_category c e
        | None => true
        end in
      let by_archived e :=
        match archivedParam with
        | Some a =>
            if String.eqb a "only" then eq_archived true e
            else if negb (String.eqb a "true") then eq_archived false e
            else true
        | None => eq_archived false e
        end in
      let by_review e := if needsReview then eq_needs_review true e else true in
      r ← select_where w (fun e =>
             eq_user user e && by_category e && by_archived e && by_review e);
      match map_result order_desc r with
      | Err _ =>
          mret (NextResponse.json_status (BError "Failed to fetch entries") 500)
      | Ok rows => mret (NextResponse.json (BRows rows))
      end
  end.

Definition POST (w : World) (request : Request) : M Response :=
  match auth_user w with
  | None => mret unauthorized
  | Some user =>
      let fields :=
        b ← body request;
        c ← prop (Some b) "category";
        d ← prop (Some b) "data";
        q ← prop (Some b) "confidence";
        n ← prop (Some b) "needs_review";
        l ← prop (Some b) "linked_entries";
        Some (object [("category", c); ("data", d);
                      ("confidence", nullish q (JNum 1));
                      ("needs_review", nullish n (JBool false));
                      ("archived", Some (JBool false));
                      ("linked_entries", nullish l (JArr []));
                      ("user_id", Some (JStr user))]) in
      match fields with
      | None =>
          mret (NextResponse.json_status (BError "Invalid request body") 400)
      | Some p =>
          r ← insert_row w p;
          match single r with
          | Err _ =>
              mret (NextResponse.json_status (BError "Failed to create entry") 500)
          | Ok row => mret (NextResponse.json (BRow row))
          end
      end
  end.

End EntriesRoute.

(** ** Route [api/entries/[id]] (src/app/api/entries/[id]/route.ts) *)

Module EntryRoute.

Definition GET (w : World) (request : Request) : M Response :=
  match auth_user w with
  | None => mret unauthorized
  | Some user =>
      let i := param_id request in
      r ← select_where w (fun e => eq_id i e && eq_user user e);
      match single r with
      | Err PGRST116 =>
          mret (NextResponse.json_status (BError "Entry not found") 404)
      | Err _ =>
          mret (NextResponse.json_status (BError "Failed to fetch entry") 500)
      | Ok row => mret (NextResponse.json (BRow row))
      end
  end.

Definition PATCH (w : World) (request : Request) : M Response :=
  match auth_user w with
  | None => mret unauthorized
  | Some user =>
      let i := param_id request in
      let updateData :=
        b ← body request;
        d ← prop (Some b) "data";
        c ← prop (Some b) "category";
        n ← prop (Some b) "needs_review";
        a ← prop (Some b) "archived";
        l ← prop (Some b) "linked_entries";
        Some (object [("updated_at", Some (JStr (toISOString (now w))));
                      ("data", d); ("category", c); ("needs_review", n);
                      ("archived", a); ("linked_entries", l)]) in
      match updateData with
      | None =>
          mret (NextResponse.json_status (BError "Invalid request body") 400)
      | Some p =>
          r ← update_where w (fun e => eq_id i e && eq_user user e) p;
          match single r with
          | Err _ =>
              mret (NextResponse.json_status (BError "Failed to update entry") 500)
          | Ok row => mret (NextResponse.json (BRow row))
          end
      end
  end.

Definition DELETE (w : World) (request : Request) : M Response :=
  match auth_user w with
  | None => mret unauthorized
  | Some user =>
      let i := param_id request in
      r ← delete_where w (fun e => eq_id i e && eq_user user e);
      match r with
      | Err _ =>
          mret (NextResponse.json_status (BError "Failed to delete entry") 500)
      | Ok _ => mret (NextResponse.json BSuccess)
      end
  end.

End EntryRoute.

(** ** Code fences around a model answer

    [/^```(?:json)?\s*\n?/i] and [/\n?```\s*$/i] *)

Definition fence_open_re : regex :=
  seq [Bol; backticks; Opt (lit_i "json"); ws; Opt (Cls is_newline)].

Definition fence_close_re : regex :=
  seq [Opt (Cls is_newline); backticks; ws; Eol].

Definition strip_fences (rawText : string) : string :=
  trim (replace_re fence_close_re (replace_re fence_open_re rawText)).

(** ** Route [api/capture] (classify and create) *)

Module CaptureRoute.

(** [0.6]: the double that the literal stands for,
    [5404319552844595 / 2^53]. *)
Definition review_threshold : Q := binary64 (6 # 10).

(** [result.confidence < 0.6]: the operand is converted to a number, and
    no comparison with [NaN] is true. [None] when the conversion throws. *)
Definition below_threshold (w : World) (v : jsval) : option bool :=
  n ← ToNumber w v;
  Some (match n with
        | Some c => negb (Qle_bool review_threshold c)
        | None => false
        end).

(** [result.mentionedPeople && result.mentionedPeople.length > 0]; the
    [length] of an object is compared when it is a number. *)
Definition has_mentions (v : jsval) : bool :=
  match v with
  | Some (JArr l) => negb (is_empty l)
  | Some (JStr s) => negb (String.eqb s "")
  | Some (JObj m) =>
      match m !! "length" with
      | Some (JNum n) => negb (Qle_bool n 0)
      | _ => false
      end
  | _ => false
  end.

(** [(entry.data as { name?: string }).name?.toLowerCase()]; the outer
    [None] is a TypeError. *)
Definition lowered_name (w : World) (e : Entry) : option (option string) :=
  match prop (Some (data e)) "name" with
  | None => None
  | Some None => Some None
  | Some (Some JNull) => Some None
  | Some (Some (JStr s)) => Some (Some (toLowerCase w s))
  | Some (Some _) => None
  end.

(** [mentionedPeople.some((mentioned) => name.includes(mentioned.toLowerCase()))] *)
Fixpoint some_mentioned (w : World) (name : string) (l : list json)
    : option bool :=
  match l with
  | [] => Some false
  | JStr m :: t =>
      if includes name (toLowerCase w m) then Some true
      else some_mentioned w name t
  | _ :: _ => None
  end.

(** [peopleEntries.filter(..).map((entry) => entry.id)]; [None] when the
    callback throws. *)
Fixpoint link_people (w : World) (mentioned : jsval) (rows : list Entry)
    : option (list string) :=
  match rows with
  | [] => Some []
  | e :: t =>
      name ← lowered_name w e;
      keep ← match mentioned, name with
             | Some (JArr l), Some n => some_mentioned w n l
             | Some (JArr l), None => Some false
             | _, _ => None
             end;
      rest ← link_people w mentioned t;
      Some (if keep : bool then id e :: rest else rest)
  end.

Definition internal_error : Response :=
  NextResponse.json_status (BError "Internal server error") 500.

Definition POST (w : World) (request : Request) : M Response :=
  match auth_user w with
  | None => mret unauthorized
  | Some user =>
      match b ← body request; prop (Some b) "text" with
      | None => mret internal_error
      | Some text =>
          match text with
          | Some (JStr t) =>
              if String.eqb t "" then
                mret (NextResponse.json_status (BError "Text is required") 400)
              else
                _ ← emit ModelCall;
                match model_reply w with
                | None => mret internal_error
                | Some rawText =>
                    let responseText := strip_fences rawText in
                    match JSON_parse responseText with
                    | None =>
                        mret (NextResponse.json_status
                                (BError "Failed to parse AI response") 500)
                    | Some result =>
                        match prop (Some result) "confidence",
                              prop (Some result) "mentionedPeople",
                              prop (Some result) "category",
                              prop (Some result) "data" with
                        | Some conf, Some mentioned, Some cat, Some dat =>
                            match below_threshold w conf with
                            | None => mret internal_error
                            | Some needsReview =>
                            linked ←
                              (if has_mentions mentioned then
                                 r ← select_where w (fun e =>
                                        eq_category "people" e
                                        && eq_archived false e
                                        && eq_user user e);
                                 match r with
                                 | Ok peopleEntries =>
                                     mret (link_people w mentioned peopleEntries)
                                 | Err _ => mret (Some [])
                                 end
                               else mret (Some [])) : M (option (list string));
                            match linked with
                            | None => mret internal_error
                            | Some linkedEntries =>
                                r ← insert_row w
                                      (object
                                         [("category", cat); ("data", dat);
                                          ("confidence", conf);
                                          ("needs_review",
                                           Some (JBool needsReview));
                                          ("archived", Some (JBool false));
                                          ("linked_entries",
                                           Some (JArr (JStr <$> linkedEntries)));
                                          ("user_id", Some (JStr user))]);
                                match single r with
                                | Err _ =>
                                    mret (NextResponse.json_status
                                            (BError "Failed to save entry") 500)
                                | Ok newEntry =>
                                    mret (NextResponse.json
                                            (BCapture newEntry needsReview
                                               mentioned))
                                end
                            end
                            end
                        | _, _, _, _ => mret internal_error
                        end
                    end
                end
          | _ => mret (NextResponse.json_status (BError "Text is required") 400)
          end
      end
  end.

End CaptureRoute.

(** ** Route [api/summary] (digest)

    The text of the prompt is not modelled: only that the model is
    called. *)

Definition no_bullets : json := JArr [].

Module SummaryRoute.

Definition GET (w : World) : M Response :=
  match auth_user w with
  | None => mret (NextResponse.json (BBullets no_bullets))
  | Some user =>
      tasksResult ← select_where w (fun e =>
        eq_category "tasks" e && eq_archived false e && eq_user user e);
      projectsResult ← select_where w (fun e =>
        eq_category "projects" e && eq_archived false e && eq_user user e);
      let rows (r : Result (list Entry)) (limit : nat) :=
        match r with
        | Ok l => take limit (order_desc l)
        | Err _ => []
        end in
      let tasks := rows tasksResult 10%nat in
      let projects := rows projectsResult 5%nat in
      if is_empty tasks && is_empty projects then
        mret (NextResponse.json (BBullets no_bullets))
      else if has_null_data tasks || has_null_data projects then
        mret (NextResponse.json_status
                (BErrorBullets "Failed to generate summary") 500)
      else
        _ ← emit ModelCall;
        match model_reply w with
        | None =>
            mret (NextResponse.json_status
                    (BErrorBullets "Failed to generate summary") 500)
        | Some rawText =>
            let responseText := strip_fences rawText in
            let bullets :=
              match JSON_parse responseText with
              | Some b => b
              | None => no_bullets
              end in
            mret (NextResponse.json (BBullets bullets))
        end
  end.

End SummaryRoute.

(** The earlier revision of the same route. *)
Module SummaryRouteEarlier.

Definition default_bullets : json :=
  JArr [JStr "Review your pending tasks"; JStr "Check project progress";
        JStr "Capture new ideas"].

Definition GET (w : World) : M Response :=
  match auth_user w with
  | None => mret (NextResponse.json (BBullets no_bullets))
  | Some user =>
      tasksResult ← select_where w (fun e =>
        eq_category "tasks" e && eq_archived false e && eq_user user e);
      projectsResult ← select_where w (fun e =>
        eq_category "projects" e && eq_archived false e && eq_user user e);
      let rows (r : Result (list Entry)) (limit : nat) :=
        match r with
        | Ok l => take limit (order_desc l)
        | Err _ => []
        end in
      let tasks := rows tasksResult 10%nat in
      let projects := rows projectsResult 5%nat in
      if is_empty tasks && is_empty projects then
        mret (NextResponse.json (BBullets no_bullets))
      else if has_null_data tasks || has_null_data projects then
        mret (NextResponse.json_status
                (BErrorBullets "Failed to generate summary") 500)
      else
        _ ← emit ModelCall;
        match model_reply w with
        | None =>
            mret (NextResponse.json_status
                    (BErrorBullets "Failed to generate summary") 500)
        | Some responseText =>
            let bullets :=
              match JSON_parse responseText with
              | Some b => b
              | None => default_bullets
              end in
            mret (NextResponse.json (BBullets bullets))
        end
  end.

End SummaryRouteEarlier.

(** ** Template literals

    [`${v}`]: the string a value is converted to. *)

#[local] Open Scope Z_scope.

(** The [e] with [10^e <= n / d < 10^(e+1)], for positive [n] and [d]:
    an estimate from the binary logarithm, corrected by one step. *)
Definition log10_floor (n d : Z) : Z :=
  let below (e : Z) := n * 10 ^ Z.max 0 (- e) <? d * 10 ^ Z.max 0 e in
  let e := (log2_floor n d * 1233) / 4096 in
  if below e then e - 1
  else if below (e + 1) then e
  else e + 1.

(** [s * 10^e] *)
Definition decimal (s e : Z) : Q :=
  if 0 <=? e then inject_Z (s * 10 ^ e)
  else Qmake s (Z.to_pos (10 ^ (- e))).

(** The shortest decimal that reads back as the double [x > 0]: the
    digits [s] and the exponent [n] of [Number::toString], that is
    [x = binary64 (s * 10^(n-k))] with [k] digits in [s], [k] as small as
    possible and the decimal as near to [x] as possible (the even [s] of
    two that are equally near). *)
Fixpoint shortest (fuel : nat) (k : Z) (x : Q) (n : Z) : Z * Z * Z :=
  let e := n - k in
  let lo := Qfloor (x / decimal 1 e) in
  let hi := lo + 1 in
  let reads (s : Z) := Qeq_bool (binary64 (decimal s e)) x in
  let below := (x - decimal lo e)%Q in
  let above := (decimal hi e - x)%Q in
  let nearer_lo :=
    negb (Qle_bool above below) || (Qeq_bool below above && Z.even lo) in
  let found (s : Z) :=
    if s =? 10 ^ k then (10 ^ (k - 1), k, n + 1) else (s, k, n) in
  match fuel with
  | O => found lo
  | S f =>
      if reads lo && (nearer_lo || negb (reads hi)) then found lo
      else if reads hi then found hi
      else shortest f (k + 1) x n
  end.

#[local] Close Scope Z_scope.

Definition zeros (n : Z) : string :=
  String.concat "" (repeat "0" (Z.to_nat n)).

(** [Number::toString] (radix 10). *)
Definition number_to_string (q : Q) : string :=
  if Qeq_bool q 0 then "0"
  else
    let x := Qabs q in
    let sign := if (Qnum q <? 0)%Z then "-" else "" in
    if negb (is_finite q) then sign ++ "Infinity"
    else
      let '(s, k, n) :=
        shortest 17 1 x
          (log10_floor (Z.abs (Qnum q)) (Z.pos (Qden q)) + 1)%Z in
      let digits := N_to_string (Z.to_N s) in
      sign ++
      (if (k <=? n)%Z && (n <=? 21)%Z then digits ++ zeros (n - k)
       else if (0 <? n)%Z && (n <=? 21)%Z then
         take_chars (Z.to_nat n) digits ++ "." ++ drop_chars (Z.to_nat n) digits
       else if (-6 <? n)%Z && (n <=? 0)%Z then "0." ++ zeros (- n) ++ digits
       else
         let e := (n - 1)%Z in
         let exponent :=
           (if (e <? 0)%Z then "-" else "+") ++ N_to_string (Z.abs_N e) in
         if (k =? 1)%Z then digits ++ "e" ++ exponent
         else take_chars 1 digits ++ "." ++ drop_chars 1 digits ++ "e" ++ exponent).

Fixpoint to_string (v : json) : string :=
  match v with
  | JNull => "null"
  | JBool b => if b then "true" else "false"
  | JNum q => number_to_string q
  | JStr s => s
  | JArr l =>
      String.concat ","
        (map (fun x => match x with JNull => "" | _ => to_string x end) l)
  | JObj _ => "[object Object]"
  end.

(** [v === 'text'] *)
Definition is_string (text : string) (v : jsval) : bool :=
  match v with
  | Some (JStr s) => String.eqb s text
  | _ => false
  end.

Definition chat_failed : Response :=
  NextResponse.json_status (BError "Failed to process chat message") 500.

Definition is_ok {A} (r : Result A) : bool :=
  match r with
  | Ok _ => true
  | Err _ => false
  end.

(** ** Route [api/task/[id]/chat] (src/app/api/task/[id]/chat/route.ts) *)

Module TaskChatRoute.

(** [/(\d{1,2})(?::(\d{2}))?\s*(am|pm)?/] *)
Definition time_re : regex :=
  seq [Grp 1 (Cat (Cls is_digit) (Opt (Cls is_digit)));
       Opt (Cat (Chr ":"%char) (Grp 2 (Cat (Cls is_digit) (Cls is_digit))));
       ws;
       Opt (Grp 3 (Alt (lit "am") (lit "pm")))].

Definition parseNaturalDate (w : World) (input : string) : option string :=
  let lowered := trim (toLowerCase w input) in
  if String.eqb lowered "today" then Some (toISOString (now w))
  else if String.eqb lowered "tomorrow" then
    Some (toISOString (setDate (tz w) (now w) (getDate (tz w) (now w) + 1)))
  else if String.eqb lowered "next week" then
    Some (toISOString (setDate (tz w) (now w) (getDate (tz w) (now w) + 7)))
  else
    match js_match time_re lowered with
    | Some timeMatch =>
        let hours := parseInt (default "" (m_groups timeMatch !! 1%nat)) in
        let minutes :=
          match m_groups timeMatch !! 2%nat with
          | Some mm => parseInt mm
          | None => 0%Z
          end in
        let meridiem := m_groups timeMatch !! 3%nat in
        let hours :=
          if bool_decide (meridiem = Some "pm") && (hours <? 12)%Z
          then (hours + 12)%Z else hours in
        let hours :=
          if bool_decide (meridiem = Some "am") && (hours =? 12)%Z
          then 0%Z else hours in
        let dateWithTime := now w in
        let dateWithTime :=
          if includes lowered "tomorrow"
          then setDate (tz w) dateWithTime (getDate (tz w) dateWithTime + 1)
          else dateWithTime in
        Some (toISOString (setHours (tz w) dateWithTime hours minutes 0 0))
    | None =>
        match Date_parse w input with
        | Some parsed => Some (toISOString parsed)
        | None => None
        end
    end.

(** The pattern of the action block, its double quotes written as single
    quotes:
    [/\{'action':\s*'[^']+',\s*'(?:updates|url)':\s*\{[^{}]*\}\s*\}|\{'action':\s*'[^']+',\s*'url':\s*'[^']+'\s*\}/] *)
Definition action_re : regex :=
  Alt
    (seq [lit (dq "{'action':"); ws; Chr dquote; plus not_quote; lit (dq "',");
          ws; Chr dquote; Alt (lit "updates") (lit "url"); lit (dq "':"); ws;
          Chr "{"%char; star not_brace; Chr "}"%char; ws; Chr "}"%char])
    (seq [lit (dq "{'action':"); ws; Chr dquote; plus not_quote; lit (dq "',");
          ws; lit (dq "'url':"); ws; Chr dquote; plus not_quote; Chr dquote;
          ws; Chr "}"%char]).

(** The updates as the handler rewrites them before the merge: the notes
    are appended on request and a deadline is resolved. [None] when a
    TypeError is raised on the way. *)
Definition prepare_updates (w : World) (message : jsval) (taskData : json)
    (updates : jsval) : option (gmap string json) :=
  newNotes ← prop updates "notes";
  withNotes ←
    (if truthy newNotes then
       oldNotes ← prop (Some taskData) "notes";
       if truthy oldNotes then
         match message with
         | Some (JStr msg) =>
             if includes (toLowerCase w msg) "add to notes"
             then Some (<["notes" :=
                          JStr (to_string (default JNull oldNotes)
                                ++ String (ascii_of_N 10)
                                     (to_string (default JNull newNotes)))]>
                          (spread updates))
             else Some (spread updates)
         | _ => None
         end
       else Some (spread updates)
     else Some (spread updates));
  deadline ← prop updates "deadline";
  if truthy deadline then
    match deadline with
    | Some (JStr text) =>
        match parseNaturalDate w text with
        | Some parsedDate => Some (<["deadline" := JStr parsedDate]> withNotes)
        | None => Some withNotes
        end
    | _ => None
    end
  else Some withNotes.

(** The system prompt lists the other tasks: [otherTasks.map((t) => ..
    td.task ..)] throws on a row whose data is [null]. *)
Definition prompt_throws (otherTasks : Result (list Entry)) : bool :=
  match otherTasks with
  | Ok l => has_null_data l
  | Err _ => false
  end.

Definition POST (w : World) (request : Request) : M Response :=
  let taskId := param_id request in
  match auth_error w, auth_user w with
  | false, Some user =>
      r ← select_where w (fun e => eq_id taskId e && eq_user user e);
      match single r with
      | Err _ => mret (NextResponse.json_status (BError "Task not found") 404)
      | Ok task =>
          if negb (category_eqb (category task) tasks) then
            mret (NextResponse.json_status (BError "Entry is not a task") 400)
          else
            match b ← body request;
                  message ← prop (Some b) "message";
                  userLocation ← prop (Some b) "userLocation";
                  Some (message, userLocation) with
            | None => mret chat_failed
            | Some (message, userLocation) =>
                let taskData := data task in
                otherTasks ← select_where w (fun e =>
                      eq_category "tasks" e && eq_user user e
                      && negb (eq_id taskId e) && eq_archived false e);
                match latitude ← prop userLocation "latitude";
                      longitude ← prop userLocation "longitude";
                      location ← prop (Some taskData) "location";
                      Some (truthy latitude && truthy longitude
                            && truthy location) with
                | None => mret chat_failed
                | Some haveBoth =>
                    _ ← (if haveBoth && maps_key w then emit MapsCall
                         else mret tt);
                    if prompt_throws otherTasks then mret chat_failed
                    else
                    _ ← emit ModelCall;
                    match model_reply w with
                    | None => mret chat_failed
                    | Some assistantMessage =>
                        match js_match action_re assistantMessage with
                        | None =>
                            mret (NextResponse.json
                                    (BChat assistantMessage false None))
                        | Some jsonMatch =>
                            let stripped :=
                              trim (remove_first (m_text jsonMatch)
                                      assistantMessage) in
                            match JSON_parse (m_text jsonMatch) with
                            | None =>
                                mret (NextResponse.json
                                        (BChat assistantMessage false None))
                            | Some action =>
                                match a ← prop (Some action) "action";
                                      u ← prop (Some action) "updates";
                                      Some (a, u) with
                                | None =>
                                    mret (NextResponse.json
                                            (BChat assistantMessage false None))
                                | Some (a, u) =>
                                    if is_string "update" a && truthy u
                                    then
                                      match prepare_updates w message taskData u with
                                      | None =>
                                          mret (NextResponse.json
                                                  (BChat assistantMessage false
                                                     None))
                                      | Some updates =>
                                          let updatedData :=
                                            merge (spread (Some taskData))
                                              updates in
                                          r ← update_where w
                                                (fun e => eq_id taskId e
                                                          && eq_user user e)
                                                (object
                                                   [("data",
                                                     Some (JObj updatedData));
                                                    ("updated_at",
                                                     Some (JStr (toISOString
                                                                   (now w))))]);
                                          mret (NextResponse.json
                                                  (BChat stripped (is_ok r)
                                                     None))
                                      end
                                    else
                                      mret (NextResponse.json
                                              (BChat stripped false None))
                                end
                            end
                        end
                    end
                end
            end
      end
  | _, _ => mret unauthorized
  end.

End TaskChatRoute.

(** ** The action block of the project and idea chats

    Three patterns, tried in order (double quotes written as single
    quotes):
    [/\{'action':\s*'update',\s*'updates':\s*\{[^{}]*\}\}/],
    [/\{'action':\s*'[^']+',\s*'updates':\s*\{[^{}]*\}\s*\}/] and
    [/```json\s*(\{[\s\S]*?\})\s*```/]. *)

Definition jsonPatterns : list regex :=
  [ seq [lit (dq "{'action':"); ws; lit (dq "'update',"); ws;
         lit (dq "'updates':"); ws; Chr "{"%char; star not_brace;
         lit "}}"];
    seq [lit (dq "{'action':"); ws; Chr dquote; plus not_quote; lit (dq "',");
         ws; lit (dq "'updates':"); ws; Chr "{"%char; star not_brace;
         Chr "}"%char; ws; Chr "}"%char];
    seq [backticks; lit "json"; ws;
         Grp 1 (seq [Chr "{"%char; Rep false any_char; Chr "}"%char]);
         ws; backticks] ].

(** The loop over the patterns: the first one that matches, with
    [match[1] || match[0]]. *)
Fixpoint first_match (patterns : list regex) (text : string)
    : option (MatchResult * string) :=
  match patterns with
  | [] => None
  | pattern :: rest =>
      match js_match pattern text with
      | Some m =>
          Some (m, match m_groups m !! 1%nat with
                   | Some g => if String.eqb g "" then m_text m else g
                   | None => m_text m
                   end)
      | None => first_match rest text
      end
  end.

(** [/```json\s*|\s*```/g] *)
Definition fence_re : regex :=
  Alt (seq [backticks; lit "json"; ws]) (seq [ws; backticks]).

Definition cleanJson (matchedJson : string) : string :=
  trim (replace_all_re fence_re matchedJson).

(** [suggestions.steps.map((s, i) => `${i + 1}. ${s.title}`)] does not
    throw: [steps] is an array without [null]. *)
Definition steps_ok (steps : jsval) : bool :=
  match steps with
  | Some (JArr l) =>
      forallb (fun s => match s with JNull => false | _ => true end) l
  | _ => false
  end.

Definition is_array (v : jsval) : bool :=
  match v with
  | Some (JArr _) => true
  | _ => false
  end.

(** ** Route [api/projects/[id]/chat] *)

Module ProjectChatRoute.

(** The system prompt can be built: its interpolations ([projectData.goal],
    [suggestions.milestones.join(..)], [suggestions.steps.map(..)]) do not
    throw. *)
Definition prompt_ok (projectData : json) (suggestions : jsval) : bool :=
  match prop (Some projectData) "goal" with
  | None => false
  | Some _ =>
      if truthy suggestions then
        match prop suggestions "milestones", prop suggestions "steps" with
        | Some milestones, Some steps => is_array milestones && steps_ok steps
        | _, _ => false
        end
      else true
  end.

Definition allowed_status (v : jsval) : bool :=
  is_string "active" v || is_string "on-hold" v || is_string "completed" v.

(** [if (action.updates.status && ![..].includes(action.updates.status))
       delete action.updates.status] *)
Definition validate_status (updates : jsval) : jsval :=
  match updates with
  | Some (JObj m) =>
      if truthy (m !! "status") && negb (allowed_status (m !! "status"))
      then Some (JObj (delete "status" m))
      else updates
  | _ => updates
  end.

Definition POST (w : World) (request : Request) : M Response :=
  let projectId := param_id request in
  match auth_error w, auth_user w with
  | false, Some user =>
      r ← select_where w (fun e => eq_id projectId e && eq_user user e);
      match single r with
      | Err _ => mret (NextResponse.json_status (BError "Project not found") 404)
      | Ok project =>
          if negb (category_eqb (category project) projects) then
            mret (NextResponse.json_status (BError "Entry is not a project") 400)
          else
            match b ← body request;
                  message ← prop (Some b) "message";
                  suggestions ← prop (Some b) "suggestions";
                  Some (message, suggestions) with
            | None => mret chat_failed
            | Some (message, suggestions) =>
                let projectData := data project in
                if negb (prompt_ok projectData suggestions) then mret chat_failed
                else
                  _ ← emit ModelCall;
                  match model_reply w with
                  | None => mret chat_failed
                  | Some assistantMessage =>
                      match first_match jsonPatterns assistantMessage with
                      | None =>
                          mret (NextResponse.json
                                  (BChat assistantMessage false None))
                      | Some (jsonMatch, matchedJson) =>
                          let stripped :=
                            trim (remove_first (m_text jsonMatch)
                                    assistantMessage) in
                          match JSON_parse (cleanJson matchedJson) with
                          | None =>
                              mret (NextResponse.json
                                      (BChat assistantMessage false None))
                          | Some action =>
                              match a ← prop (Some action) "action";
                                    u ← prop (Some action) "updates";
                                    Some (a, u) with
                              | None =>
                                  mret (NextResponse.json
                                          (BChat assistantMessage false None))
                              | Some (a, u) =>
                                  if is_string "update" a && truthy u then
                                    let actionUpdates := validate_status u in
                                    let updatedData :=
                                      merge (spread (Some projectData))
                                        (spread actionUpdates) in
                                    r ← update_where w
                                          (fun e => eq_id projectId e
                                                    && eq_user user e)
                                          (object
                                             [("data", Some (JObj updatedData));
                                              ("updated_at",
                                               Some (JStr (toISOString (now w))))]);
                                    mret (NextResponse.json
                                            (BChat stripped (is_ok r)
                                               actionUpdates))
                                  else
                                    mret (NextResponse.json
                                            (BChat stripped false None))
                              end
                          end
                      end
                  end
            end
      end
  | _, _ => mret unauthorized
  end.

End ProjectChatRoute.

(** ** Route [api/ideas/[id]/chat] *)

Module IdeaChatRoute.

(** The system prompt can be built: [ideaData.insight] and
    [suggestions.steps.map(..)] do not throw. *)
Definition prompt_ok (ideaData : json) (suggestions : jsval) : bool :=
  match prop (Some ideaData) "insight" with
  | None => false
  | Some _ =>
      if truthy suggestions then
        match prop suggestions "steps" with
        | Some steps => steps_ok steps
        | None => false
        end
      else true
  end.

Definition POST (w : World) (request : Request) : M Response :=
  let ideaId := param_id request in
  match auth_error w, auth_user w with
  | false, Some user =>
      r ← select_where w (fun e => eq_id ideaId e && eq_user user e);
      match single r with
      | Err _ => mret (NextResponse.json_status (BError "Idea not found") 404)
      | Ok idea =>
          if negb (category_eqb (category idea) ideas) then
            mret (NextResponse.json_status (BError "Entry is not an idea") 400)
          else
            match b ← body request;
                  message ← prop (Some b) "message";
                  suggestions ← prop (Some b) "suggestions";
                  Some (message, suggestions) with
            | None => mret chat_failed
            | Some (message, suggestions) =>
                let ideaData := data idea in
                if negb (prompt_ok ideaData suggestions) then mret chat_failed
                else
                  _ ← emit ModelCall;
                  match model_reply w with
                  | None => mret chat_failed
                  | Some assistantMessage =>
                      match first_match jsonPatterns assistantMessage with
                      | None =>
                          mret (NextResponse.json
                                  (BChat assistantMessage false None))
                      | Some (jsonMatch, matchedJson) =>
                          let stripped :=
                            trim (remove_first (m_text jsonMatch)
                                    assistantMessage) in
                          match JSON_parse (cleanJson matchedJson) with
                          | None =>
                              mret (NextResponse.json
                                      (BChat assistantMessage false None))
                          | Some action =>
                              match a ← prop (Some action) "action";
                                    u ← prop (Some action) "updates";
                                    Some (a, u) with
                              | None =>
                                  mret (NextResponse.json
                                          (BChat assistantMessage false None))
                              | Some (a, u) =>
                                  if is_string "update" a && truthy u then
                                    let updatedData :=
                                      merge (spread (Some ideaData)) (spread u) in
                                    r ← update_where w
                                          (fun e => eq_id ideaId e
                                                    && eq_user user e)
                                          (object
                                             [("data", Some (JObj updatedData));
                                              ("updated_at",
                                               Some (JStr (toISOString (now w))))]);
                                    mret (NextResponse.json
                                            (BChat stripped (is_ok r) u))
                                  else
                                    mret (NextResponse.json
                                            (BChat stripped false None))
                              end
                          end
                      end
                  end
            end
      end
  | _, _ => mret unauthorized
  end.

End IdeaChatRoute.

(** ** Route [api/ideas/[id]/save] *)

Module IdeaSaveRoute.

Definition POST (w : World) (request : Request) : M Response :=
  let ideaId := param_id request in
  match auth_error w, auth_user w with
  | false, Some user =>
      r ← select_where w (fun e => eq_id ideaId e && eq_user user e);
      match single r with
      | Err _ => mret (NextResponse.json_status (BError "Idea not found") 404)
      | Ok idea =>
          if negb (category_eqb (category idea) ideas) then
            mret (NextResponse.json_status (BError "Entry is not an idea") 400)
          else
            let ideaData := data idea in
            match prop (Some ideaData) "saved" with
            | None =>
                mret (NextResponse.json_status
                        (BError "Failed to toggle save status") 500)
            | Some saved =>
                let newSavedState := negb (truthy saved) in
                r ← update_where w
                      (fun e => eq_id ideaId e && eq_user user e)
                      (object
                         [("data",
                           Some (JObj (<["saved" := JBool newSavedState]>
                                         (spread (Some ideaData)))));
                          ("updated_at", Some (JStr (toISOString (now w))))]);
                if is_ok r
                then mret (NextResponse.json
                             (BOther (JObj {["saved" := JBool newSavedState]})))
                else mret (NextResponse.json_status (BError "Failed to update") 500)
            end
      end
  | _, _ => mret unauthorized
  end.

End IdeaSaveRoute.

(** ** The endpoint surface

    The suggestion, export and distance routes are modelled up to their
    session check; what they do for a signed-in caller is the parameter
    [signed_in]. *)

Inductive Endpoint : Type :=
| ClassifyAndCreate      (* POST api/capture *)
| ListEntries            (* GET api/entries *)
| CreateOne              (* POST api/entries *)
| ReadOne                (* GET api/entries/[id] *)
| UpdateOne              (* PATCH api/entries/[id] *)
| DeleteOne              (* DELETE api/entries/[id] *)
| IdeaSuggestions        (* GET api/ideas/[id]/suggestions *)
| IdeaChat               (* POST api/ideas/[id]/chat *)
| IdeaSaveToggle         (* POST api/ideas/[id]/save *)
| IdeaPdfPost            (* POST api/ideas/[id]/pdf *)
| IdeaPdfGet             (* GET api/ideas/[id]/pdf *)
| IdeaExport             (* GET api/ideas/[id]/export *)
| ProjectSuggestions     (* GET api/projects/[id]/suggestions *)
| ProjectChat            (* POST api/projects/[id]/chat *)
| TaskChat               (* POST api/task/[id]/chat *)
| Digest                 (* GET api/summary *)
| Distance.              (* GET api/distance *)

Section Surface.
Variable signed_in : Endpoint -> string -> World -> Request -> M Response.

(** [if (!user) return 401] *)
Definition gate_user (ep : Endpoint) (w : World) (request : Request)
    : M Response :=
  match auth_user w with
  | None => mret unauthorized
  | Some user => signed_in ep user w request
  end.

(** [if (authError || !user) return 401] *)
Definition gate_user_or_error (ep : Endpoint) (w : World) (request : Request)
    : M Response :=
  match auth_error w, auth_user w with
  | false, Some user => signed_in ep user w request
  | _, _ => mret unauthorized
  end.

Definition dispatch (ep : Endpoint) (w : World) (request : Request)
    : M Response :=
  match ep with
  | ClassifyAndCreate => CaptureRoute.POST w request
  | ListEntries => EntriesRoute.GET w request
  | CreateOne => EntriesRoute.POST w request
  | ReadOne => EntryRoute.GET w request
  | UpdateOne => EntryRoute.PATCH w request
  | DeleteOne => EntryRoute.DELETE w request
  | IdeaSuggestions => gate_user IdeaSuggestions w request
  | IdeaChat => IdeaChatRoute.POST w request
  | IdeaSaveToggle => IdeaSaveRoute.POST w request
  | IdeaPdfPost => gate_user_or_error IdeaPdfPost w request
  | IdeaPdfGet => gate_user_or_error IdeaPdfGet w request
  | IdeaExport => gate_user_or_error IdeaExport w request
  | ProjectSuggestions => gate_user ProjectSuggestions w request
  | ProjectChat => ProjectChatRoute.POST w request
  | TaskChat => TaskChatRoute.POST w request
  | Digest => SummaryRoute.GET w
  | Distance => gate_user Distance w request
  end.

End Surface.

(** Running a handler on a table, with an empty trace. *)
Definition run {A} (c : M A) (rows : list Entry) : A * St :=
  c (mkSt rows []).

(** ** Sample data

    A small table and a few worlds on which the handlers are run in the
    examples below: Alice owns a task, a project and an idea, Bob owns a task. *)

(** The sample parser of free-form dates: it rejects every text. The
    chat handler consults it only on texts without a digit. *)
Definition no_date (text : string) : option Z := None.

(** The sample runtime: a text that is not ASCII has no letter with a lower
    case of its own, a string, an array or an object is not a number, and
    the database refuses a value that is not of the type of its column. *)
Definition same_case (s : string) : string := s.
Definition not_a_number (v : json) : option (option Q) := Some None.
Definition refuse {A} (v : json) : option A := None.

(** Alice is signed in; the clock reads 2024-02-29T23:59:59.999Z. *)
Definition alice_world (reply : option string) : World :=
  mkWorld (Some "alice") false true reply false 1709251199999 0 "id-9" no_date
      same_case not_a_number refuse refuse refuse.

(** Nobody is signed in. *)
Definition anonymous_world : World :=
  mkWorld None false true (Some "[]") false 1709251199999 0 "id-9" no_date
      same_case not_a_number refuse refuse refuse.

Definition alice_task : Entry :=
  mkEntry "id-1" tasks
    (JObj (<["task" := JStr "buy milk"]>
             (<["priority" := JStr "low"]> {["deadline" := JStr "none"]})))
    (Some (7 # 8)) (Some false) (Some false) (Some [])
    "2024-01-01T00:00:00.000Z" "2024-01-01T00:00:00.000Z" "alice".

Definition bob_task : Entry :=
  mkEntry "id-2" tasks
    (JObj (<["task" := JStr "call Alice"]>
             (<["priority" := JStr "high"]> {["deadline" := JStr "none"]})))
    (Some (7 # 8)) (Some false) (Some false) (Some [])
    "2024-01-02T00:00:00.000Z" "2024-01-02T00:00:00.000Z" "bob".

Definition alice_project : Entry :=
  mkEntry "id-3" projects
    (JObj (<["goal" := JStr "launch"]>
             (<["status" := JStr "active"]> {["nextAction" := JStr "plan"]})))
    (Some (7 # 8)) (Some false) (Some false) (Some [])
    "2024-01-03T00:00:00.000Z" "2024-01-03T00:00:00.000Z" "alice".

Definition alice_idea : Entry :=
  mkEntry "id-4" ideas
    (JObj (<["insight" := JStr "sleep more"]>
             (<["category" := JStr "health"]> {["date" := JStr "2024-01-04"]})))
    (Some (7 # 8)) (Some false) (Some false) (Some [])
    "2024-01-04T00:00:00.000Z" "2024-01-04T00:00:00.000Z" "alice".

Definition sample_table : list Entry :=
  [alice_task; bob_task; alice_project; alice_idea].

(** A chat request: [{ message, userLocation: { latitude: null, longitude: null } }] *)
Definition chat_request (i message : string) : Request :=
  mkRequest i []
    (Some (JObj (<["message" := JStr message]>
                   {["userLocation" :=
                       JObj (<["latitude" := JNull]>
                               {["longitude" := JNull]})]}))).

(** ** Vocabulary of the statements *)

(** No row with the id [i] belongs to [user]: the id is unknown, or it is
    the id of an entry of somebody else. *)
Definition no_own_row (user i : string) (rows : list Entry) : Prop :=
  ∀ e, e ∈ rows → id e = i → user_id e ≠ user.

(** The value an object literal gives to the key [k]. *)
Fixpoint field (k : string) (fields : list (string * jsval)) : jsval :=
  match fields with
  | [] => None
  | (k', v) :: t =>
      if String.eqb k' k
      then match v with
           | Some x => Some x
           | None => field k t
           end
      else field k t
  end.

Ltac no_row := left; split; [try reflexivity | intros ? ?; discriminate].

(** The large functions stay folded under [simpl]. *)
Arguments JSON_parse : simpl never.
Arguments strip_fences : simpl never.
Arguments js_match : simpl never.
Arguments first_match : simpl never.
Arguments cleanJson : simpl never.
Arguments toISOString : simpl never.
Arguments trim : simpl never.
Arguments remove_first : simpl never.
Arguments select_where : simpl never.
Arguments insert_row : simpl never.
Arguments update_where : simpl never.
Arguments delete_where : simpl never.
Arguments spread : simpl never.
Arguments merge : simpl never.
Arguments setDate : simpl never.
Arguments setHours : simpl never.
Arguments getDate : simpl never.

(** Running the monadic steps of a handler inside the hypothesis [H], and
    closing a branch whose response is not the one [Hp] expects. *)
Ltac run_in H := unfold mbind, M_bind, mret, M_ret, emit in H; cbn in H.
Ltac fails_with H Hp := injection H as <- <-; discriminate Hp.

(** A branch of a chat handler that leaves the table as it was and, when
    it answers with status 200, answers with the reply as it came. *)
Ltac unchanged H :=
  injection H as <- <-;
  split; [reflexivity | cbn; intros Hs; first [discriminate Hs | reflexivity]].

(** Case analysis on what the handler in [H] looks at next. *)
Ltac head_case H :=
  match type of H with
  | (match ?x with _ => _ end) _ = _ => destruct x eqn:?
  | (if ?x then _ else _) _ = _ => destruct x eqn:?
  | (match ?x with _ => _ end) = _ => destruct x eqn:?
  | (if ?x then _ else _) = _ => destruct x eqn:?
  end; run_in H.

(** The optional call of the maps service changes the trace only. *)
Ltac maps_step :=
  match goal with
  | Hm : (if ?c then _ else _) _ = (_, _) |- _ => destruct c; injection Hm as <- <-
  end.

(** The row [e] after an update of its [data] and [updated_at] columns. *)
Definition with_data (d : json) (stamp : string) (e : Entry) : Entry :=
  mkEntry (id e) (category e) d (confidence e) (needs_review e) (archived e)
    (linked_entries e) (created_at e) stamp (user_id e).

(** The table after the rows of [user] with the id [i] went through [f]. *)
Definition persist (i user : string) (f : Entry → Entry) (rows : list Entry)
    : list Entry :=
  (λ e, if eq_id i e && eq_user user e then f e else e) <$> rows.



(** No character of [s] is in the class [p]. *)
Fixpoint free_of (p : ascii → bool) (s : string) : bool :=
  match s with
  | EmptyString => true
  | String c t => negb (p c) && free_of p t
  end.

Definition is_open_brace (c : ascii) : bool := Ascii.eqb c "{"%char.




(** ** Route [api/distance] *)

(** [v?.[0]] *)
Definition first_of (v : jsval) : jsval :=
  match v with
  | Some (JArr l) => head l
  | Some (JObj m) => m !! "0"
  | Some (JStr (String c _)) => Some (JStr (String c EmptyString))
  | _ => None
  end.

(** [v?.k] *)
Definition opt_prop (v : jsval) (k : string) : jsval :=
  match v with
  | None => None
  | Some JNull => None
  | Some _ => default None (prop v k)
  end.

(** A search parameter that is present and not empty. *)
Definition given (v : option string) : bool :=
  match v with
  | Some s => negb (String.eqb s "")
  | None => false
  end.

Module DistanceRoute.

Definition failed : Response :=
  NextResponse.json_status (BError "Failed to calculate distance") 500.

Definition no_distance : Response :=
  NextResponse.json_status (BError "Could not calculate distance") 400.

(** [{ error: data.status }] *)
Definition error_body (status : jsval) : Body :=
  match status with
  | Some (JStr s) => BError s
  | _ => BOther (JObj (object [("error", status)]))
  end.

(** [fetched] is what [(await fetch(url)).json()] gives; [None]: it throws. *)
Definition GET (w : World) (fetched : option json) (request : Request)
    : M Response :=
  match auth_user w with
  | None => mret unauthorized
  | Some _ =>
      let origin := searchParams_get (query request) "origin" in
      let destination := searchParams_get (query request) "destination" in
      if negb (given origin) || negb (given destination) then
        mret (NextResponse.json_status (BError "Missing origin or destination") 400)
      else if negb (maps_key w) then
        mret (NextResponse.json_status (BError "API key not configured") 500)
      else
        _ ← emit MapsCall;
        match data ← fetched;
              status ← prop (Some data) "status";
              rows ← prop (Some data) "rows";
              Some (status, rows) with
        | None => mret failed
        | Some (status, rows) =>
            if negb (is_string "OK" status) then
              mret (NextResponse.json_status (error_body status) 400)
            else
              let element := first_of (opt_prop (first_of rows) "elements") in
              if negb (truthy element) then mret no_distance
              else
                match prop element "status",
                      prop element "duration_in_traffic",
                      prop element "duration",
                      prop element "distance" with
                | Some elementStatus, Some inTraffic, Some duration, Some distance =>
                    if negb (is_string "OK" elementStatus) then mret no_distance
                    else
                      let trafficText := opt_prop inTraffic "text" in
                      mret (NextResponse.json
                              (BOther
                                 (JObj
                                    (object
                                       [("duration",
                                         if truthy trafficText then trafficText
                                         else opt_prop duration "text");
                                        ("distance",
                                         opt_prop distance "text")]))))
                | _, _, _, _ => mret failed
                end
        end
  end.

End DistanceRoute.

(** ** The suggestion routes *)

(** A column that may be [NULL], as the store sends it. *)
Definition nullable {A} (f : A → json) (v : option A) : json :=
  match v with
  | Some a => f a
  | None => JNull
  end.

(** A row as the store sends it. *)
Definition entry_json (e : Entry) : json :=
  JObj (list_to_map
          [("id", JStr (id e));
           ("category", JStr (category_name (category e)));
           ("data", data e);
           ("confidence", nullable JNum (confidence e));
           ("needs_review", nullable JBool (needs_review e));
           ("archived", nullable JBool (archived e));
           ("linked_entries",
            nullable (λ l, JArr (JStr <$> l)) (linked_entries e));
           ("created_at", JStr (created_at e));
           ("updated_at", JStr (updated_at e));
           ("user_id", JStr (user_id e))]).

(** An exception that no handler catches: the framework answers 500
    without a body. *)
Definition uncaught : Response := mkResponse 500 (BOther JNull).

(** Route [api/ideas/[id]/suggestions] *)
Module IdeaSuggestionsRoute.

Definition GET (w : World) (request : Request) : M Response :=
  match auth_user w with
  | None => mret unauthorized
  | Some user =>
      let i := param_id request in
      r ← select_where w (fun e =>
             eq_id i e && eq_user user e && eq_category "ideas" e);
      match single r with
      | Err _ => mret (NextResponse.json_status (BError "Idea not found") 404)
      | Ok entry =>
          let ideaData := data entry in
          match prop (Some ideaData) "insight" with
          | None =>
              mret (NextResponse.json_status
                      (BError "Failed to generate suggestions") 500)
          | Some _ =>
              _ ← emit ModelCall;
              match model_reply w with
              | None =>
                  mret (NextResponse.json_status
                          (BError "Failed to generate suggestions") 500)
              | Some responseText =>
                  match JSON_parse responseText with
                  | None =>
                      mret (NextResponse.json_status
                              (BError "Failed to parse AI response") 500)
                  | Some suggestions =>
                      mret (NextResponse.json
                              (BOther
                                 (JObj
                                    (object
                                       [("idea", Some (entry_json entry));
                                        ("suggestions", Some suggestions)]))))
                  end
              end
          end
      end
  end.

End IdeaSuggestionsRoute.

(** Route [api/projects/[id]/suggestions] *)
Module ProjectSuggestionsRoute.

Definition GET (w : World) (request : Request) : M Response :=
  match auth_user w with
  | None => mret unauthorized
  | Some user =>
      let i := param_id request in
      let regenerate :=
        match searchParams_get (query request) "regenerate" with
        | Some v => String.eqb v "true"
        | None => false
        end in
      r ← select_where w (fun e =>
             eq_id i e && eq_user user e && eq_category "projects" e);
      match single r with
      | Err _ => mret (NextResponse.json_status (BError "Project not found") 404)
      | Ok entry =>
          let projectData := data entry in
          match prop (Some projectData) "suggestions" with
          | None => mret uncaught
          | Some cached =>
              if truthy cached && negb regenerate then
                mret (NextResponse.json
                        (BOther
                           (JObj
                              (object
                                 [("project", Some (entry_json entry));
                                  ("suggestions", cached)]))))
              else
                _ ← emit ModelCall;
                match model_reply w with
                | None =>
                    mret (NextResponse.json_status
                            (BError "Failed to generate suggestions") 500)
                | Some rawText =>
                    let responseText := strip_fences rawText in
                    match JSON_parse responseText with
                    | None =>
                        mret (NextResponse.json_status
                                (BError "Failed to parse AI response") 500)
                    | Some suggestions =>
                        _ ← update_where w
                              (fun e => eq_id i e && eq_user user e)
                              (object
                                 [("data",
                                   Some (JObj (<["suggestions" := suggestions]>
                                                 (spread (Some projectData)))));
                                  ("updated_at",
                                   Some (JStr (toISOString (now w))))]);
                        mret (NextResponse.json
                                (BOther
                                   (JObj
                                      (object
                                         [("project", Some (entry_json entry));
                                          ("suggestions", Some suggestions)]))))
                    end
                end
          end
      end
  end.

End ProjectSuggestionsRoute.
(** ** The pages that call the routes

    A handler of a page sends one request and then updates the list of
    entries the page holds; it is a computation that gives the new list.
    The request is answered in the world [w]. *)

(** [res.ok] *)
Definition ok (res : Response) : bool :=
  (200 <=? status res)%nat && (status res <=? 299)%nat.

(** [fetch(`/api/entries/${id}`, { method: 'PATCH', body: JSON.stringify(b) })] *)
Definition fetch_PATCH (w : World) (i : string) (b : gmap string json)
    : M Response :=
  EntryRoute.PATCH w (mkRequest i [] (Some (JObj b))).

(** [fetch(`/api/entries/${id}`, { method: 'DELETE' })] *)
Definition fetch_DELETE (w : World) (i : string) : M Response :=
  EntryRoute.DELETE w (mkRequest i [] None).

(** [prev.map((e) => (e.id === id ? updated : e))]; a successful answer of
    update-one always carries a row. *)
Definition replace_entry (i : string) (res : Response) (prev : list Entry)
    : list Entry :=
  match payload res with
  | BRow updated => (fun e => if String.eqb (id e) i then updated else e) <$> prev
  | _ => prev
  end.

(** [prev.filter((e) => e.id !== id)] *)
Definition remove_entry (i : string) (prev : list Entry) : list Entry :=
  filter (fun e => id e ≠ i) prev.

(** The dashboard (src/app/page.tsx and its earlier revision). *)
Module Dashboard.

Definition fetchEntries (w : World) (entries : list Entry) : M (list Entry) :=
  res ← EntriesRoute.GET w (mkRequest "" [] None);
  mret (if ok res
        then match payload res with BRows data => data | _ => entries end
        else entries).

Definition handleUpdate (w : World) (i : string) (d : json)
    (entries : list Entry) : M (list Entry) :=
  res ← fetch_PATCH w i {["data" := d]};
  mret (if ok res then replace_entry i res entries else entries).

Definition handleDelete (w : World) (i : string) (entries : list Entry)
    : M (list Entry) :=
  res ← fetch_DELETE w i;
  mret (if ok res then remove_entry i entries else entries).

(** Earlier revision. *)
Definition handleArchive (w : World) (i : string) (entries : list Entry)
    : M (list Entry) :=
  res ← fetch_PATCH w i {["archived" := JBool true]};
  mret (if ok res then remove_entry i entries else entries).

Definition handleCompleteTask (w : World) (i : string) (entries : list Entry)
    : M (list Entry) :=
  match List.find (fun e => String.eqb (id e) i) entries with
  | None => mret entries
  | Some entry =>
      let updatedData :=
        <["status" := JStr "completed"]> (spread (Some (data entry))) in
      res ← fetch_PATCH w i {["data" := JObj updatedData]};
      mret (if ok res then replace_entry i res entries else entries)
  end.

Definition handleAssignCategory (w : World) (entryId : string)
    (category : Category) (entries : list Entry) : M (list Entry) :=
  res ← fetch_PATCH w entryId
          (<["category" := JStr (category_name category)]>
             {["needs_review" := JBool false]});
  mret (if ok res then replace_entry entryId res entries else entries).

Definition handleDismissReview (w : World) (entryId : string)
    (entries : list Entry) : M (list Entry) :=
  handleDelete w entryId entries.

(** [entries.filter((e) => e.needs_review)]: [null] is falsy. *)
Definition reviewEntries (entries : list Entry) : list Entry :=
  filter (fun e => needs_review e = Some true) entries.

Definition getEntriesByCategory (c : Category) (entries : list Entry)
    : list Entry :=
  filter (fun e => category_eqb (category e) c
                   && negb (bool_decide (needs_review e = Some true)) = true)
    entries.

End Dashboard.

(** The archive panel. *)
Module Archive.

Definition fetchArchived (w : World) (entries : list Entry) : M (list Entry) :=
  res ← EntriesRoute.GET w (mkRequest "" [("archived", "only")] None);
  mret (if ok res
        then match payload res with BRows data => data | _ => entries end
        else entries).

Definition handleUnarchive (w : World) (i : string) (entries : list Entry)
    : M (list Entry) :=
  res ← fetch_PATCH w i {["archived" := JBool false]};
  mret (if ok res then remove_entry i entries else entries).

Definition handleDelete (w : World) (i : string) (entries : list Entry)
    : M (list Entry) :=
  res ← fetch_DELETE w i;
  mret (if ok res then remove_entry i entries else entries).

End Archive.

(** The cards of the dashboard (src/components/LiveCard.tsx). *)
Module LiveCard.

(** The field of the data that a column of the card of [category] shows. *)
Definition column_field (category : Category) (colIndex : nat) : option string :=
  match category, colIndex with
  | people, 0%nat => Some "name"
  | people, 1%nat => Some "context"
  | people, 2%nat => Some "lastContact"
  | projects, 0%nat => Some "goal"
  | projects, 1%nat => Some "status"
  | projects, 2%nat => Some "nextAction"
  | ideas, 0%nat => Some "insight"
  | ideas, 1%nat => Some "category"
  | ideas, 2%nat => Some "date"
  | tasks, 0%nat => Some "task"
  | tasks, 1%nat => Some "deadline"
  | tasks, 2%nat => Some "priority"
  | _, _ => None
  end.

(** [[d.a, d.b, d.c][colIndex] || '']; [None] when reading the fields
    throws. *)
Definition getCellValue (category : Category) (entry : Entry) (colIndex : nat)
    : option json :=
  a ← prop (Some (data entry)) (default "" (column_field category 0));
  b ← prop (Some (data entry)) (default "" (column_field category 1));
  c ← prop (Some (data entry)) (default "" (column_field category 2));
  let v := default None ([a; b; c] !! colIndex) in
  Some (if truthy v then default JNull v else JStr "").

Definition updateCellValue (category : Category) (entry : Entry) (colIndex : nat)
    (value : string) : gmap string json :=
  let data := spread (Some (data entry)) in
  match column_field category colIndex with
  | Some field => <[field := JStr value]> data
  | None => data
  end.


End LiveCard.
(** The rows of the table that belong to other users than [user]. *)
Definition others (user : string) (rows : list Entry) : list Entry :=
  filter (λ e, user_id e ≠ user) rows.

(** What a request of [user] may do to the table: the rows of the other
    users stay as they are, and a unique primary key stays unique. *)
Definition confined (user : string) (before after : list Entry) : Prop :=
  others user after = others user before
  ∧ (NoDup (id <$> before) → NoDup (id <$> after)).

(** No row is removed: the ids of the table before are, in their order,
    the first ids of the table after. *)
Definition retained (before after : list Entry) : Prop :=
  (id <$> before) `prefix_of` (id <$> after).

(** The handler [c] takes every table to one that is related to it by [R]. *)
Definition keeps {A} (R : list Entry → list Entry → Prop) (c : M A) : Prop :=
  ∀ st, R (table st) (table (snd (c st))).

(** Newest first: no row was created before the row that follows it
    (time stamps are compared as the strings they are stored as). *)
Fixpoint newest_first (l : list Entry) : Prop :=
  match l with
  | a :: t =>
      match t with
      | b :: _ => String.leb (created_at b) (created_at a) = true
      | [] => True
      end ∧ newest_first t
  | [] => True
  end.

Definition is_backtick (c : ascii) : bool := Ascii.eqb c "`"%char.


(** Every match of [r] holds a character of the class [p]. *)
Fixpoint needs (p : ascii → bool) (r : regex) : bool :=
  match r with
  | Chr a => p a
  | Cls q => forallb (λ n, implb (q (ascii_of_nat n)) (p (ascii_of_nat n)))
               (List.seq 0 256)
  | Cat r1 r2 => needs p r1 || needs p r2
  | Alt r1 r2 => needs p r1 && needs p r2
  | Grp _ r1 => needs p r1
  | _ => false
  end.

(** The row [e] after an update of its [archived] flag. *)
Definition with_archived (a : bool) (stamp : string) (e : Entry) : Entry :=
  mkEntry (id e) (category e) (data e) (confidence e) (needs_review e) (Some a)
    (linked_entries e) (created_at e) stamp (user_id e).

(** The row [e] after it was given the category [c] and taken out of
    review. *)
Definition with_category (c : Category) (stamp : string) (e : Entry) : Entry :=
  mkEntry (id e) c (data e) (confidence e) (Some false) (archived e)
    (linked_entries e) (created_at e) stamp (user_id e).

(** The endpoints with the suggestion and distance routes in place: what is
    left to the parameter [rest] is what the export and the two PDF routes
    do for a signed-in caller. *)
Definition api (rest : Endpoint → string → World → Request → M Response)
    (fetched : option json) (ep : Endpoint) (w : World) (request : Request)
    : M Response :=
  match ep with
  | IdeaSuggestions => IdeaSuggestionsRoute.GET w request
  | ProjectSuggestions => ProjectSuggestionsRoute.GET w request
  | Distance => DistanceRoute.GET w fetched request
  | _ => dispatch rest ep w request
  end.

(** The page of a project (src/app/projects/[id]/page.tsx) with its chat
    (src/components/ProjectChat.tsx): what they do to the project the page
    holds. *)
Module ProjectPage.

(** [if (updatedFields && project)
       setProject({ ...project, data: { ...project.data, ...updatedFields } })] *)
Definition handleProjectUpdate (updatedFields : jsval) (project : option Entry)
    : option Entry :=
  match project with
  | Some p =>
      if truthy updatedFields
      then Some (mkEntry (id p) (category p)
                   (JObj (merge (spread (Some (data p))) (spread updatedFields)))
                   (confidence p) (needs_review p) (archived p) (linked_entries p)
                   (created_at p) (updated_at p) (user_id p))
      else project
  | None => None
  end.

(** [sendMessage] of the chat, for what it does to the project of the
    page: [text] is the text it is called with or else the input field
    ([text || input]), and no other message is on its way ([isLoading] is
    false). The body is [{ message: content, suggestions }]; an answer that
    is not [ok] throws and leaves the project as it is. *)
Definition sendMessage (w : World) (projectId text : string) (suggestions : jsval)
    (project : option Entry) : M (option Entry) :=
  let content := trim text in
  if String.eqb content "" then mret project
  else
    res ← ProjectChatRoute.POST w
            (mkRequest projectId []
               (Some (JObj (object [("message", Some (JStr content));
                                    ("suggestions", suggestions)]))));
    mret (if ok res
          then match payload res with
               | BChat _ projectUpdated updatedFields =>
                   if projectUpdated
                   then handleProjectUpdate updatedFields project
                   else project
               | _ => project
               end
          else project).

End ProjectPage.

(** ** Lines of the PDF (src/app/api/ideas/[id]/pdf/route.ts) *)

(** [text.split(' ')] *)
Fixpoint split_spaces (text : string) : list string :=
  match text with
  | EmptyString => [EmptyString]
  | String c t =>
      if Ascii.eqb c " "%char then EmptyString :: split_spaces t
      else match split_spaces t with
           | w :: ws => String c w :: ws
           | [] => [String c EmptyString]
           end
  end.

Section WrapText.
(** [font.widthOfTextAtSize(line, fontSize)], for the font and the size
    of the call. *)
Variable widthOfText : string -> Q.
Variable maxWidth : Q.

(** One turn of the loop over the words, on the lines pushed so far and
    the current line. *)
Definition wrap_word (st : list string * string) (word : string)
    : list string * string :=
  let '(lines, currentLine) := st in
  let testLine :=
    if negb (String.eqb currentLine "") then currentLine ++ " " ++ word
    else word in
  if negb (Qle_bool (widthOfText testLine) maxWidth)
     && negb (String.eqb currentLine "")
  then ((lines ++ [currentLine])%list, word)
  else (lines, testLine).

Definition wrapText (text : string) : list string :=
  let '(lines, currentLine) :=
    fold_left wrap_word (split_spaces text) ([], EmptyString) in
  if negb (String.eqb currentLine "") then (lines ++ [currentLine])%list
  else lines.

End WrapText.

(** The words of a text: what is between its spaces, without the empty
    pieces. *)
Definition words (text : string) : list string :=
  filter (fun w => w ≠ EmptyString) (split_spaces text).

(** A text without a space. *)
Fixpoint spaceless (s : string) : bool :=
  match s with
  | EmptyString => true
  | String c t => negb (Ascii.eqb c " "%char) && spaceless t
  end.

(** * Properties *)

(** ** The store *)

Lemma insert_desc_elem (e x : Entry) (l : list Entry) :
  x ∈ insert_desc e l ↔ x = e ∨ x ∈ l.
Proof.
  induction l as [|y l IH]; simpl.
  - rewrite list_elem_of_singleton, elem_of_nil. tauto.
  - destruct (String.leb (created_at y) (created_at e)).
    + rewrite !elem_of_cons. tauto.
    + rewrite !elem_of_cons, IH. tauto.
Qed.

Lemma order_desc_elem (x : Entry) (l : list Entry) :
  x ∈ order_desc l ↔ x ∈ l.
Proof.
  induction l as [|y l IH]; simpl; [done|].
  rewrite insert_desc_elem, elem_of_cons, IH. tauto.
Qed.

Lemma eq_user_true (u : string) (e : Entry) : eq_user u e = true ↔ user_id e = u.
Proof. apply String.eqb_eq. Qed.

Lemma eq_id_true (i : string) (e : Entry) : eq_id i e = true ↔ id e = i.
Proof. apply String.eqb_eq. Qed.

Lemma eq_flag_true (b : bool) (flag : option bool) :
  eq_flag b flag = true ↔ flag = Some b.
Proof. destruct flag as [[]|], b; simpl; split; congruence. Qed.

Lemma eq_archived_true (b : bool) (e : Entry) :
  eq_archived b e = true ↔ archived e = Some b.
Proof. apply eq_flag_true. Qed.

Lemma filter_no_own_row (user i : string) (rows : list Entry) :
  no_own_row user i rows →
  filter (λ e, (eq_id i e && eq_user user e) = true) rows = [].
Proof.
  intros H. induction rows as [|e rows IH]; [done|].
  rewrite filter_cons. case_decide as Hsel.
  - apply andb_true_iff in Hsel as [Hi Hu].
    apply eq_id_true in Hi. apply eq_user_true in Hu.
    exfalso. apply (H e); [left | done | done].
  - apply IH. intros x Hx. apply H. by right.
Qed.

Lemma filter_keeps_all {A} (P : A → Prop) `{!∀ x, Decision (P x)} (l : list A) :
  (∀ x, x ∈ l → P x) → filter P l = l.
Proof.
  induction l as [|x l IH]; intros Hall; [done|].
  rewrite filter_cons_True by (apply Hall; left).
  f_equal. apply IH. intros y Hy. apply Hall. by right.
Qed.

Lemma patch_rows_no_own_row (w : World) (user i : string)
    (p : gmap string json) (rows : list Entry) :
  no_own_row user i rows →
  patch_rows w (λ e, eq_id i e && eq_user user e) p rows = Some (rows, []).
Proof.
  intros H. induction rows as [|e rows IH]; [done|].
  simpl. rewrite IH by (intros x Hx; apply H; by right). simpl.
  destruct (eq_id i e && eq_user user e) eqn:Hsel; [|done].
  apply andb_true_iff in Hsel as [Hi Hu].
  apply eq_id_true in Hi. apply eq_user_true in Hu.
  exfalso. apply (H e); [left | done | done].
Qed.

(** With a unique primary key, the caller's row with a given id is the
    only one the two filters select. *)
Lemma filter_own_row (user i : string) (rows : list Entry) (row : Entry) :
  NoDup (id <$> rows) → row ∈ rows → id row = i → user_id row = user →
  filter (λ e, (eq_id i e && eq_user user e) = true) rows = [row].
Proof.
  intros Hnd Hin Hi Hu. induction rows as [|e rows IH]; [by apply elem_of_nil in Hin|].
  rewrite fmap_cons in Hnd. apply NoDup_cons in Hnd as [Hfresh Hnd].
  apply elem_of_cons in Hin as [Heq|Hin].
  - subst e. rewrite filter_cons_True.
    2:{ apply andb_true_iff. split; [by apply eq_id_true | by apply eq_user_true]. }
    f_equal. apply filter_no_own_row. intros x Hx Hxi. exfalso.
    apply Hfresh. replace (id row) with (id x) by congruence.
    by apply list_elem_of_fmap_2.
  - rewrite filter_cons_False; [by apply IH|].
    intros Hsel. apply andb_true_iff in Hsel as [Hei _]. apply eq_id_true in Hei.
    apply Hfresh. replace (id e) with (id row) by congruence.
    by apply list_elem_of_fmap_2.
Qed.

(** ** The sample table *)

Lemma sample_table_keys : NoDup (id <$> sample_table).
Proof. apply (bool_decide_unpack (NoDup (id <$> sample_table))). reflexivity. Defined.


(** ** Entries of other users (C1) *)

Lemma filter_unselected (user i : string) (rows : list Entry) :
  no_own_row user i rows →
  filter (λ e, (eq_id i e && eq_user user e) = false) rows = rows.
Proof.
  intros H. apply filter_keeps_all. intros e He.
  destruct (eq_id i e && eq_user user e) eqn:Hsel; [|done].
  apply andb_true_iff in Hsel as [Hi Hu].
  apply eq_id_true in Hi. apply eq_user_true in Hu.
  exfalso. by apply (H e).
Qed.

Lemma GET_without_own_row (w : World) (user k : string)
    (q : list (string * string)) (b : option json) (rows : list Entry) :
  auth_user w = Some user → no_own_row user k rows →
  run (EntryRoute.GET w (mkRequest k q b)) rows =
    (if store_up w
     then NextResponse.json_status (BError "Entry not found") 404
     else NextResponse.json_status (BError "Failed to fetch entry") 500,
     mkSt rows [StoreQuery]).
Proof.
  intros Hauth Hno. unfold run, EntryRoute.GET. rewrite Hauth.
  unfold mbind, M_bind, select_where, mret, M_ret. simpl.
  rewrite (filter_no_own_row _ _ _ Hno). by destruct (store_up w).
Qed.

Lemma PATCH_without_own_row (w : World) (user k k' : string)
    (q : list (string * string)) (b : option json) (rows : list Entry) :
  auth_user w = Some user → no_own_row user k rows → no_own_row user k' rows →
  run (EntryRoute.PATCH w (mkRequest k q b)) rows
  = run (EntryRoute.PATCH w (mkRequest k' q b)) rows
  ∧ table (snd (run (EntryRoute.PATCH w (mkRequest k q b)) rows)) = rows.
Proof.
  intros Hauth Hno Hno'. unfold run, EntryRoute.PATCH. rewrite Hauth. simpl.
  match goal with |- context [match ?x with Some _ => _ | None => _ end] =>
    destruct x as [p|] end; [|done].
  unfold mbind, M_bind, update_where, mret, M_ret. simpl.
  rewrite (patch_rows_no_own_row _ _ _ p _ Hno),
    (patch_rows_no_own_row _ _ _ p _ Hno').
  by destruct (store_up w).
Qed.

Lemma DELETE_without_own_row (w : World) (user k : string)
    (q : list (string * string)) (b : option json) (rows : list Entry) :
  auth_user w = Some user → no_own_row user k rows →
  run (EntryRoute.DELETE w (mkRequest k q b)) rows =
    (if store_up w
     then NextResponse.json BSuccess
     else NextResponse.json_status (BError "Failed to delete entry") 500,
     mkSt rows [StoreQuery]).
Proof.
  intros Hauth Hno. unfold run, EntryRoute.DELETE. rewrite Hauth.
  unfold mbind, M_bind, delete_where, mret, M_ret. simpl.
  rewrite (filter_unselected _ _ _ Hno). by destruct (store_up w).
Qed.

(** C1, as amended. For an entry id owned by a different user, read-one,
    partial update and delete each answer exactly as they do for an id
    that does not exist, and no entry is modified or deleted. For read-one
    that answer is the not-found response (404); for delete it is the
    success response. *)
Theorem foreign_id_behaves_as_missing (w : World) (user i j : string)
    (q : list (string * string)) (b : option json) (rows : list Entry) :
  auth_user w = Some user →
  (∃ e, e ∈ rows ∧ id e = i) → no_own_row user i rows →
  (∀ e, e ∈ rows → id e ≠ j) →
  let foreign := mkRequest i q b in
  let missing := mkRequest j q b in
  run (EntryRoute.GET w foreign) rows = run (EntryRoute.GET w missing) rows
  ∧ run (EntryRoute.PATCH w foreign) rows = run (EntryRoute.PATCH w missing) rows
  ∧ run (EntryRoute.DELETE w foreign) rows = run (EntryRoute.DELETE w missing) rows
  ∧ table (snd (run (EntryRoute.GET w foreign) rows)) = rows
  ∧ table (snd (run (EntryRoute.PATCH w foreign) rows)) = rows
  ∧ table (snd (run (EntryRoute.DELETE w foreign) rows)) = rows
  ∧ (store_up w = true →
     fst (run (EntryRoute.GET w foreign) rows)
       = NextResponse.json_status (BError "Entry not found") 404
     ∧ fst (run (EntryRoute.DELETE w foreign) rows) = NextResponse.json BSuccess).
Proof.
  intros Hauth _ Hi Hj foreign missing.
  assert (Hj' : no_own_row user j rows).
  { intros e He Hid. by destruct (Hj e He). }
  unfold foreign, missing.
  rewrite !(GET_without_own_row w user i q b rows Hauth Hi).
  rewrite !(GET_without_own_row w user j q b rows Hauth Hj').
  rewrite !(DELETE_without_own_row w user i q b rows Hauth Hi).
  rewrite !(DELETE_without_own_row w user j q b rows Hauth Hj').
  destruct (PATCH_without_own_row w user i j q b rows Hauth Hi Hj') as [Hp Ht].
  split_and!; try done.
  intros Hup. by rewrite Hup.
Qed.

(** Alice asks for Bob's task and for an id that does not exist. *)
Lemma foreign_id_behaves_as_missing_witness :
  let w := alice_world None in
  let foreign := mkRequest "id-2" [] (Some (JObj {["archived" := JBool true]})) in
  let missing := mkRequest "id-7" [] (Some (JObj {["archived" := JBool true]})) in
  run (EntryRoute.GET w foreign) sample_table = run (EntryRoute.GET w missing) sample_table
  ∧ run (EntryRoute.PATCH w foreign) sample_table
    = run (EntryRoute.PATCH w missing) sample_table
  ∧ run (EntryRoute.DELETE w foreign) sample_table
    = run (EntryRoute.DELETE w missing) sample_table
  ∧ table (snd (run (EntryRoute.GET w foreign) sample_table)) = sample_table
  ∧ table (snd (run (EntryRoute.PATCH w foreign) sample_table)) = sample_table
  ∧ table (snd (run (EntryRoute.DELETE w foreign) sample_table)) = sample_table
  ∧ (store_up w = true →
     fst (run (EntryRoute.GET w foreign) sample_table)
       = NextResponse.json_status (BError "Entry not found") 404
     ∧ fst (run (EntryRoute.DELETE w foreign) sample_table)
       = NextResponse.json BSuccess).
Proof.
  apply (foreign_id_behaves_as_missing (alice_world None) "alice" "id-2" "id-7").
  - reflexivity.
  - exists bob_task. split; [|reflexivity]. right. left.
  - intros e He Hid Hu. unfold sample_table in He.
    repeat (apply elem_of_cons in He as [->|He]); try discriminate.
    by apply elem_of_nil in He.
  - intros e He Hid. unfold sample_table in He.
    repeat (apply elem_of_cons in He as [->|He]); try discriminate.
    by apply elem_of_nil in He.
Defined.

(** C1, as stated, fails: for Bob's task, Alice's partial update is
    answered with status 500 and her delete with the success response;
    neither is a not-found outcome. *)
Lemma foreign_update_and_delete_not_404 :
  let w := alice_world None in
  let foreign := mkRequest "id-2" [] (Some (JObj {["archived" := JBool true]})) in
  user_id bob_task = "bob" ∧ id bob_task = "id-2" ∧ bob_task ∈ sample_table
  ∧ fst (run (EntryRoute.PATCH w foreign) sample_table)
    = NextResponse.json_status (BError "Failed to update entry") 500
  ∧ fst (run (EntryRoute.DELETE w foreign) sample_table)
    = NextResponse.json BSuccess
  ∧ status (fst (run (EntryRoute.PATCH w foreign) sample_table)) ≠ 404%nat
  ∧ status (fst (run (EntryRoute.DELETE w foreign) sample_table)) ≠ 404%nat.
Proof.
  repeat split; try (vm_compute; congruence).
  right. left.
Qed.

(** ** Listings (C3) *)

Lemma GET_listing (w : World) (user : string) (i : string)
    (q : list (string * string)) (b : option json) (rows : list Entry)
    (flag : bool) :
  auth_user w = Some user → store_up w = true →
  searchParams_get q "category" = None →
  searchParams_get q "needs_review" = None →
  searchParams_get q "archived" = (if flag then Some "only" else None) →
  fst (run (EntriesRoute.GET w (mkRequest i q b)) rows)
  = NextResponse.json
      (BRows (order_desc
                (filter (λ e, (eq_user user e && true && eq_archived flag e && true)
                              = true) rows))).
Proof.
  intros Hauth Hup Hc Hn Ha. unfold run, EntriesRoute.GET.
  rewrite Hauth. simpl. rewrite Hc, Hn, Ha.
  unfold mbind, M_bind, select_where, mret, M_ret. simpl. rewrite Hup. simpl.
  by destruct flag.
Qed.

Lemma listed_iff (user : string) (flag : bool) (rows : list Entry) (e : Entry) :
  e ∈ order_desc
        (filter (λ e, (eq_user user e && true && eq_archived flag e && true) = true)
           rows)
  ↔ e ∈ rows ∧ user_id e = user ∧ archived e = Some flag.
Proof.
  rewrite order_desc_elem, list_elem_of_filter.
  rewrite !andb_true_r, andb_true_iff, eq_user_true, eq_archived_true. tauto.
Qed.

(** C3, as stated, fails: the [archived] column may hold [NULL], and the
    partial update stores the [null] it is sent. After Alice's update of
    her task with [{ archived: null }], which is answered with status 200,
    the task is in neither of her two listings. *)
Lemma null_flag_is_in_neither_listing :
  let w := alice_world None in
  let update := mkRequest "id-1" [] (Some (JObj {["archived" := JNull]})) in
  let after := run (EntryRoute.PATCH w update) sample_table in
  let rows := table (snd after) in
  status (fst after) = 200%nat
  ∧ ∃ e listed archivedOnly,
      e ∈ rows ∧ user_id e = "alice" ∧ id e = "id-1" ∧ archived e = None
      ∧ fst (run (EntriesRoute.GET w (mkRequest "" [] None)) rows)
        = NextResponse.json (BRows listed)
      ∧ fst (run (EntriesRoute.GET w (mkRequest "" [("archived", "only")] None))
               rows)
        = NextResponse.json (BRows archivedOnly)
      ∧ ¬ ((e ∈ listed ∧ ¬ e ∈ archivedOnly)
           ∨ (¬ e ∈ listed ∧ e ∈ archivedOnly)).
Proof.
  intros w update after rows. split; [reflexivity|].
  eexists _, _, _. split_and!; [| | | |reflexivity|reflexivity|].
  - left.
  - reflexivity.
  - reflexivity.
  - reflexivity.
  - intros [[Hin _]|[_ Hin]].
    + repeat (apply elem_of_cons in Hin as [Hin|Hin]; [discriminate|]).
      by apply elem_of_nil in Hin.
    + by apply elem_of_nil in Hin.
Qed.

(** C3, amended. The default listing holds the entries of the caller
    whose flag is false and the archived-only listing those whose flag is
    true; an entry of the caller whose flag is set is in exactly one of the
    two, and an entry whose flag is [NULL] is in neither. *)
Theorem listings_partition_by_archived (w : World) (user i : string)
    (q : list (string * string)) (b : option json) (rows : list Entry) :
  auth_user w = Some user → store_up w = true →
  searchParams_get q "category" = None →
  searchParams_get q "needs_review" = None →
  searchParams_get q "archived" = None →
  ∃ listed archivedOnly,
    fst (run (EntriesRoute.GET w (mkRequest i q b)) rows)
      = NextResponse.json (BRows listed)
    ∧ fst (run (EntriesRoute.GET w (mkRequest i (("archived", "only") :: q) b)) rows)
      = NextResponse.json (BRows archivedOnly)
    ∧ (∀ e, e ∈ listed →
         archived e = Some false ∧ user_id e = user ∧ e ∈ rows)
    ∧ (∀ e, e ∈ archivedOnly →
         archived e = Some true ∧ user_id e = user ∧ e ∈ rows)
    ∧ (∀ e, e ∈ rows → user_id e = user →
         match archived e with
         | Some flag =>
             (e ∈ listed ∧ ¬ e ∈ archivedOnly ∧ flag = false)
             ∨ (¬ e ∈ listed ∧ e ∈ archivedOnly ∧ flag = true)
         | None => ¬ e ∈ listed ∧ ¬ e ∈ archivedOnly
         end).
Proof.
  intros Hauth Hup Hc Hn Ha.
  eexists _, _. split_and!.
  - by apply (GET_listing w user i q b rows false).
  - by apply (GET_listing w user i (("archived", "only") :: q) b rows true).
  - intros e He. apply listed_iff in He. tauto.
  - intros e He. apply listed_iff in He. tauto.
  - intros e He Hu.
    destruct (archived e) as [[|]|] eqn:Harch; rewrite !listed_iff, Harch.
    + right. intuition congruence.
    + left. intuition congruence.
    + intuition congruence.
Qed.

(** Alice lists her entries after archiving her project; the flag of her
    idea is [NULL]. *)
Lemma listings_partition_by_archived_witness :
  let rows :=
    [alice_task; bob_task;
     mkEntry "id-3" projects (data alice_project) (Some (7 # 8)) (Some false)
       (Some true) (Some [])
       "2024-01-03T00:00:00.000Z" "2024-01-03T00:00:00.000Z" "alice";
     mkEntry "id-4" ideas (data alice_idea) (Some (7 # 8)) (Some false)
       None (Some [])
       "2024-01-04T00:00:00.000Z" "2024-01-04T00:00:00.000Z" "alice"] in
  ∃ listed archivedOnly,
    fst (run (EntriesRoute.GET (alice_world None) (mkRequest "" [] None)) rows)
      = NextResponse.json (BRows listed)
    ∧ fst (run (EntriesRoute.GET (alice_world None)
                  (mkRequest "" [("archived", "only")] None)) rows)
      = NextResponse.json (BRows archivedOnly)
    ∧ (∀ e, e ∈ listed →
         archived e = Some false ∧ user_id e = "alice" ∧ e ∈ rows)
    ∧ (∀ e, e ∈ archivedOnly →
         archived e = Some true ∧ user_id e = "alice" ∧ e ∈ rows)
    ∧ (∀ e, e ∈ rows → user_id e = "alice" →
         match archived e with
         | Some flag =>
             (e ∈ listed ∧ ¬ e ∈ archivedOnly ∧ flag = false)
             ∨ (¬ e ∈ listed ∧ e ∈ archivedOnly ∧ flag = true)
         | None => ¬ e ∈ listed ∧ ¬ e ∈ archivedOnly
         end).
Proof.
  intros rows.
  apply (listings_partition_by_archived (alice_world None) "alice" "" [] None rows);
    reflexivity.
Defined.

(** ** Manual creation (C10, C2) *)

Lemma row_of_insert_columns (w : World) (p : gmap string json) (row : Entry) :
  row_of_insert w p = Some row →
  column (as_float w) (p !! "confidence") None = Some (confidence row)
  ∧ column (as_flag w) (p !! "needs_review") (Some false)
    = Some (needs_review row)
  ∧ column (as_flag w) (p !! "archived") (Some false) = Some (archived row)
  ∧ as_string (p !! "user_id") = Some (user_id row)
  ∧ id row = next_id w.
Proof.
  unfold row_of_insert. intros H.
  destruct (as_category (p !! "category")); [|done].
  destruct (as_data (p !! "data")); [|done].
  destruct (column (as_float w) (p !! "confidence") None); [|done].
  destruct (column (as_flag w) (p !! "needs_review") (Some false)); [|done].
  destruct (column (as_flag w) (p !! "archived") (Some false)); [|done].
  destruct (column (as_list w) (p !! "linked_entries") (Some [])); [|done].
  destruct (as_string (p !! "user_id")); [|done].
  simpl in H. by inversion H.
Qed.

(** What [insert(..).select().single()] leaves behind. *)
Lemma insert_single (w : World) (p : gmap string json) (st : St) :
  (∃ row, row_of_insert w p = Some row
          ∧ single (fst (insert_row w p st)) = Ok row
          ∧ table (snd (insert_row w p st)) = (table st ++ [row])%list)
  ∨ ((∃ err, single (fst (insert_row w p st)) = Err err)
     ∧ table (snd (insert_row w p st)) = table st).
Proof.
  unfold insert_row. destruct (store_up w); [|right; eauto].
  destruct (row_of_insert w p) as [row|] eqn:Hrow; [|right; eauto].
  destruct (existsb _ _); [right; eauto|].
  left. exists row. by simpl.
Qed.

Lemma POST_outcome (w : World) (request : Request) (rows : list Entry) :
  let out := run (EntriesRoute.POST w request) rows in
  (table (snd out) = rows ∧ ∀ row, payload (fst out) ≠ BRow row)
  ∨ (∃ row user b c d q n l,
       auth_user w = Some user ∧ body request = Some b
       ∧ prop (Some b) "confidence" = Some q
       ∧ prop (Some b) "needs_review" = Some n
       ∧ row_of_insert w
           (object [("category", c); ("data", d);
                    ("confidence", nullish q (JNum 1));
                    ("needs_review", nullish n (JBool false));
                    ("archived", Some (JBool false));
                    ("linked_entries", nullish l (JArr []));
                    ("user_id", Some (JStr user))]) = Some row
       ∧ fst out = NextResponse.json (BRow row)
       ∧ table (snd out) = (rows ++ [row])%list).
Proof.
  unfold run, EntriesRoute.POST.
  destruct (auth_user w) as [user|] eqn:Hauth; [|no_row].
  destruct (body request) as [b|] eqn:Hbody; [|no_row].
  simpl.
  destruct (prop (Some b) "category") as [c|]; [|no_row]. simpl.
  destruct (prop (Some b) "data") as [d|]; [|no_row]. simpl.
  destruct (prop (Some b) "confidence") as [q|] eqn:Hq; [|no_row]. simpl.
  destruct (prop (Some b) "needs_review") as [n|] eqn:Hn; [|no_row]. simpl.
  destruct (prop (Some b) "linked_entries") as [l|]; [|no_row]. simpl.
  unfold mbind, M_bind, mret, M_ret.
  match goal with |- context [insert_row w ?p ?st] =>
    pose proof (insert_single w p st) as Hcase;
    destruct (insert_row w p st) as [r st']
  end.
  cbn [fst snd table] in Hcase.
  destruct Hcase as [(row & Hrow & Hs & Ht)|[[err Hs] Ht]]; rewrite Hs; cbn [fst snd].
  - right. exists row, user, b, c, d, q, n, l. by split_and!.
  - no_row. exact Ht.
Qed.

Lemma object_lookup (k : string) (fields : list (string * jsval)) :
  object fields !! k = field k fields.
Proof.
  induction fields as [|[k' [v|]] t IH]; unfold object; fold object; simpl.
  - done.
  - destruct (String.eqb k' k) eqn:Hk.
    + apply String.eqb_eq in Hk as ->. apply lookup_insert_eq.
    + apply String.eqb_neq in Hk. by rewrite lookup_insert_ne.
  - destruct (String.eqb k' k) eqn:Hk; [|done].
    apply String.eqb_eq in Hk as ->. done.
Qed.

(** C10. Whatever the body of a create request says, the entry that is
    created is not archived; when no entry is created the table is left
    as it was. *)
Theorem created_entry_is_not_archived (w : World) (request : Request)
    (rows : list Entry) (resp : Response) (st : St) :
  run (EntriesRoute.POST w request) rows = (resp, st) →
  (∀ row, payload resp = BRow row → archived row = Some false)
  ∧ (table st = rows
     ∨ ∃ row, table st = (rows ++ [row])%list ∧ archived row = Some false
              ∧ resp = NextResponse.json (BRow row)).
Proof.
  intros Hrun. pose proof (POST_outcome w request rows) as Hout.
  rewrite Hrun in Hout. cbn [fst snd] in Hout.
  destruct Hout as [[Ht Hno]|(row & user & b & c & d & q & n & l & _ & _ & _ & _
                              & Hrow & Hresp & Ht)].
  - split; [|by left]. intros row Hrow. by destruct (Hno row).
  - apply row_of_insert_columns in Hrow as (_ & _ & Harch & _).
    rewrite object_lookup in Harch. simpl in Harch.
    assert (archived row = Some false) as Hfalse by congruence.
    split.
    + intros row' Hrow'. rewrite Hresp in Hrow'. simpl in Hrow'. congruence.
    + right. by exists row.
Qed.

(** Alice creates an idea and asks for it to be archived at once. *)
Lemma created_entry_is_not_archived_witness :
  let request :=
    mkRequest "" []
      (Some (JObj (<["category" := JStr "ideas"]>
                     (<["data" := JObj {["insight" := JStr "sleep more"]}]>
                        {["archived" := JBool true]})))) in
  let out := run (EntriesRoute.POST (alice_world None) request) sample_table in
  status (fst out) = 200%nat
  ∧ (∀ row, payload (fst out) = BRow row → archived row = Some false)
  ∧ (table (snd out) = sample_table
     ∨ ∃ row, table (snd out) = (sample_table ++ [row])%list
              ∧ archived row = Some false
              ∧ fst out = NextResponse.json (BRow row)).
Proof.
  intros request out. split; [reflexivity|].
  apply (created_entry_is_not_archived (alice_world None) request sample_table).
  apply surjective_pairing.
Defined.

(** ** Classification and the review flag (C2) *)

Lemma capture_outcome (w : World) (request : Request) (rows : list Entry)
    (resp : Response) (st : St) (entry : Entry) (nr : bool) (mp : jsval) :
  run (CaptureRoute.POST w request) rows = (resp, st) →
  payload resp = BCapture entry nr mp →
  ∃ raw result conf,
    model_reply w = Some raw
    ∧ JSON_parse (strip_fences raw) = Some result
    ∧ prop (Some result) "confidence" = Some conf
    ∧ column (as_float w) conf None = Some (confidence entry)
    ∧ CaptureRoute.below_threshold w conf = Some nr
    ∧ needs_review entry = Some nr
    ∧ archived entry = Some false
    ∧ entry ∈ table st.
Proof.
  unfold run, CaptureRoute.POST. intros H Hp.
  destruct (auth_user w) as [user|]; [|fails_with H Hp].
  destruct (body request ≫= _) as [[[| | |t| |]|]|]; try fails_with H Hp.
  destruct (String.eqb t ""); [fails_with H Hp|].
  run_in H.
  destruct (model_reply w) as [raw|] eqn:Hraw; [|fails_with H Hp].
  destruct (JSON_parse (strip_fences raw)) as [result|] eqn:Hres; [|fails_with H Hp].
  destruct (prop (Some result) "confidence") as [conf|] eqn:Hconf; [|fails_with H Hp].
  destruct (prop (Some result) "mentionedPeople") as [mentioned|]; [|fails_with H Hp].
  destruct (prop (Some result) "category") as [cat|]; [|fails_with H Hp].
  destruct (prop (Some result) "data") as [dat|]; [|fails_with H Hp].
  destruct (CaptureRoute.below_threshold w conf) as [needsReview|] eqn:Hbelow;
    [|fails_with H Hp].
  match type of H with context [let '(_, _) := ?c ?s in _] =>
    destruct (c s) as [[linked|] st1] eqn:Hlink end; [|fails_with H Hp].
  match type of H with context [insert_row w ?p ?s] =>
    pose proof (insert_single w p s) as Hcase;
    destruct (insert_row w p s) as [r st2] end.
  cbn [fst snd] in Hcase.
  destruct Hcase as [(row & Hrow & Hs & Ht)|[[err Hs] Ht]]; rewrite Hs in H;
    [|fails_with H Hp].
  injection H as <- <-. cbn in Hp. injection Hp as <- <- <-.
  apply row_of_insert_columns in Hrow as (Hq & Hn & Ha & _).
  rewrite object_lookup in Hq, Hn, Ha. cbn in Hn, Ha.
  exists raw, result, conf. split_and!; try done; try congruence.
  - rewrite <- Hq. by destruct conf.
  - rewrite Ht. apply elem_of_app. right. by left.
Qed.

(** [0.6] is the double [5404319552844595 / 2^53], a little less than
    [6/10]. *)
Lemma review_threshold_value :
  CaptureRoute.review_threshold = (5404319552844595 # 9007199254740992)%Q.
Proof. reflexivity. Qed.

Lemma below_threshold_spec (w : World) (c : Q) :
  ∃ flag, CaptureRoute.below_threshold w (Some (JNum c)) = Some flag
          ∧ (flag = true ↔ (c < binary64 (6 # 10))%Q).
Proof.
  unfold CaptureRoute.below_threshold, ToNumber. cbn [mbind option_bind].
  eexists. split; [reflexivity|].
  fold CaptureRoute.review_threshold. rewrite negb_true_iff. split.
  - intros H. apply Qnot_le_lt. intros Hle. apply Qle_bool_iff in Hle. congruence.
  - intros H. destruct (Qle_bool CaptureRoute.review_threshold c) eqn:Hle; [|done].
    apply Qle_bool_iff in Hle. exfalso. by apply (Qlt_not_le _ _ H).
Qed.

Lemma one_is_finite : is_finite 1 = true.
Proof. reflexivity. Qed.

Lemma manual_outcome (w : World) (request : Request) (rows : list Entry)
    (resp : Response) (st : St) (m : gmap string json) (row : Entry) :
  run (EntriesRoute.POST w request) rows = (resp, st) →
  body request = Some (JObj m) →
  m !! "confidence" = None → m !! "needs_review" = None →
  payload resp = BRow row →
  confidence row = Some 1%Q ∧ needs_review row = Some false ∧ row ∈ table st.
Proof.
  intros Hrun Hbody Hc Hn Hp.
  pose proof (POST_outcome w request rows) as Hout.
  rewrite Hrun in Hout. cbn [fst snd] in Hout.
  destruct Hout as [[_ Hno]|(row' & user & b & c & d & q & n & l & _ & Hb & Hq & Hnr
                              & Hrow & Hresp & Ht)].
  - by destruct (Hno row).
  - rewrite Hresp in Hp. cbn in Hp. injection Hp as ->.
    rewrite Hbody in Hb. injection Hb as <-.
    unfold prop in Hq, Hnr. rewrite Hc in Hq. rewrite Hn in Hnr.
    injection Hq as <-. injection Hnr as <-.
    apply row_of_insert_columns in Hrow as (Hq & Hnr & _).
    rewrite object_lookup in Hq, Hnr.
    cbn [field String.eqb Ascii.eqb Bool.eqb nullish column as_float as_flag]
      in Hq, Hnr.
    rewrite one_is_finite in Hq.
    split_and!; [congruence | congruence |].
    rewrite Ht. apply elem_of_app. right. by left.
Qed.

(** C2. When the classifier's answer parses and carries the confidence
    [c], a number, the entry that classify-and-create stores needs review
    exactly when [c < 0.6]. Numbers are doubles: [c] is the double that
    [JSON.parse] read and [0.6] the double that the literal stands for.
    The entry holds [c] as its confidence, or [NULL] when [c] is infinite.
    An entry created by hand without [confidence] and [needs_review] gets
    confidence 1.0 and needs no review. *)
Theorem review_flag_follows_confidence (w : World) (request manual : Request)
    (rows : list Entry) :
  (∀ resp st raw result c entry nr mp,
     run (CaptureRoute.POST w request) rows = (resp, st) →
     model_reply w = Some raw →
     JSON_parse (strip_fences raw) = Some result →
     prop (Some result) "confidence" = Some (Some (JNum c)) →
     payload resp = BCapture entry nr mp →
     confidence entry = (if is_finite c then Some c else None)
     ∧ (needs_review entry = Some true ↔ (c < binary64 (6 # 10))%Q)
     ∧ (needs_review entry = Some false ↔ ¬ (c < binary64 (6 # 10))%Q)
     ∧ needs_review entry = Some nr
     ∧ entry ∈ table st)
  ∧ (∀ resp st m row,
       run (EntriesRoute.POST w manual) rows = (resp, st) →
       body manual = Some (JObj m) →
       m !! "confidence" = None → m !! "needs_review" = None →
       payload resp = BRow row →
       confidence row = Some 1%Q ∧ needs_review row = Some false
       ∧ row ∈ table st).
Proof.
  split.
  - intros resp st raw result c entry nr mp Hrun Hraw Hres Hconf Hp.
    destruct (capture_outcome w request rows resp st entry nr mp Hrun Hp)
      as (raw' & result' & conf & Hraw' & Hres' & Hconf' & Hq & Hn & Hnr & _ & Hin).
    assert (raw' = raw) as -> by congruence.
    assert (result' = result) as -> by congruence.
    assert (conf = Some (JNum c)) as -> by congruence.
    destruct (below_threshold_spec w c) as (flag & Hflag & Hlt).
    assert (flag = nr) as -> by congruence.
    cbn [column as_float] in Hq.
    split_and!; [congruence | | | done | done]; rewrite Hnr.
    + rewrite <- Hlt. split; congruence.
    + rewrite <- Hlt. destruct nr; split; congruence.
  - intros resp st m row. apply manual_outcome.
Qed.

(** The classifier answers with confidence 0.4 for Alice's note; Alice
    also creates an idea by hand. *)
Lemma review_flag_follows_confidence_witness :
  let w :=
    alice_world
      (Some (dq "{'category':'tasks','confidence':0.4,'data':{'task':'milk'}}")) in
  let request := mkRequest "" [] (Some (JObj {["text" := JStr "get milk"]})) in
  let manual :=
    mkRequest "" []
      (Some (JObj (<["category" := JStr "ideas"]>
                     {["data" := JObj {["insight" := JStr "sleep more"]}]}))) in
  ∃ entry row,
    fst (run (CaptureRoute.POST w request) sample_table)
      = NextResponse.json (BCapture entry true None)
    ∧ confidence entry = Some (binary64 (2 # 5))
    ∧ (needs_review entry = Some true
       ↔ (binary64 (2 # 5) < binary64 (6 # 10))%Q)
    ∧ fst (run (EntriesRoute.POST w manual) sample_table)
      = NextResponse.json (BRow row)
    ∧ confidence row = Some 1%Q ∧ needs_review row = Some false.
Proof.
  intros w request manual.
  destruct (review_flag_follows_confidence w request manual sample_table)
    as [Hcapture Hmanual].
  eexists _, _.
  assert (Hc : fst (run (CaptureRoute.POST w request) sample_table)
               = NextResponse.json (BCapture _ true None)) by reflexivity.
  assert (Hm : fst (run (EntriesRoute.POST w manual) sample_table)
               = NextResponse.json (BRow _)) by reflexivity.
  destruct (Hcapture _ _ _ _ (binary64 (2 # 5)) _ true None
              (surjective_pairing _) eq_refl eq_refl eq_refl (f_equal payload Hc))
    as (H1 & H2 & _).
  destruct (Hmanual _ _ _ _ (surjective_pairing _) eq_refl eq_refl eq_refl
              (f_equal payload Hm)) as (H3 & H4 & _).
  split_and!; [exact Hc | exact H1 | exact H2 | exact Hm | exact H3 | exact H4].
Defined.

(** The confidence is compared as the double it is read as: the literal
    [0.59999999999999999] is nearer to the double [0.6] than to any other,
    so the entry holds that double and is not flagged, although the
    decimal is below [6/10]. *)
Lemma confidence_is_compared_as_a_double :
  let w :=
    alice_world
      (Some (dq "{'category':'tasks','confidence':0.59999999999999999,'data':{'task':'milk'}}")) in
  let request := mkRequest "" [] (Some (JObj {["text" := JStr "get milk"]})) in
  ∃ entry,
    fst (run (CaptureRoute.POST w request) sample_table)
      = NextResponse.json (BCapture entry false None)
    ∧ confidence entry = Some (binary64 (6 # 10))
    ∧ needs_review entry = Some false.
Proof. intros w request. eexists. split_and!; reflexivity. Qed.

(** ** The digest (C8) *)

Lemma filter_none {A} (P : A → Prop) `{!∀ x, Decision (P x)} (l : list A) :
  (∀ x, x ∈ l → ¬ P x) → filter P l = [].
Proof.
  induction l as [|x l IH]; intros Hall; [done|].
  rewrite filter_cons_False by (apply Hall; left).
  apply IH. intros y Hy. apply Hall. by right.
Qed.

Lemma eq_category_true (c : Category) (e : Entry) :
  eq_category (category_name c) e = true ↔ category e = c.
Proof.
  unfold eq_category. rewrite String.eqb_eq.
  destruct (category e), c; simpl; split; congruence.
Qed.

Lemma nothing_open (user : string) (c : Category) (rows : list Entry) :
  (∀ e, e ∈ rows → user_id e = user → archived e = Some false →
        category e ≠ c) →
  filter (λ e, (eq_category (category_name c) e && eq_archived false e
                && eq_user user e) = true) rows = [].
Proof.
  intros H. apply filter_none. intros e He Hsel.
  apply andb_true_iff in Hsel as [Hsel Hu].
  apply andb_true_iff in Hsel as [Hc Ha].
  apply eq_category_true in Hc. apply eq_archived_true in Ha.
  apply eq_user_true in Hu. by apply (H e).
Qed.

(** C8. When the caller has no task and no project that is not archived,
    the digest answers with an empty list of bullets, and its trace holds
    the two reads of the store and no call of the model. *)
Theorem digest_skips_model_when_nothing_open (w : World) (user : string)
    (rows : list Entry) :
  auth_user w = Some user →
  (∀ e, e ∈ rows → user_id e = user → archived e = Some false →
        category e ≠ tasks ∧ category e ≠ projects) →
  run (SummaryRoute.GET w) rows
    = (NextResponse.json (BBullets (JArr [])), mkSt rows [StoreQuery; StoreQuery])
  ∧ run (SummaryRouteEarlier.GET w) rows
    = (NextResponse.json (BBullets (JArr [])), mkSt rows [StoreQuery; StoreQuery])
  ∧ ¬ (ModelCall ∈ trace (snd (run (SummaryRoute.GET w) rows)))
  ∧ ¬ (ModelCall ∈ trace (snd (run (SummaryRouteEarlier.GET w) rows))).
Proof.
  intros Hauth Hnone.
  assert (Ht : filter (λ e, (eq_category "tasks" e && eq_archived false e
                             && eq_user user e) = true) rows = []).
  { apply (nothing_open user tasks). intros e ? ? ?. by apply Hnone. }
  assert (Hp : filter (λ e, (eq_category "projects" e && eq_archived false e
                             && eq_user user e) = true) rows = []).
  { apply (nothing_open user projects). intros e ? ? ?. by apply Hnone. }
  assert (H1 : run (SummaryRoute.GET w) rows
    = (NextResponse.json (BBullets (JArr [])), mkSt rows [StoreQuery; StoreQuery])).
  { unfold run, SummaryRoute.GET. rewrite Hauth.
    unfold mbind, M_bind, mret, M_ret, select_where. cbn.
    rewrite Ht, Hp. by destruct (store_up w). }
  assert (H2 : run (SummaryRouteEarlier.GET w) rows
    = (NextResponse.json (BBullets (JArr [])), mkSt rows [StoreQuery; StoreQuery])).
  { unfold run, SummaryRouteEarlier.GET. rewrite Hauth.
    unfold mbind, M_bind, mret, M_ret, select_where. cbn.
    rewrite Ht, Hp. by destruct (store_up w). }
  rewrite H1, H2. split_and!; try done.
  all: cbn; intros Hin; repeat (apply elem_of_cons in Hin as [?|Hin]; [discriminate|]);
    by apply elem_of_nil in Hin.
Qed.

(** Bob has one task, and it is archived. *)
Lemma digest_skips_model_when_nothing_open_witness :
  let w := mkWorld (Some "bob") false true (Some "[]") false 0 0 "id-9" no_date
      same_case not_a_number refuse refuse refuse in
  let rows :=
    [alice_task;
     mkEntry "id-2" tasks (data bob_task) (Some (7 # 8)) (Some false)
       (Some true) (Some [])
       "2024-01-02T00:00:00.000Z" "2024-01-02T00:00:00.000Z" "bob"] in
  run (SummaryRoute.GET w) rows
    = (NextResponse.json (BBullets (JArr [])), mkSt rows [StoreQuery; StoreQuery])
  ∧ run (SummaryRouteEarlier.GET w) rows
    = (NextResponse.json (BBullets (JArr [])), mkSt rows [StoreQuery; StoreQuery])
  ∧ ¬ (ModelCall ∈ trace (snd (run (SummaryRoute.GET w) rows)))
  ∧ ¬ (ModelCall ∈ trace (snd (run (SummaryRouteEarlier.GET w) rows))).
Proof.
  intros w rows.
  apply (digest_skips_model_when_nothing_open w "bob" rows); [reflexivity|].
  intros e He Hu Ha. unfold rows in He.
  repeat (apply elem_of_cons in He as [->|He]); try discriminate.
  by apply elem_of_nil in He.
Defined.

(** ** Callers without a session (C9) *)

(** C9, as amended. Every endpoint other than the digest rejects a caller
    without a session with the 401 response, before any access to the
    store; the digest answers such a caller with status 200 and an empty
    list of bullets, also before any access to the store. *)
Theorem callers_without_session
    (signed_in : Endpoint → string → World → Request → M Response)
    (ep : Endpoint) (w : World) (request : Request) (st : St) :
  auth_user w = None →
  dispatch signed_in ep w request st
  = (match ep with
     | Digest => NextResponse.json (BBullets (JArr []))
     | _ => NextResponse.json_status (BError "Unauthorized") 401
     end, st)
  ∧ SummaryRouteEarlier.GET w st = (NextResponse.json (BBullets (JArr [])), st).
Proof.
  intros Hauth. split.
  - destruct ep; unfold dispatch, gate_user, gate_user_or_error,
      CaptureRoute.POST, EntriesRoute.GET, EntriesRoute.POST, EntryRoute.GET,
      EntryRoute.PATCH, EntryRoute.DELETE, IdeaChatRoute.POST, IdeaSaveRoute.POST,
      ProjectChatRoute.POST, TaskChatRoute.POST, SummaryRoute.GET;
      rewrite Hauth; try reflexivity; by destruct (auth_error w).
  - unfold SummaryRouteEarlier.GET. by rewrite Hauth.
Qed.

(** Nobody is signed in and the read-one endpoint is called. *)
Lemma callers_without_session_witness :
  dispatch (λ _ _ _ _, mret unauthorized) ReadOne anonymous_world
    (mkRequest "id-1" [] None) (mkSt sample_table [])
  = (NextResponse.json_status (BError "Unauthorized") 401, mkSt sample_table [])
  ∧ SummaryRouteEarlier.GET anonymous_world (mkSt sample_table [])
    = (NextResponse.json (BBullets (JArr [])), mkSt sample_table []).
Proof.
  apply (callers_without_session (λ _ _ _ _, mret unauthorized) ReadOne
           anonymous_world (mkRequest "id-1" [] None) (mkSt sample_table [])).
  reflexivity.
Defined.

(** C9, as stated, fails: without a session the digest endpoint answers
    with status 200 and a body of bullets, not with an error. *)
Lemma digest_answers_without_session :
  auth_user anonymous_world = None
  ∧ run (SummaryRoute.GET anonymous_world) sample_table
    = (mkResponse 200 (BBullets (JArr [])), mkSt sample_table [])
  ∧ status (fst (run (SummaryRoute.GET anonymous_world) sample_table)) ≠ 401%nat.
Proof. split_and!; [reflexivity | reflexivity | discriminate]. Qed.

(** ** A block that does not parse (C5) *)






(** ** Leftmost matches *)

Lemma class_included (p q : ascii → bool) (a : ascii) :
  forallb (λ n, implb (q (ascii_of_nat n)) (p (ascii_of_nat n))) (List.seq 0 256) = true →
  p a = false → q a = false.
Proof.
  intros Hall Hp. rewrite forallb_forall in Hall.
  assert (Hin : In (nat_of_ascii a) (List.seq 0 256)).
  { apply in_seq. pose proof (nat_ascii_bounded a). lia. }
  specialize (Hall _ Hin). rewrite ascii_nat_embedding, Hp in Hall.
  by destruct (q a).
Qed.




(** ** An update requested by the task chat (C4) *)

Lemma patch_rows_data (w : World) (sel : Entry → bool) (m : gmap string json)
    (stamp : string) (rows : list Entry) :
  patch_rows w sel
    (object [("data", Some (JObj m)); ("updated_at", Some (JStr stamp))]) rows
  = Some ((λ e, if sel e then with_data (JObj m) stamp e else e) <$> rows,
          with_data (JObj m) stamp <$> filter (λ e, sel e = true) rows).
Proof.
  induction rows as [|e rows IH]; [done|].
  simpl. rewrite IH. simpl.
  destruct (sel e) eqn:Hsel.
  - rewrite filter_cons_True by done.
    unfold apply_patch. rewrite !object_lookup. done.
  - rewrite filter_cons_False by congruence. done.
Qed.



Lemma prop_obj (m : gmap string json) (k : string) :
  prop (Some (JObj m)) k = Some (m !! k).
Proof. reflexivity. Qed.










(** ** The status of a project (C6) *)

(** A status that is a non-empty string outside the three allowed values
    is removed from the updates; every other key stays. *)
Lemma validate_status_drops (m : gmap string json) (s : string) :
  m !! "status" = Some (JStr s) → s ≠ "" →
  s ≠ "active" → s ≠ "on-hold" → s ≠ "completed" →
  ProjectChatRoute.validate_status (Some (JObj m)) = Some (JObj (delete "status" m))
  ∧ delete "status" m !! "status" = None
  ∧ (∀ k, k ≠ "status" → delete "status" m !! k = m !! k).
Proof.
  intros Hs Hne Ha Hh Hc. split_and!.
  - unfold ProjectChatRoute.validate_status, ProjectChatRoute.allowed_status.
    rewrite Hs. cbn [truthy is_string].
    apply String.eqb_neq in Hne, Ha, Hh, Hc. by rewrite Hne, Ha, Hh, Hc.
  - apply lookup_delete_eq.
  - intros k Hk. by apply lookup_delete_ne.
Qed.

(** The same update with the value [archived], on Alice's project: the
    status stays [active] and the next action is stored. *)
Lemma project_chat_drops_archived_status :
  let reply :=
    dq "Ok. {'action':'update','updates':{'status':'archived','nextAction':'ship'}}" in
  let out := run (ProjectChatRoute.POST (alice_world (Some reply))
                    (chat_request "id-3" "archive it")) sample_table in
  ∃ stored,
    table (snd out)
    = persist "id-3" "alice" (with_data (JObj stored) "2024-02-29T23:59:59.999Z")
        sample_table
    ∧ stored !! "status" = Some (JStr "active")
    ∧ stored !! "nextAction" = Some (JStr "ship")
    ∧ fst out
      = NextResponse.json
          (BChat "Ok." true (Some (JObj {["nextAction" := JStr "ship"]}))).
Proof.
  eexists. split_and!; [by vm_compute | reflexivity | reflexivity | by vm_compute].
Qed.

(** C6 fails on the code: a status that is the empty string is outside
    the allowed set, but the guard tests its truthiness first, so the key
    is kept and the empty status is merged into the stored data. *)
Theorem project_chat_keeps_empty_status :
  let reply :=
    dq "Ok. {'action':'update','updates':{'status':'','nextAction':'ship'}}" in
  let out := run (ProjectChatRoute.POST (alice_world (Some reply))
                    (chat_request "id-3" "clear the status")) sample_table in
  ProjectChatRoute.allowed_status (Some (JStr "")) = false
  ∧ ∃ stored,
      table (snd out)
      = persist "id-3" "alice" (with_data (JObj stored) "2024-02-29T23:59:59.999Z")
          sample_table
      ∧ stored !! "status" = Some (JStr "")
      ∧ stored !! "nextAction" = Some (JStr "ship")
      ∧ fst out
        = NextResponse.json
            (BChat "Ok." true
               (Some (JObj (<["status" := JStr ""]>
                              {["nextAction" := JStr "ship"]})))).
Proof.
  split; [reflexivity|].
  eexists. split_and!; [by vm_compute | reflexivity | reflexivity | by vm_compute].
Qed.

(** ** Natural dates (C7) *)

#[local] Open Scope Z_scope.

(** [YearFromTime] is the year the standard asks for: its first day is
    not after the day of [t], and the first day of the next year is. *)
Lemma YearFromTime_spec (t : Z) :
  DayFromYear (YearFromTime t) <= Day t < DayFromYear (YearFromTime t + 1).
Proof.
  unfold YearFromTime. set (d := Day t). clearbody d.
  set (y := 1970 + d * 400 / 146097).
  assert (Hy : 146097 * (y - 1970) <= d * 400 < 146097 * (y - 1970) + 146097).
  { unfold y. pose proof (Z.div_mod (d * 400) 146097 ltac:(done)).
    pose proof (Z.mod_pos_bound (d * 400) 146097 ltac:(done)). lia. }
  clearbody y.
  unfold DayFromYear.
  repeat match goal with
  | |- context [?a / ?b] =>
      let q := fresh "q" in let r := fresh "r" in
      pose proof (Z.div_mod a b ltac:(done));
      pose proof (Z.mod_pos_bound a b ltac:(done));
      set (q := a / b) in *; set (r := a mod b) in *; clearbody q r
  end.
  repeat match goal with |- context [if ?c then _ else _] => destruct c eqn:? end;
    lia.
Qed.

Lemma DayWithinYear_range (t : Z) : 0 <= DayWithinYear t < DaysInYear (YearFromTime t).
Proof. pose proof (YearFromTime_spec t). unfold DayWithinYear, DaysInYear. lia. Qed.







#[local] Close Scope Z_scope.














(** A calendar date in ISO form never reaches the generic parser: its
    first two digits are read as the hour of today. *)
Lemma iso_date_is_read_as_clock_time (parse : string → option Z) :
  TaskChatRoute.parseNaturalDate
    (mkWorld (Some "alice") false true None false 1709251199999 0 "id-9" parse
        same_case not_a_number refuse refuse refuse)
    "2025-03-15"
  = Some "2024-02-29T20:00:00.000Z".
Proof. reflexivity. Qed.

(** ** Reading, updating and deleting an entry of one's own *)

Lemma apply_patch_keeps (w : World) (p : gmap string json) (e e' : Entry) :
  apply_patch w p e = Some e' →
  id e' = id e ∧ user_id e' = user_id e ∧ confidence e' = confidence e
  ∧ created_at e' = created_at e.
Proof.
  unfold apply_patch. intros H. simplify_option_eq. done.
Qed.



Lemma as_strings_spec (l : list json) (names : list string) :
  as_strings l = Some names → l = JStr <$> names.
Proof.
  revert names. induction l as [|[ | | |s| | ] t IH]; intros names; cbn;
    try discriminate.
  - by intros [= <-].
  - destruct (as_strings t) as [r|]; cbn; [|discriminate].
    intros [= <-]. cbn. by rewrite (IH r).
Qed.

Lemma as_strings_strs (names : list string) :
  as_strings (JStr <$> names) = Some names.
Proof. induction names as [|s t IH]; cbn; [done|]. by rewrite IH. Qed.

Lemma NoDup_id_inj (rows : list Entry) (e e' : Entry) :
  NoDup (id <$> rows) → e ∈ rows → e' ∈ rows → id e = id e' → e = e'.
Proof.
  induction rows as [|x rows IH]; intros Hnd He He' Hid;
    [by apply elem_of_nil in He|].
  rewrite fmap_cons in Hnd. apply NoDup_cons in Hnd as [Hfresh Hnd].
  apply elem_of_cons in He as [->|He]; apply elem_of_cons in He' as [->|He'].
  - done.
  - exfalso. apply Hfresh. rewrite Hid. by apply list_elem_of_fmap_2.
  - exfalso. apply Hfresh. rewrite <- Hid. by apply list_elem_of_fmap_2.
  - by apply IH.
Qed.

Lemma patch_rows_map (w : World) (sel : Entry → bool) (p : gmap string json)
    (f : Entry → Entry) (rows : list Entry) :
  (∀ e, e ∈ rows → sel e = true → apply_patch w p e = Some (f e)) →
  patch_rows w sel p rows
  = Some ((λ e, if sel e then f e else e) <$> rows,
          f <$> filter (λ e, sel e = true) rows).
Proof.
  induction rows as [|e rows IH]; intros Hall; [done|].
  simpl. rewrite IH by (intros x Hx; apply Hall; by right). simpl.
  destruct (sel e) eqn:Hsel.
  - rewrite (Hall e) by (done || left). simpl. by rewrite filter_cons_True.
  - rewrite filter_cons_False; [done|]. by rewrite Hsel.
Qed.


Lemma own_row_selected (user i : string) (rows : list Entry) (row e : Entry) :
  NoDup (id <$> rows) → row ∈ rows → id row = i → user_id row = user →
  e ∈ rows → (eq_id i e && eq_user user e) = true → e = row.
Proof.
  intros Hnd Hin Hi Hu He Hsel. apply andb_true_iff in Hsel as [Hei _].
  apply eq_id_true in Hei. apply (NoDup_id_inj rows); [done..|congruence].
Qed.

Lemma select_own_row (user i : string) (row : Entry) :
  id row = i → user_id row = user → (eq_id i row && eq_user user row) = true.
Proof.
  intros Hi Hu. apply andb_true_iff. split; [by apply eq_id_true | by apply eq_user_true].
Qed.




(** A flag written as a string is stored as the database reads it: here
    the database reads the text [true] as the boolean. *)
Lemma flag_written_as_text_is_stored :
  let reads v :=
    match v with
    | JStr s => if String.eqb s "true" then Some true else None
    | _ => None
    end in
  let w :=
    mkWorld (Some "alice") false true None false 1709251199999 0 "id-9" no_date
      same_case not_a_number reads refuse refuse in
  let request := mkRequest "id-1" [] (Some (JObj {["archived" := JStr "true"]})) in
  run (EntryRoute.PATCH w request) sample_table
  = (NextResponse.json (BRow (with_archived true (toISOString (now w)) alice_task)),
     mkSt (persist "id-1" "alice"
             (with_archived true (toISOString (now w))) sample_table)
          [StoreQuery]).
Proof. reflexivity. Qed.

Lemma filter_iff_in {A} (P Q : A → Prop) `{!∀ x, Decision (P x)}
    `{!∀ x, Decision (Q x)} (l : list A) :
  (∀ x, x ∈ l → P x ↔ Q x) → filter P l = filter Q l.
Proof.
  induction l as [|x l IH]; intros Hall; [done|].
  rewrite !filter_cons. rewrite IH by (intros y Hy; apply Hall; by right).
  destruct (Hall x) as [H1 H2]; [left|]. repeat case_decide; tauto.
Qed.

(** X2. Deleting an entry of the caller answers with the success response
    and removes that row and no other: the rows that are left are the
    other rows, in their order. A read of the same id then answers 404,
    and a second delete answers with the success response again. *)
Theorem delete_removes_that_entry_only (w : World) (user : string)
    (request : Request) (rows : list Entry) (row : Entry) :
  auth_user w = Some user → store_up w = true → NoDup (id <$> rows) →
  row ∈ rows → id row = param_id request → user_id row = user →
  let out := run (EntryRoute.DELETE w request) rows in
  fst out = NextResponse.json BSuccess
  ∧ table (snd out) = filter (λ e, id e ≠ id row) rows
  ∧ (∀ e, e ∈ table (snd out) ↔ e ∈ rows ∧ e ≠ row)
  ∧ fst (run (EntryRoute.GET w request) (table (snd out)))
    = NextResponse.json_status (BError "Entry not found") 404
  ∧ run (EntryRoute.DELETE w request) (table (snd out))
    = (NextResponse.json BSuccess, mkSt (table (snd out)) [StoreQuery]).
Proof.
  intros Hauth Hup Hnd Hin Hi Hu.
  assert (Hsel : ∀ e, e ∈ rows →
            (eq_id (param_id request) e && eq_user user e) = false ↔ id e ≠ id row).
  { intros e He. split.
    - intros Hf Hid. rewrite select_own_row in Hf; [done|congruence|].
      by rewrite (NoDup_id_inj rows e row).
    - intros Hid. apply not_true_is_false. intros Ht. apply Hid.
      by rewrite (own_row_selected user (param_id request) rows row e). }
  assert (Htab : table (snd (run (EntryRoute.DELETE w request) rows))
                 = filter (λ e, id e ≠ id row) rows).
  { unfold run, EntryRoute.DELETE. rewrite Hauth.
    unfold mbind, M_bind, delete_where, mret, M_ret. cbn. rewrite Hup. cbn.
    by apply filter_iff_in. }
  assert (Hgone : no_own_row user (param_id request)
                    (filter (λ e, id e ≠ id row) rows)).
  { intros e He Hid. apply list_elem_of_filter in He as [Hne _]. congruence. }
  cbn zeta. rewrite Htab.
  destruct request as [i q b]. cbn in Hi, Hgone, Hsel |- *.
  rewrite (GET_without_own_row w user i q b _ Hauth Hgone).
  rewrite (DELETE_without_own_row w user i q b _ Hauth Hgone). rewrite Hup.
  split_and!; try done.
  - unfold run, EntryRoute.DELETE. rewrite Hauth.
    unfold mbind, M_bind, delete_where, mret, M_ret. cbn. by rewrite Hup.
  - intros e. rewrite list_elem_of_filter. split.
    + intros [Hne He]. split; [done|]. by intros ->.
    + intros [He Hne]. split; [|done]. intros Hid. apply Hne.
      by apply (NoDup_id_inj rows).
Qed.

(** Alice deletes her task. *)
Lemma delete_removes_that_entry_only_witness :
  let request := mkRequest "id-1" [] None in
  let w := alice_world None in
  let out := run (EntryRoute.DELETE w request) sample_table in
  fst out = NextResponse.json BSuccess
  ∧ table (snd out) = filter (λ e, id e ≠ id alice_task) sample_table
  ∧ (∀ e, e ∈ table (snd out) ↔ e ∈ sample_table ∧ e ≠ alice_task)
  ∧ fst (run (EntryRoute.GET w request) (table (snd out)))
    = NextResponse.json_status (BError "Entry not found") 404
  ∧ run (EntryRoute.DELETE w request) (table (snd out))
    = (NextResponse.json BSuccess, mkSt (table (snd out)) [StoreQuery]).
Proof.
  apply (delete_removes_that_entry_only (alice_world None) "alice"
           (mkRequest "id-1" [] None) sample_table alice_task);
    first [reflexivity | apply sample_table_keys | left].
Defined.

Lemma insert_fresh (w : World) (p : gmap string json) (st : St) (row : Entry) :
  single (fst (insert_row w p st)) = Ok row →
  store_up w = true ∧ row_of_insert w p = Some row
  ∧ (∀ x, x ∈ table st → id x ≠ id row)
  ∧ snd (insert_row w p st)
    = mkSt (table st ++ [row]) (trace st ++ [StoreQuery]).
Proof.
  unfold insert_row. destruct (store_up w); [|done].
  destruct (row_of_insert w p) as [e|] eqn:Hrow; [|done].
  destruct (existsb _ _) eqn:Hex; [done|]. cbn. intros [= <-].
  split_and!; try done.
  intros x Hx Hid.
  assert (existsb (λ x, String.eqb (id x) (id e)) (table st) = true) as Hc;
    [|congruence].
  apply existsb_exists. exists x. split; [by apply list_elem_of_In|].
  by apply String.eqb_eq.
Qed.

(** X3. An entry that create-one answers with belongs to the caller,
    whatever the body says, and is appended to the table under a fresh id:
    the primary key stays unique, a read of that id answers with the same
    row, and the default listing contains it. *)
Theorem created_entry_reads_back (w : World) (request : Request)
    (rows : list Entry) (resp : Response) (st : St) (row : Entry) :
  NoDup (id <$> rows) →
  run (EntriesRoute.POST w request) rows = (resp, st) →
  payload resp = BRow row →
  auth_user w = Some (user_id row)
  ∧ table st = (rows ++ [row])%list
  ∧ NoDup (id <$> table st)
  ∧ (∀ q b, run (EntryRoute.GET w (mkRequest (id row) q b)) (table st)
            = (NextResponse.json (BRow row), mkSt (table st) [StoreQuery]))
  ∧ ∃ listed,
      fst (run (EntriesRoute.GET w (mkRequest "" [] None)) (table st))
      = NextResponse.json (BRows listed)
      ∧ row ∈ listed.
Proof.
  intros Hnd Hrun Hrow. unfold run, EntriesRoute.POST in Hrun.
  destruct (auth_user w) as [user|] eqn:Hauth; [|fails_with Hrun Hrow].
  destruct (body request) as [b|]; [|fails_with Hrun Hrow]. simpl in Hrun.
  destruct (prop (Some b) "category") as [c|]; [|fails_with Hrun Hrow].
  simpl in Hrun.
  destruct (prop (Some b) "data") as [d|]; [|fails_with Hrun Hrow]. simpl in Hrun.
  destruct (prop (Some b) "confidence") as [q|]; [|fails_with Hrun Hrow].
  simpl in Hrun.
  destruct (prop (Some b) "needs_review") as [n|]; [|fails_with Hrun Hrow].
  simpl in Hrun.
  destruct (prop (Some b) "linked_entries") as [l|]; [|fails_with Hrun Hrow].
  simpl in Hrun. unfold mbind, M_bind, mret, M_ret in Hrun.
  match type of Hrun with context [insert_row w ?p ?st0] =>
    pose proof (insert_fresh w p st0) as Hins;
    destruct (insert_row w p st0) as [r st']
  end.
  cbn [fst snd table trace] in Hins.
  destruct (single r) as [new|err]; [|fails_with Hrun Hrow].
  injection Hrun as <- <-. cbn in Hrow. injection Hrow as ->.
  destruct (Hins row eq_refl) as (Hup & Hdec & Hfresh & ->). cbn [table].
  apply row_of_insert_columns in Hdec as (_ & _ & Harc & Husr & _).
  rewrite object_lookup in Harc, Husr. cbn in Harc, Husr.
  injection Harc as Harc. injection Husr as Husr.
  assert (Hkeys : NoDup (id <$> (rows ++ [row])%list)).
  { rewrite fmap_app. apply NoDup_app. split_and!; [done| |apply NoDup_singleton].
    intros i Hi Hi'. apply list_elem_of_fmap in Hi as (x & -> & Hx).
    apply list_elem_of_singleton in Hi'. by apply (Hfresh x). }
  assert (Hmem : row ∈ (rows ++ [row])%list).
  { apply elem_of_app. right. by left. }
  split_and!; try done.
  - by rewrite Husr.
  - intros q' b'. unfold run, EntryRoute.GET. rewrite Hauth.
    unfold mbind, M_bind, select_where, mret, M_ret. cbn. rewrite Hup.
    by rewrite (filter_own_row user (id row) _ row).
  - eexists. split.
    + by apply (GET_listing w user "" [] None _ false).
    + apply listed_iff. by rewrite <- Harc.
Qed.

(** Alice creates an idea; the body names Bob as its owner. *)
Lemma created_entry_reads_back_witness :
  let request :=
    mkRequest "" []
      (Some (JObj (<["category" := JStr "ideas"]>
                     (<["data" := JObj {["insight" := JStr "sleep more"]}]>
                        {["user_id" := JStr "bob"]})))) in
  let w := alice_world None in
  ∃ row,
    fst (run (EntriesRoute.POST w request) sample_table)
    = NextResponse.json (BRow row)
    ∧ auth_user w = Some (user_id row)
    ∧ table (snd (run (EntriesRoute.POST w request) sample_table))
      = (sample_table ++ [row])%list
    ∧ NoDup (id <$> table (snd (run (EntriesRoute.POST w request) sample_table)))
    ∧ (∀ q b,
         run (EntryRoute.GET w (mkRequest (id row) q b))
           (table (snd (run (EntriesRoute.POST w request) sample_table)))
         = (NextResponse.json (BRow row),
            mkSt (table (snd (run (EntriesRoute.POST w request) sample_table)))
              [StoreQuery]))
    ∧ ∃ listed,
        fst (run (EntriesRoute.GET w (mkRequest "" [] None))
               (table (snd (run (EntriesRoute.POST w request) sample_table))))
        = NextResponse.json (BRows listed)
        ∧ row ∈ listed.
Proof.
  intros request w. eexists. split; [reflexivity|].
  apply (created_entry_reads_back w request sample_table _ _ _ sample_table_keys
           (surjective_pairing _)).
  reflexivity.
Defined.

(** ** What a request may do to the table *)

#[local] Instance confined_preorder (user : string) : PreOrder (confined user).
Proof.
  split.
  - by intros rows.
  - intros a b c [H1 H2] [H3 H4]. split; [congruence | auto].
Qed.

#[local] Instance retained_preorder : PreOrder retained.
Proof.
  split.
  - intros rows. by unfold retained.
  - intros a b c. unfold retained. by etrans.
Qed.

Section Keeps.
Context (R : relation (list Entry)) `{!PreOrder R}.

Lemma keeps_ret {A} (a : A) : keeps R (mret a : M A).
Proof. by intros st. Qed.

Lemma keeps_bind {A B} (c : M A) (f : A → M B) :
  keeps R c → (∀ a, keeps R (f a)) → keeps R (c ≫= f).
Proof.
  intros Hc Hf st. unfold mbind, M_bind.
  pose proof (Hc st) as H1. destruct (c st) as [a st']. cbn [snd] in H1.
  etrans; [exact H1 | apply Hf].
Qed.

Lemma keeps_emit (e : Event) : keeps R (emit e).
Proof. by intros st. Qed.

Lemma keeps_select (w : World) (sel : Entry → bool) : keeps R (select_where w sel).
Proof. by intros st. Qed.

End Keeps.

Lemma confined_insert (user : string) (w : World) (p : gmap string json) :
  p !! "user_id" = Some (JStr user) → keeps (confined user) (insert_row w p).
Proof.
  intros Hp st. unfold insert_row. destruct (store_up w); [|done].
  destruct (row_of_insert w p) as [e|] eqn:Hrow; [|done].
  destruct (existsb _ _) eqn:Hex; [done|]. cbn.
  apply row_of_insert_columns in Hrow as (_ & _ & _ & Hu & _).
  rewrite Hp in Hu. injection Hu as Hu. split.
  - unfold others. rewrite filter_app, filter_cons_False by (by intros []).
    by rewrite filter_nil, app_nil_r.
  - intros Hnd. rewrite fmap_app. apply NoDup_app.
    split_and!; [done| |apply NoDup_singleton].
    intros i Hi Hi'. apply list_elem_of_fmap in Hi as (x & -> & Hx).
    apply list_elem_of_singleton in Hi'.
    assert (existsb (λ x, String.eqb (id x) (id e)) (table st) = true) as Hc;
      [|congruence].
    apply existsb_exists. exists x. split; [by apply list_elem_of_In|].
    by apply String.eqb_eq.
Qed.

Lemma patch_rows_ids (w : World) (sel : Entry → bool) (p : gmap string json)
    (rows rows' hit : list Entry) :
  patch_rows w sel p rows = Some (rows', hit) → id <$> rows' = id <$> rows.
Proof.
  revert rows' hit. induction rows as [|e rows IH]; intros rows' hit; cbn.
  - by intros [= <- <-].
  - destruct (patch_rows w sel p rows) as [[t' h']|]; [|done]. cbn.
    pose proof (IH t' h' eq_refl) as IH'. destruct (sel e).
    + destruct (apply_patch w p e) as [e'|] eqn:Hp; [|done]. cbn.
      intros [= <- <-].
      destruct (apply_patch_keeps _ _ _ _ Hp) as (Hid & _). cbn.
      by rewrite Hid, IH'.
    + intros [= <- <-]. cbn. by rewrite IH'.
Qed.

Lemma patch_rows_others (w : World) (user : string) (sel : Entry → bool)
    (p : gmap string json) (rows rows' hit : list Entry) :
  (∀ e, sel e = true → user_id e = user) →
  patch_rows w sel p rows = Some (rows', hit) →
  others user rows' = others user rows.
Proof.
  intros Hsel. revert rows' hit.
  induction rows as [|e rows IH]; intros rows' hit; cbn.
  - by intros [= <- <-].
  - destruct (patch_rows w sel p rows) as [[t' h']|]; [|done]. cbn.
    pose proof (IH t' h' eq_refl) as IH'. unfold others in *.
    destruct (sel e) eqn:He.
    + destruct (apply_patch w p e) as [e'|] eqn:Hp; [|done]. cbn.
      intros [= <- <-].
      destruct (apply_patch_keeps _ _ _ _ Hp) as (_ & Hu & _).
      assert (Hown : user_id e = user) by by apply Hsel.
      rewrite filter_cons_False by (intros Hne; apply Hne; by rewrite Hu).
      by case_decide.
    + intros [= <- <-]. by rewrite filter_cons, IH'.
Qed.

Lemma confined_update (user : string) (w : World) (sel : Entry → bool)
    (p : gmap string json) :
  (∀ e, sel e = true → user_id e = user) →
  keeps (confined user) (update_where w sel p).
Proof.
  intros Hsel st. unfold update_where. destruct (store_up w); [|done].
  destruct (patch_rows w sel p (table st)) as [[rows' hit]|] eqn:Hp;
    [|done].
  cbn. split; [by apply (patch_rows_others w user sel p _ _ hit)|].
  by rewrite (patch_rows_ids _ _ _ _ _ _ Hp).
Qed.

Lemma NoDup_id_filter (P : Entry → Prop) `{!∀ e, Decision (P e)}
    (rows : list Entry) :
  NoDup (id <$> rows) → NoDup (id <$> filter P rows).
Proof.
  induction rows as [|e rows IH]; [done|].
  rewrite fmap_cons, filter_cons. intros [Hfresh Hnd]%NoDup_cons.
  case_decide; [|by apply IH]. rewrite fmap_cons. apply NoDup_cons.
  split; [|by apply IH]. intros Hin. apply Hfresh.
  apply list_elem_of_fmap in Hin as (x & Hx & Hin). rewrite Hx.
  apply list_elem_of_fmap_2. by apply list_elem_of_filter in Hin as [_ ?].
Qed.

Lemma confined_delete (user : string) (w : World) (sel : Entry → bool) :
  (∀ e, sel e = true → user_id e = user) →
  keeps (confined user) (delete_where w sel).
Proof.
  intros Hsel st. unfold delete_where. destruct (store_up w); [|done].
  cbn. split; [|apply NoDup_id_filter].
  unfold others. rewrite list_filter_filter. apply list_filter_iff.
  intros e. split; [tauto|]. intros Hne. split; [done|].
  apply not_true_is_false. intros Ht. by apply Hne, Hsel.
Qed.

Lemma own_selector (user i : string) (e : Entry) :
  (eq_id i e && eq_user user e) = true → user_id e = user.
Proof. intros [_ Hu]%andb_true_iff. by apply eq_user_true. Qed.

Lemma retained_insert (w : World) (p : gmap string json) :
  keeps retained (insert_row w p).
Proof.
  intros st. unfold insert_row. destruct (store_up w); [|done].
  destruct (row_of_insert w p) as [e|]; [|done].
  destruct (existsb _ _); [done|]. cbn. unfold retained.
  rewrite fmap_app. by apply prefix_app_r.
Qed.

Lemma retained_update (w : World) (sel : Entry → bool) (p : gmap string json) :
  keeps retained (update_where w sel p).
Proof.
  intros st. unfold update_where. destruct (store_up w); [|done].
  destruct (patch_rows w sel p (table st)) as [[rows' hit]|] eqn:Hp; [|done].
  cbn. unfold retained. by rewrite (patch_rows_ids _ _ _ _ _ _ Hp).
Qed.

(** Walking through the monadic steps and the case distinctions of a
    handler. *)
Ltac keeps_walk :=
  repeat first
    [ apply keeps_ret; apply _
    | apply keeps_emit; apply _
    | apply keeps_select; apply _
    | apply confined_update; intros ?; apply own_selector
    | apply confined_delete; intros ?; apply own_selector
    | apply confined_insert; rewrite object_lookup; reflexivity
    | apply retained_update
    | apply retained_insert
    | apply keeps_bind; [apply _| |intros ?]
    | match goal with
      | |- keeps _ (match mbind _ ?x with _ => _ end) =>
          destruct x; cbn [mbind option_bind]; cbv beta iota
      | |- keeps _ (match ?x with _ => _ end) => destruct x
      | |- keeps _ (if ?x then _ else _) => destruct x
      end ].

Ltac open_handlers :=
  unfold CaptureRoute.POST, EntriesRoute.GET, EntriesRoute.POST, EntryRoute.GET,
    EntryRoute.PATCH, EntryRoute.DELETE, IdeaChatRoute.POST, IdeaSaveRoute.POST,
    ProjectChatRoute.POST, TaskChatRoute.POST, SummaryRoute.GET,
    SummaryRouteEarlier.GET, IdeaSuggestionsRoute.GET, ProjectSuggestionsRoute.GET,
    DistanceRoute.GET, gate_user, gate_user_or_error.

Lemma api_confined
    (rest : Endpoint → string → World → Request → M Response)
    (fetched : option json) (ep : Endpoint) (w : World) (request : Request)
    (user : string) :
  (∀ ep' w' r, keeps (confined user) (rest ep' user w' r)) →
  auth_user w = Some user →
  keeps (confined user) (api rest fetched ep w request).
Proof.
  intros Hrest Hauth.
  destruct ep; cbn [api dispatch]; open_handlers;
    try (progress destruct (auth_error w)); try rewrite Hauth;
    cbv beta iota zeta; try apply Hrest; keeps_walk.
Qed.

(** X4. A request of a signed-in caller is confined to the caller's own
    rows, whatever the endpoint, the parameters, the body and the answers
    of the model and of the maps service: the rows of every other user are
    in the table afterwards exactly as before, and a table whose ids are
    unique has unique ids afterwards. (For the export and the two PDF
    routes this is assumed of what they do for a signed-in caller.) *)
Theorem requests_are_confined_to_own_rows
    (rest : Endpoint → string → World → Request → M Response)
    (fetched : option json) (ep : Endpoint) (w : World) (request : Request)
    (user : string) (rows : list Entry) :
  (∀ ep' w' r, keeps (confined user) (rest ep' user w' r)) →
  auth_user w = Some user →
  let after := table (snd (run (api rest fetched ep w request) rows)) in
  filter (λ e, user_id e ≠ user) after = filter (λ e, user_id e ≠ user) rows
  ∧ (NoDup (id <$> rows) → NoDup (id <$> after)).
Proof.
  intros Hrest Hauth.
  apply (api_confined rest fetched ep w request user Hrest Hauth (mkSt rows [])).
Qed.

(** Alice deletes her task: the task of Bob stays. *)
Lemma requests_are_confined_to_own_rows_witness :
  let after :=
    table (snd (run (api (λ _ _ _ _, mret unauthorized) None DeleteOne
                       (alice_world None) (mkRequest "id-1" [] None))
                  sample_table)) in
  filter (λ e, user_id e ≠ "alice") after
  = filter (λ e, user_id e ≠ "alice") sample_table
  ∧ (NoDup (id <$> sample_table) → NoDup (id <$> after)).
Proof.
  apply (requests_are_confined_to_own_rows (λ _ _ _ _, mret unauthorized) None
           DeleteOne (alice_world None) (mkRequest "id-1" [] None) "alice"
           sample_table).
  - intros ep' w' r st. split; [reflexivity | exact (λ H, H)].
  - reflexivity.
Defined.

Lemma api_retained
    (rest : Endpoint → string → World → Request → M Response)
    (fetched : option json) (ep : Endpoint) (w : World) (request : Request) :
  (∀ ep' u w' r, keeps retained (rest ep' u w' r)) →
  ep ≠ DeleteOne →
  keeps retained (api rest fetched ep w request).
Proof.
  intros Hrest Hep.
  destruct ep; try done; cbn [api dispatch]; open_handlers;
    cbv beta iota zeta; keeps_walk; apply Hrest.
Qed.

(** X5. Delete-one is the only endpoint that removes an entry: after a
    request to any other endpoint the ids of the table are the ids it had
    before, in their order, followed by the ids of the entries the request
    created. (For the export and the two PDF routes this is assumed of
    what they do for a signed-in caller.) *)
Theorem only_delete_removes_entries
    (rest : Endpoint → string → World → Request → M Response)
    (fetched : option json) (ep : Endpoint) (w : World) (request : Request)
    (rows : list Entry) :
  (∀ ep' u w' r, keeps retained (rest ep' u w' r)) →
  ep ≠ DeleteOne →
  ∃ created,
    id <$> table (snd (run (api rest fetched ep w request) rows))
    = ((id <$> rows) ++ created)%list.
Proof.
  intros Hrest Hep.
  apply (api_retained rest fetched ep w request Hrest Hep (mkSt rows [])).
Qed.

(** Alice archives her task through update-one. *)
Lemma only_delete_removes_entries_witness :
  ∃ created,
    id <$> table (snd (run (api (λ _ _ _ _, mret unauthorized) None UpdateOne
                              (alice_world None)
                              (mkRequest "id-1" []
                                 (Some (JObj {["archived" := JBool true]}))))
                         sample_table))
    = ((id <$> sample_table) ++ created)%list.
Proof.
  apply (only_delete_removes_entries (λ _ _ _ _, mret unauthorized) None UpdateOne
           (alice_world None)
           (mkRequest "id-1" [] (Some (JObj {["archived" := JBool true]})))
           sample_table).
  - intros ep' u w' r st. exists []. symmetry. apply app_nil_r.
  - discriminate.
Defined.

(** X6. The listing, read-one, the digest (in both revisions), the
    suggestions of an idea and the distance route never write: whatever
    the caller, the parameters, the state of the store and the answers of
    the model and of the maps service, the table is afterwards what it
    was. (The suggestions of a project are a read that writes: see X21.) *)
Theorem reads_never_write (w : World) (fetched : option json) (request : Request)
    (rows : list Entry) :
  table (snd (run (EntriesRoute.GET w request) rows)) = rows
  ∧ table (snd (run (EntryRoute.GET w request) rows)) = rows
  ∧ table (snd (run (SummaryRoute.GET w) rows)) = rows
  ∧ table (snd (run (SummaryRouteEarlier.GET w) rows)) = rows
  ∧ table (snd (run (IdeaSuggestionsRoute.GET w request) rows)) = rows
  ∧ table (snd (run (DistanceRoute.GET w fetched request) rows)) = rows.
Proof.
  assert (H5 : keeps eq (IdeaSuggestionsRoute.GET w request))
    by (open_handlers; cbv beta iota zeta; keeps_walk).
  assert (H6 : keeps eq (DistanceRoute.GET w fetched request))
    by (open_handlers; cbv beta iota zeta; keeps_walk).
  assert (H1 : keeps eq (EntriesRoute.GET w request))
    by (open_handlers; cbv beta iota zeta; keeps_walk).
  assert (H2 : keeps eq (EntryRoute.GET w request))
    by (open_handlers; cbv beta iota zeta; keeps_walk).
  assert (H3 : keeps eq (SummaryRoute.GET w))
    by (open_handlers; cbv beta iota zeta; keeps_walk).
  assert (H4 : keeps eq (SummaryRouteEarlier.GET w))
    by (open_handlers; cbv beta iota zeta; keeps_walk).
  split_and!; symmetry;
    [apply (H1 (mkSt rows [])) | apply (H2 (mkSt rows []))
     | apply (H3 (mkSt rows [])) | apply (H4 (mkSt rows []))
     | apply (H5 (mkSt rows [])) | apply (H6 (mkSt rows []))].
Qed.

(** ** The listing *)

Lemma insert_desc_perm (e : Entry) (l : list Entry) : insert_desc e l ≡ₚ e :: l.
Proof.
  induction l as [|x l IH]; [done|]. cbn.
  destruct (String.leb _ _); [done|]. rewrite IH. apply Permutation_swap.
Qed.

Lemma order_desc_perm (l : list Entry) : order_desc l ≡ₚ l.
Proof.
  induction l as [|e l IH]; [done|]. cbn.
  by rewrite insert_desc_perm, IH.
Qed.

Lemma insert_desc_sorted (e : Entry) (l : list Entry) :
  newest_first l → newest_first (insert_desc e l).
Proof.
  induction l as [|x l IH]; [done|]. intros [Hx Hl]. cbn [insert_desc].
  destruct (String.leb (created_at x) (created_at e)) eqn:Hle.
  - by split_and!.
  - assert (Hex : String.leb (created_at e) (created_at x) = true).
    { destruct (String.leb_total (created_at e) (created_at x)); congruence. }
    specialize (IH Hl). split; [|done].
    destruct l as [|y l]; [done|]. cbn [insert_desc] in *.
    by destruct (String.leb (created_at y) (created_at e)).
Qed.

Lemma order_desc_sorted (l : list Entry) : newest_first (order_desc l).
Proof. induction l as [|e l IH]; [done|]. by apply insert_desc_sorted. Qed.

(** X7. For a signed-in caller and a working store, the listing answers
    with rows of the table, each as often as the table holds it, newest
    first. A row is listed exactly when it belongs to the caller and
    passes the filters: a non-empty [category] parameter names its
    category; with [archived=only] its archived flag is true, with
    [archived=true] the flag may be anything, with any other value and
    without the parameter the flag is false; with [needs_review=true] its
    review flag is true. *)
Theorem listing_is_complete_and_newest_first (w : World) (user : string)
    (request : Request) (rows : list Entry) :
  auth_user w = Some user → store_up w = true →
  let q := query request in
  ∃ listed kept,
    run (EntriesRoute.GET w request) rows
    = (NextResponse.json (BRows listed), mkSt rows [StoreQuery])
    ∧ kept `sublist_of` rows ∧ listed ≡ₚ kept
    ∧ newest_first listed
    ∧ ∀ e, e ∈ listed ↔
        e ∈ rows ∧ user_id e = user
        ∧ (∀ c, searchParams_get q "category" = Some c → c ≠ "" →
                category_name (category e) = c)
        ∧ (searchParams_get q "archived" = Some "only" → archived e = Some true)
        ∧ (searchParams_get q "archived" ≠ Some "only" →
           searchParams_get q "archived" ≠ Some "true" → archived e = Some false)
        ∧ (searchParams_get q "needs_review" = Some "true" →
           needs_review e = Some true).
Proof.
  intros Hauth Hup q. unfold run, EntriesRoute.GET. rewrite Hauth.
  unfold mbind, M_bind, select_where, mret, M_ret. cbn. rewrite Hup. cbn.
  fold q.
  match goal with |- context [order_desc ?l] => exists (order_desc l), l end.
  split_and!; [reflexivity|apply sublist_filter| |..].
  - apply order_desc_perm.
  - apply order_desc_sorted.
  - intros e. rewrite order_desc_elem, list_elem_of_filter, !andb_true_iff.
    rewrite eq_user_true.
    assert (Hcat :
      match searchParams_get q "category" with
      | Some c => if String.eqb c "" then true else eq_category c e
      | None => true
      end = true
      ↔ ∀ c, searchParams_get q "category" = Some c → c ≠ "" →
             category_name (category e) = c).
    { destruct (searchParams_get q "category") as [c|]; [|by split].
      destruct (String.eqb_spec c "") as [->|Hne].
      - split; [|done]. by intros _ c' [= <-].
      - unfold eq_category. rewrite String.eqb_eq. split.
        + by intros Hc c' [= <-] _.
        + intros Hc. by apply Hc. }
    assert (Harc :
      match searchParams_get q "archived" with
      | Some a =>
          if String.eqb a "only" then eq_archived true e
          else if negb (String.eqb a "true") then eq_archived false e else true
      | None => eq_archived false e
      end = true
      ↔ (searchParams_get q "archived" = Some "only" → archived e = Some true)
        ∧ (searchParams_get q "archived" ≠ Some "only" →
           searchParams_get q "archived" ≠ Some "true" →
           archived e = Some false)).
    { destruct (searchParams_get q "archived") as [a|].
      - destruct (String.eqb_spec a "only") as [->|Hne].
        + rewrite eq_archived_true. split; [by split|]. intros [H _]. by apply H.
        + destruct (String.eqb_spec a "true") as [->|Hne']; cbn.
          * split; [|done]. intros _. by split.
          * rewrite eq_archived_true. split.
            -- intros Ha. split; [by intros [= ->]|done].
            -- intros [_ H]. apply H; by intros [= ->].
      - rewrite eq_archived_true. split; [by split|]. intros [_ H]. by apply H. }
    assert (Hrev :
      (if match searchParams_get q "needs_review" with
          | Some v => String.eqb v "true"
          | None => false
          end
       then eq_needs_review true e else true) = true
      ↔ (searchParams_get q "needs_review" = Some "true" →
         needs_review e = Some true)).
    { destruct (searchParams_get q "needs_review") as [v|]; [|by split].
      destruct (String.eqb_spec v "true") as [->|Hne].
      - unfold eq_needs_review. rewrite eq_flag_true. split; [done|].
        intros H. by apply H.
      - split; [|done]. by intros _ [= ->]. }
    rewrite Hcat, Harc, Hrev. tauto.
Qed.

(** Alice lists everything she has, archived or not. *)
Lemma listing_is_complete_and_newest_first_witness :
  let request := mkRequest "" [("archived", "true")] None in
  let q := query request in
  ∃ listed kept,
    run (EntriesRoute.GET (alice_world None) request) sample_table
    = (NextResponse.json (BRows listed), mkSt sample_table [StoreQuery])
    ∧ kept `sublist_of` sample_table ∧ listed ≡ₚ kept
    ∧ newest_first listed
    ∧ ∀ e, e ∈ listed ↔
        e ∈ sample_table ∧ user_id e = "alice"
        ∧ (∀ c, searchParams_get q "category" = Some c → c ≠ "" →
                category_name (category e) = c)
        ∧ (searchParams_get q "archived" = Some "only" → archived e = Some true)
        ∧ (searchParams_get q "archived" ≠ Some "only" →
           searchParams_get q "archived" ≠ Some "true" → archived e = Some false)
        ∧ (searchParams_get q "needs_review" = Some "true" →
           needs_review e = Some true).
Proof.
  apply (listing_is_complete_and_newest_first (alice_world None) "alice"
           (mkRequest "" [("archived", "true")] None) sample_table);
    reflexivity.
Defined.

(** ** Classify and create *)

(** X8. Classify-and-create wants a text: when the body carries no [text],
    an empty one or one that is not a string, the answer is 400, and when
    the body cannot be read or is [null] it is 500; in both cases neither
    the model nor the store is called and the table stays as it is. *)
Theorem capture_requires_text (w : World) (user : string) (request : Request)
    (rows : list Entry) :
  auth_user w = Some user →
  (∀ b t, body request = Some b → prop (Some b) "text" = Some (Some (JStr t)) →
          t = "") →
  run (CaptureRoute.POST w request) rows
  = (match b ← body request; prop (Some b) "text" with
     | Some _ => NextResponse.json_status (BError "Text is required") 400
     | None => NextResponse.json_status (BError "Internal server error") 500
     end,
     mkSt rows []).
Proof.
  intros Hauth Htext. unfold run, CaptureRoute.POST. rewrite Hauth.
  destruct (body request) as [b|]; [|done]. cbn.
  destruct (prop (Some b) "text") as [[[| | |t| |]|]|] eqn:Hp; try done.
  by rewrite (Htext b t eq_refl Hp).
Qed.

(** Alice sends a number where the text should be. *)
Lemma capture_requires_text_witness :
  run (CaptureRoute.POST (alice_world (Some "{}"))
         (mkRequest "" [] (Some (JObj {["text" := JNum 5]}))))
    sample_table
  = (NextResponse.json_status (BError "Text is required") 400,
     mkSt sample_table []).
Proof.
  apply (capture_requires_text (alice_world (Some "{}")) "alice"
           (mkRequest "" [] (Some (JObj {["text" := JNum 5]}))) sample_table).
  - reflexivity.
  - intros b t [= <-]. discriminate.
Defined.



Lemma some_mentioned_spec (w : World) (name : string) (names : list string) :
  CaptureRoute.some_mentioned w name (JStr <$> names)
  = Some (existsb (λ m, includes name (toLowerCase w m)) names).
Proof.
  induction names as [|m names IH]; [done|]. cbn.
  destruct (includes name (toLowerCase w m)); [done|]. by rewrite IH.
Qed.

Lemma link_people_spec (w : World) (names : list string) (rows : list Entry)
    (linked : list string) :
  CaptureRoute.link_people w (Some (JArr (JStr <$> names))) rows = Some linked →
  ∀ i, i ∈ linked ↔
    ∃ p name m, p ∈ rows ∧ id p = i
      ∧ prop (Some (data p)) "name" = Some (Some (JStr name))
      ∧ m ∈ names ∧ includes (toLowerCase w name) (toLowerCase w m) = true.
Proof.
  revert linked. induction rows as [|e rows IH]; intros linked; cbn.
  - intros [= <-] i. split; [by intros ?%elem_of_nil|].
    by intros (p & ? & ? & ?%elem_of_nil & _).
  - unfold CaptureRoute.lowered_name.
    destruct (prop (Some (data e)) "name") as [[[| | |s| |]|]|] eqn:Hname;
      try done; cbn.
    + destruct (CaptureRoute.link_people _ _ rows) as [rest|]; [|done]. cbn.
      intros [= <-] i. rewrite (IH rest eq_refl i). split.
      * intros (p & name & m & Hp & Hrest). exists p, name, m. split; [by right|done].
      * intros (p & name & m & [->|Hp]%elem_of_cons & Hid & Hn & Hrest);
          [congruence|]. by exists p, name, m.
    + rewrite some_mentioned_spec. cbn.
      destruct (CaptureRoute.link_people _ _ rows) as [rest|]; [|done]. cbn.
      intros [= <-] i.
      destruct (existsb _ names) eqn:Hex.
      * rewrite elem_of_cons, (IH rest eq_refl i). split.
        -- intros [->|(p & name & m & Hp & Hrest)].
           ++ apply existsb_exists in Hex as (m & Hm & Hinc).
              exists e, s, m. split_and!; try done; [left|by apply list_elem_of_In].
           ++ exists p, name, m. split; [by right|done].
        -- intros (p & name & m & [->|Hp]%elem_of_cons & Hid & Hn & Hrest);
             [by left|]. right. by exists p, name, m.
      * rewrite (IH rest eq_refl i). split.
        -- intros (p & name & m & Hp & Hrest). exists p, name, m.
           split; [by right|done].
        -- intros (p & name & m & [->|Hp]%elem_of_cons & Hid & Hn & Hm & Hinc).
           ++ exfalso. rewrite Hname in Hn. injection Hn as ->.
              assert (existsb
                        (λ m, includes (toLowerCase w name) (toLowerCase w m))
                        names = true) as Hc; [|congruence].
              apply existsb_exists. exists m.
              split; [by apply list_elem_of_In|done].
           ++ by exists p, name, m.
    + destruct (CaptureRoute.link_people _ _ rows) as [rest|]; [|done]. cbn.
      intros [= <-] i. rewrite (IH rest eq_refl i). split.
      * intros (p & name & m & Hp & Hrest). exists p, name, m. split; [by right|done].
      * intros (p & name & m & [->|Hp]%elem_of_cons & Hid & Hn & Hrest);
          [congruence|]. by exists p, name, m.
Qed.

Lemma row_of_insert_linked (w : World) (p : gmap string json) (row : Entry) :
  row_of_insert w p = Some row →
  column (as_list w) (p !! "linked_entries") (Some []) = Some (linked_entries row)
  ∧ as_category (p !! "category") = Some (category row)
  ∧ as_data (p !! "data") = Some (data row)
  ∧ created_at row = toISOString (now w) ∧ updated_at row = toISOString (now w).
Proof.
  unfold row_of_insert. intros H.
  destruct (as_category (p !! "category")); [|done].
  destruct (as_data (p !! "data")); [|done].
  destruct (column (as_float w) (p !! "confidence") None); [|done].
  destruct (column (as_flag w) (p !! "needs_review") (Some false)); [|done].
  destruct (column (as_flag w) (p !! "archived") (Some false)); [|done].
  destruct (column (as_list w) (p !! "linked_entries") (Some [])); [|done].
  destruct (as_string (p !! "user_id")); [|done].
  simpl in H. by inversion H.
Qed.

(** X10. The entry that classify-and-create stores is linked to the people
    the model says are mentioned: its [linked_entries] are exactly the ids
    of the caller's own people entries with the archived flag false whose
    name contains one of the mentioned names, both taken through
    [toLowerCase] before they are compared. *)
Theorem capture_links_mentioned_people (w : World) (request : Request)
    (rows : list Entry) (resp : Response) (st : St) (entry : Entry) (nr : bool)
    (names : list string) :
  run (CaptureRoute.POST w request) rows = (resp, st) →
  payload resp = BCapture entry nr (Some (JArr (JStr <$> names))) →
  ∃ linked,
    linked_entries entry = Some linked
    ∧ ∀ i, i ∈ linked ↔
        ∃ p name m, p ∈ rows ∧ id p = i
          ∧ category p = people ∧ archived p = Some false
          ∧ auth_user w = Some (user_id p)
          ∧ prop (Some (data p)) "name" = Some (Some (JStr name))
          ∧ m ∈ names
          ∧ includes (toLowerCase w name) (toLowerCase w m) = true.
Proof.
  unfold run, CaptureRoute.POST. intros H Hp.
  destruct (auth_user w) as [user|]; [|fails_with H Hp].
  destruct (body request ≫= _) as [[[| | |t| |]|]|]; try fails_with H Hp.
  destruct (String.eqb t ""); [fails_with H Hp|].
  run_in H.
  destruct (model_reply w) as [raw|]; [|fails_with H Hp].
  destruct (JSON_parse (strip_fences raw)) as [result|]; [|fails_with H Hp].
  destruct (prop (Some result) "confidence") as [conf|]; [|fails_with H Hp].
  destruct (prop (Some result) "mentionedPeople") as [mentioned|];
    [|fails_with H Hp].
  destruct (prop (Some result) "category") as [cat|]; [|fails_with H Hp].
  destruct (prop (Some result) "data") as [dat|]; [|fails_with H Hp].
  destruct (CaptureRoute.below_threshold w conf) as [needsReview|];
    [|fails_with H Hp].
  match type of H with context [let '(_, _) := ?c ?s in _] =>
    destruct (c s) as [[linked|] st1] eqn:Hlink end; [|fails_with H Hp].
  match type of H with context [insert_row w ?p ?s] =>
    pose proof (insert_fresh w p s) as Hins;
    destruct (insert_row w p s) as [r st2] end.
  cbn [fst snd] in Hins.
  destruct (single r) as [row|]; [|fails_with H Hp].
  destruct (Hins row eq_refl) as (Hup & Hrow & _).
  injection H as <- <-. cbn in Hp. injection Hp as -> <- ->.
  apply row_of_insert_linked in Hrow as (Hl & _).
  rewrite object_lookup in Hl. cbn in Hl. rewrite as_strings_strs in Hl.
  injection Hl as <-. exists linked. split; [done|].
  destruct names as [|n names].
  - cbn in Hlink. injection Hlink as <- _. intros i. split.
    + intros Hi. by apply elem_of_nil in Hi.
    + intros (? & ? & ? & _ & _ & _ & _ & _ & _ & Hi & _).
      by apply elem_of_nil in Hi.
  - cbn in Hlink. unfold mbind, M_bind, select_where, mret, M_ret in Hlink.
    cbn in Hlink. rewrite Hup in Hlink. injection Hlink as Hlink _.
    intros i.
    rewrite (link_people_spec w (n :: names) _ linked Hlink i). split.
    + intros (p & name & m & Hin & Hid & Hname & Hm & Hinc).
      apply list_elem_of_filter in Hin as [Hsel Hin].
      apply andb_true_iff in Hsel as [Hsel Hu].
      apply andb_true_iff in Hsel as [Hc Ha].
      apply eq_user_true in Hu. apply eq_archived_true in Ha.
      apply (eq_category_true people) in Hc.
      exists p, name, m. split_and!; try done. by rewrite Hu.
    + intros (p & name & m & Hin & Hid & Hc & Ha & Hu & Hname & Hm & Hinc).
      exists p, name, m. split_and!; try done.
      apply list_elem_of_filter. split; [|done].
      rewrite !andb_true_iff. split_and!.
      * by apply (eq_category_true people).
      * by apply eq_archived_true.
      * apply eq_user_true. by injection Hu.
Qed.

(** Alice mentions Sam; she knows a Samuel and a Tom, and so does Bob. *)
Lemma capture_links_mentioned_people_witness :
  let person i name owner :=
    mkEntry i people (JObj {["name" := JStr name]}) (Some 1%Q) (Some false)
      (Some false) (Some [])
      "2024-01-05T00:00:00.000Z" "2024-01-05T00:00:00.000Z" owner in
  let rows := [person "id-5" "Samuel" "alice"; person "id-6" "Tom" "alice";
               person "id-7" "Sam" "bob"] in
  let w :=
    alice_world
      (Some (dq "{'category':'tasks','confidence':0.9,'data':{'task':'call sam'},'mentionedPeople':['sam']}")) in
  let request := mkRequest "" [] (Some (JObj {["text" := JStr "call sam"]})) in
  ∃ entry,
    fst (run (CaptureRoute.POST w request) rows)
    = NextResponse.json (BCapture entry false (Some (JArr (JStr <$> ["sam"]))))
    ∧ linked_entries entry = Some ["id-5"]
    ∧ ∃ linked,
        linked_entries entry = Some linked
        ∧ ∀ i, i ∈ linked ↔
            ∃ p name m, p ∈ rows ∧ id p = i
              ∧ category p = people ∧ archived p = Some false
              ∧ auth_user w = Some (user_id p)
              ∧ prop (Some (data p)) "name" = Some (Some (JStr name))
              ∧ m ∈ ["sam"]
              ∧ includes (toLowerCase w name) (toLowerCase w m) = true.
Proof.
  intros person rows w request. eexists. split; [reflexivity|].
  split; [reflexivity|].
  apply (capture_links_mentioned_people w request rows _ _ _ false ["sam"]
           (surjective_pairing _)).
  reflexivity.
Defined.

(** ** Code fences *)

Lemma rx_backticks_stops {R} (bol : bool) (c : ascii) (t : string)
    (caps : gmap nat string) (k : bool → string → gmap nat string → option R) :
  is_backtick c = false → rx backticks bol (String c t) caps k = None.
Proof. unfold is_backtick. intros Hc. cbn. by rewrite Hc. Qed.

Lemma rx_backticks_empty {R} (bol : bool) (caps : gmap nat string)
    (k : bool → string → gmap nat string → option R) :
  rx backticks bol "" caps k = None.
Proof. done. Qed.



















(** ** The digest with something to report *)







(** ** A reply without an action block *)

Lemma rep_greedy_none {R} (p q : ascii → bool) (s : string) (k : string → option R) :
  free_of p s = true → (∀ s', free_of p s' = true → k s' = None) →
  rep_greedy q s k = None.
Proof.
  intros Hs Hk. induction s as [|c t IH]; cbn; [by apply Hk|].
  pose proof Hs as Hs'. cbn in Hs'. apply andb_true_iff in Hs' as [_ Ht].
  destruct (q c); [|by apply Hk]. rewrite (IH Ht). by apply Hk.
Qed.

Lemma rep_lazy_none {R} (p q : ascii → bool) (s : string) (k : string → option R) :
  free_of p s = true → (∀ s', free_of p s' = true → k s' = None) →
  rep_lazy q s k = None.
Proof.
  intros Hs Hk. induction s as [|c t IH]; cbn; rewrite (Hk _ Hs); [done|].
  cbn in Hs. apply andb_true_iff in Hs as [_ Ht].
  destruct (q c); [by apply IH|done].
Qed.

(** On a text without a character of [p], a pattern fails when what
    follows it fails on every such text. *)
Lemma rx_none_after {R} (p : ascii → bool) (r : regex) (bol : bool) (s : string)
    (caps : gmap nat string) (k : bool → string → gmap nat string → option R) :
  free_of p s = true →
  (∀ b s' c, free_of p s' = true → k b s' c = None) →
  rx r bol s caps k = None.
Proof.
  revert bol s caps k.
  induction r as [|a|q|r1 IH1 r2 IH2|r1 IH1 r2 IH2|g q|r1 IH1|n r1 IH1| |];
    intros bol s caps k Hs Hk; cbn [rx].
  - by apply Hk.
  - destruct s as [|c t]; [done|]. cbn in Hs. apply andb_true_iff in Hs as [_ Ht].
    destruct (Ascii.eqb c a); [by apply Hk|done].
  - destruct s as [|c t]; [done|]. cbn in Hs. apply andb_true_iff in Hs as [_ Ht].
    destruct (q c); [by apply Hk|done].
  - apply IH1; [done|]. intros b s' c Hs'. by apply IH2.
  - by rewrite IH1, IH2.
  - destruct g; [apply (rep_greedy_none p)|apply (rep_lazy_none p)]; try done.
    all: intros s' Hs'; by apply Hk.
  - rewrite IH1 by done. by apply Hk.
  - apply IH1; [done|]. intros b s' c Hs'. by apply Hk.
  - destruct bol; [by apply Hk|done].
  - destruct s; [by apply Hk|done].
Qed.

Lemma rx_needs {R} (p : ascii → bool) (r : regex) (bol : bool) (s : string)
    (caps : gmap nat string) (k : bool → string → gmap nat string → option R) :
  needs p r = true → free_of p s = true → rx r bol s caps k = None.
Proof.
  revert bol s caps k.
  induction r as [|a|q|r1 IH1 r2 IH2|r1 IH1 r2 IH2|g q|r1 IH1|n r1 IH1| |];
    intros bol s caps k Hr Hs; cbn [needs] in Hr; try discriminate; cbn [rx].
  - destruct s as [|c t]; [done|]. cbn in Hs. apply andb_true_iff in Hs as [Hc _].
    apply negb_true_iff in Hc. destruct (Ascii.eqb_spec c a) as [->|]; [|done].
    congruence.
  - destruct s as [|c t]; [done|]. cbn in Hs. apply andb_true_iff in Hs as [Hc _].
    apply negb_true_iff in Hc. by rewrite (class_included p q c Hr Hc).
  - apply orb_true_iff in Hr as [Hr|Hr]; [by apply IH1|].
    apply (rx_none_after p); [done|]. intros b s' c Hs'. by apply IH2.
  - apply andb_true_iff in Hr as [Hr1 Hr2]. by rewrite IH1, IH2.
  - by apply IH1.
Qed.

Lemma search_needs (p : ascii → bool) (r : regex) (bol : bool) (s : string) :
  needs p r = true → free_of p s = true → search_from r bol s = None.
Proof.
  intros Hr. revert bol. induction s as [|c t IH]; intros bol Hs;
    cbn [search_from]; unfold match_here; rewrite (rx_needs p) by done; [done|].
  cbn in Hs. apply andb_true_iff in Hs as [_ Ht]. by rewrite IH.
Qed.

Lemma no_block_without_brace (reply : string) :
  free_of is_open_brace reply = true →
  js_match TaskChatRoute.action_re reply = None
  ∧ first_match jsonPatterns reply = None.
Proof.
  intros Hs. unfold js_match, first_match, jsonPatterns, js_match.
  by rewrite !(search_needs is_open_brace).
Qed.

(** X13. A reply of the model that holds no opening brace holds no action
    block: the task, project and idea chats then store nothing, and when
    they answer 200 they pass the reply on exactly as it came, untrimmed,
    with the update flag off. *)
Theorem plain_reply_is_passed_on (w : World) (request : Request)
    (rows : list Entry) (reply : string) :
  model_reply w = Some reply → free_of is_open_brace reply = true →
  (∀ resp st,
     run (TaskChatRoute.POST w request) rows = (resp, st) →
     table st = rows
     ∧ (status resp = 200%nat → payload resp = BChat reply false None))
  ∧ (∀ resp st,
       run (ProjectChatRoute.POST w request) rows = (resp, st) →
       table st = rows
       ∧ (status resp = 200%nat → payload resp = BChat reply false None))
  ∧ (∀ resp st,
       run (IdeaChatRoute.POST w request) rows = (resp, st) →
       table st = rows
       ∧ (status resp = 200%nat → payload resp = BChat reply false None)).
Proof.
  intros Hreply Hfree. destruct (no_block_without_brace reply Hfree) as [Hm Hf].
  split_and!; intros resp st H.
  - unfold run, TaskChatRoute.POST in H. rewrite Hreply, Hm in H.
    unfold select_where in H.
    repeat (first [unchanged H | head_case H]).
    all: maps_step; repeat (first [unchanged H | head_case H]).
  - unfold run, ProjectChatRoute.POST in H. rewrite Hreply, Hf in H.
    unfold select_where in H.
    repeat (first [unchanged H | head_case H]).
  - unfold run, IdeaChatRoute.POST in H. rewrite Hreply, Hf in H.
    unfold select_where in H.
    repeat (first [unchanged H | head_case H]).
Qed.

(** The model answers Alice with advice only. *)
Lemma plain_reply_is_passed_on_witness :
  let reply := " Start with the milk. " in
  let w := alice_world (Some reply) in
  run (TaskChatRoute.POST w (chat_request "id-1" "what first?")) sample_table
    = (NextResponse.json (BChat reply false None),
       mkSt sample_table [StoreQuery; StoreQuery; ModelCall])
  ∧ run (ProjectChatRoute.POST w (chat_request "id-3" "what first?")) sample_table
    = (NextResponse.json (BChat reply false None),
       mkSt sample_table [StoreQuery; ModelCall])
  ∧ run (IdeaChatRoute.POST w (chat_request "id-4" "what first?")) sample_table
    = (NextResponse.json (BChat reply false None),
       mkSt sample_table [StoreQuery; ModelCall]).
Proof.
  intros reply w.
  destruct (plain_reply_is_passed_on w (chat_request "id-1" "what first?")
              sample_table reply eq_refl eq_refl) as (Htask & _ & _).
  destruct (plain_reply_is_passed_on w (chat_request "id-3" "what first?")
              sample_table reply eq_refl eq_refl) as (_ & Hproject & _).
  destruct (plain_reply_is_passed_on w (chat_request "id-4" "what first?")
              sample_table reply eq_refl eq_refl) as (_ & _ & Hidea).
  destruct (Htask _ _ (surjective_pairing _)) as [_ _].
  destruct (Hproject _ _ (surjective_pairing _)) as [_ _].
  destruct (Hidea _ _ (surjective_pairing _)) as [_ _].
  split_and!; reflexivity.
Defined.

(** ** Notes and the task chat *)



(** ** Saving an idea *)

Lemma persist_ids (i user : string) (f : Entry → Entry) (rows : list Entry) :
  (∀ e, id (f e) = id e) → id <$> persist i user f rows = id <$> rows.
Proof.
  intros Hf. unfold persist. rewrite <- list_fmap_compose. apply list_fmap_ext.
  intros ? e _. cbn. by destruct (eq_id i e && eq_user user e).
Qed.

Lemma persist_elem (i user : string) (f : Entry → Entry) (rows : list Entry)
    (row : Entry) :
  row ∈ rows → id row = i → user_id row = user → f row ∈ persist i user f rows.
Proof.
  intros Hin Hi Hu. unfold persist. apply list_elem_of_fmap.
  exists row. by rewrite select_own_row.
Qed.

Lemma save_toggle (w : World) (user : string) (request : Request)
    (rows : list Entry) (idea : Entry) (d : gmap string json) :
  auth_error w = false → auth_user w = Some user → store_up w = true →
  NoDup (id <$> rows) → idea ∈ rows →
  id idea = param_id request → user_id idea = user → category idea = ideas →
  data idea = JObj d →
  run (IdeaSaveRoute.POST w request) rows
  = (NextResponse.json
       (BOther (JObj {["saved" := JBool (negb (truthy (d !! "saved")))]})),
     mkSt (persist (param_id request) user
             (with_data (JObj (<["saved" := JBool (negb (truthy (d !! "saved")))]> d))
                (toISOString (now w)))
             rows)
          [StoreQuery; StoreQuery]).
Proof.
  intros Herr Hauth Hup Hnd Hin Hid Hu Hcat Hd.
  unfold run, IdeaSaveRoute.POST. rewrite Herr, Hauth.
  unfold mbind, M_bind, mret, M_ret, select_where, update_where.
  cbn [table trace]. rewrite Hup.
  rewrite (filter_own_row user (param_id request) rows idea) by done.
  cbn [single]. rewrite Hcat. change (negb (category_eqb ideas ideas)) with false.
  rewrite Hd, prop_obj. cbv beta iota zeta. cbn [table trace].
  rewrite patch_rows_data. cbn [is_ok]. unfold spread. done.
Qed.

Lemma persist_persist (i user : string) (f g : Entry → Entry) (rows : list Entry) :
  (∀ e, id (f e) = id e ∧ user_id (f e) = user_id e) →
  persist i user g (persist i user f rows) = persist i user (g ∘ f) rows.
Proof.
  intros Hf. unfold persist. rewrite <- list_fmap_compose. apply list_fmap_ext.
  intros ? e _. cbn. destruct (eq_id i e && eq_user user e) eqn:Hsel; [|by rewrite Hsel].
  destruct (Hf e) as [Hi Hu]. unfold eq_id, eq_user in *. by rewrite Hi, Hu, Hsel.
Qed.

(** X15. The save toggle of an idea of the caller stores the negation of
    the truth value of [saved] (an idea without the field counts as not
    saved), answers with the new value, stamps the row and leaves every
    other field of the idea and every other row as they were. Toggling
    twice gives back the truth value the idea started with. *)
Theorem save_toggles_and_toggles_back (w w' : World) (user : string)
    (request : Request) (rows : list Entry) (idea : Entry) (d : gmap string json) :
  auth_error w = false → auth_user w = Some user → store_up w = true →
  auth_error w' = false → auth_user w' = Some user → store_up w' = true →
  NoDup (id <$> rows) → idea ∈ rows →
  id idea = param_id request → user_id idea = user → category idea = ideas →
  data idea = JObj d →
  let saved := truthy (d !! "saved") in
  let once := run (IdeaSaveRoute.POST w request) rows in
  let twice := run (IdeaSaveRoute.POST w' request) (table (snd once)) in
  fst once = NextResponse.json (BOther (JObj {["saved" := JBool (negb saved)]}))
  ∧ table (snd once)
    = persist (param_id request) user
        (with_data (JObj (<["saved" := JBool (negb saved)]> d)) (toISOString (now w)))
        rows
  ∧ fst twice = NextResponse.json (BOther (JObj {["saved" := JBool saved]}))
  ∧ table (snd twice)
    = persist (param_id request) user
        (with_data (JObj (<["saved" := JBool saved]> d)) (toISOString (now w')))
        rows.
Proof.
  intros Herr Hauth Hup Herr' Hauth' Hup' Hnd Hin Hid Hu Hcat Hd saved once twice.
  subst once twice.
  rewrite (save_toggle w user request rows idea d) by done. cbn [fst snd table].
  set (f := with_data (JObj (<["saved" := JBool (negb saved)]> d))
              (toISOString (now w))).
  rewrite (save_toggle w' user request _ (f idea)
             (<["saved" := JBool (negb saved)]> d)); try done.
  - rewrite lookup_insert_eq. cbn [truthy fst snd table].
    rewrite negb_involutive, insert_insert_eq.
    split_and!; try done. by rewrite persist_persist.
  - by rewrite persist_ids.
  - by apply persist_elem.
Qed.

(** Alice saves her idea and changes her mind. *)
Lemma save_toggles_and_toggles_back_witness :
  let w := alice_world None in
  let request := mkRequest "id-4" [] None in
  let d : gmap string json :=
    <["insight" := JStr "sleep more"]>
      (<["category" := JStr "health"]> {["date" := JStr "2024-01-04"]}) in
  let once := run (IdeaSaveRoute.POST w request) sample_table in
  let twice := run (IdeaSaveRoute.POST w request) (table (snd once)) in
  fst once = NextResponse.json (BOther (JObj {["saved" := JBool true]}))
  ∧ table (snd once)
    = persist "id-4" "alice"
        (with_data (JObj (<["saved" := JBool true]> d)) (toISOString (now w)))
        sample_table
  ∧ fst twice = NextResponse.json (BOther (JObj {["saved" := JBool false]}))
  ∧ table (snd twice)
    = persist "id-4" "alice"
        (with_data (JObj (<["saved" := JBool false]> d)) (toISOString (now w)))
        sample_table.
Proof.
  intros w request d.
  apply (save_toggles_and_toggles_back w w "alice" request sample_table alice_idea d);
    first [reflexivity | apply sample_table_keys | by repeat constructor].
Defined.

(** ** Updates requested by the project and idea chats *)

Lemma project_chat_update (w : World) (request : Request) (rows : list Entry)
    (user : string) (project : Entry) (b action : gmap string json) (u : json)
    (reply matchedJson : string) (m : MatchResult) :
  auth_error w = false → auth_user w = Some user → store_up w = true →
  NoDup (id <$> rows) → project ∈ rows →
  id project = param_id request → user_id project = user →
  category project = projects →
  body request = Some (JObj b) →
  ProjectChatRoute.prompt_ok (data project) (b !! "suggestions") = true →
  model_reply w = Some reply →
  first_match jsonPatterns reply = Some (m, matchedJson) →
  JSON_parse (cleanJson matchedJson) = Some (JObj action) →
  action !! "action" = Some (JStr "update") →
  action !! "updates" = Some u → truthy (Some u) = true →
  run (ProjectChatRoute.POST w request) rows
  = (NextResponse.json
       (BChat (trim (remove_first (m_text m) reply)) true
          (ProjectChatRoute.validate_status (Some u))),
     mkSt (persist (param_id request) user
             (with_data
                (JObj (merge (spread (Some (data project)))
                         (spread (ProjectChatRoute.validate_status (Some u)))))
                (toISOString (now w)))
             rows)
          [StoreQuery; ModelCall; StoreQuery]).
Proof.
  intros Hae Hau Hup Hnd Hin Hid Hu Hcat Hbody Hprompt Hreply Hm Hparse
    Haction Hupdates Htruthy.
  unfold run, ProjectChatRoute.POST. rewrite Hae, Hau.
  unfold select_where. unfold mbind at 1, M_bind at 1. cbn [table trace].
  rewrite Hup.
  rewrite (filter_own_row user (param_id request) rows project Hnd Hin Hid Hu).
  cbn [single]. rewrite Hcat.
  change (negb (category_eqb projects projects)) with false. cbv iota.
  rewrite Hbody. cbn [mbind option_bind]. rewrite !prop_obj. cbn [mbind option_bind].
  rewrite Hprompt. cbn [negb].
  unfold mbind, M_bind, emit, mret, M_ret. cbn [table trace].
  rewrite Hreply, Hm, Hparse, !prop_obj, Haction, Hupdates.
  cbn [option_bind]. rewrite Htruthy.
  change (is_string "update" (Some (JStr "update")) && true) with true.
  cbv beta iota zeta. cbn [table trace].
  unfold update_where. cbn [table trace]. rewrite Hup, patch_rows_data.
  by cbn [is_ok].
Qed.






(** ** The entry behind a chat or a save toggle *)

(** X17. The task, project and idea chats and the save toggle first read
    the entry. When no row of the caller has the id, or the store fails,
    they answer 404; when the row is of another category they answer 400.
    In both cases the model is not called and nothing is written. *)
Theorem chat_routes_check_the_entry (w : World) (user : string)
    (request : Request) (rows : list Entry) :
  auth_error w = false → auth_user w = Some user →
  let untouched := mkSt rows [StoreQuery] in
  (store_up w = false ∨ no_own_row user (param_id request) rows →
   run (TaskChatRoute.POST w request) rows
   = (NextResponse.json_status (BError "Task not found") 404, untouched)
   ∧ run (ProjectChatRoute.POST w request) rows
     = (NextResponse.json_status (BError "Project not found") 404, untouched)
   ∧ run (IdeaChatRoute.POST w request) rows
     = (NextResponse.json_status (BError "Idea not found") 404, untouched)
   ∧ run (IdeaSaveRoute.POST w request) rows
     = (NextResponse.json_status (BError "Idea not found") 404, untouched))
  ∧ (∀ row, store_up w = true → NoDup (id <$> rows) → row ∈ rows →
       id row = param_id request → user_id row = user →
       (category row ≠ tasks →
        run (TaskChatRoute.POST w request) rows
        = (NextResponse.json_status (BError "Entry is not a task") 400, untouched))
       ∧ (category row ≠ projects →
          run (ProjectChatRoute.POST w request) rows
          = (NextResponse.json_status (BError "Entry is not a project") 400,
             untouched))
       ∧ (category row ≠ ideas →
          run (IdeaChatRoute.POST w request) rows
          = (NextResponse.json_status (BError "Entry is not an idea") 400,
             untouched)
          ∧ run (IdeaSaveRoute.POST w request) rows
            = (NextResponse.json_status (BError "Entry is not an idea") 400,
               untouched))).
Proof.
  intros Hae Hau untouched. split.
  - intros Hmiss.
    assert (Hsingle :
      single (if store_up w
              then Ok (filter (λ e, (eq_id (param_id request) e && eq_user user e)
                                    = true) rows)
              else Err StoreFailure)
      = Err (if store_up w then PGRST116 else StoreFailure)).
    { destruct (store_up w); [|done].
      destruct Hmiss as [?|Hno]; [done|]. by rewrite (filter_no_own_row _ _ _ Hno). }
    unfold run, TaskChatRoute.POST, ProjectChatRoute.POST, IdeaChatRoute.POST,
      IdeaSaveRoute.POST.
    rewrite Hae, Hau. unfold select_where, mbind, M_bind, mret, M_ret.
    cbn [table trace]. by rewrite !Hsingle.
  - intros row Hup Hnd Hin Hid Hu.
    unfold run, TaskChatRoute.POST, ProjectChatRoute.POST, IdeaChatRoute.POST,
      IdeaSaveRoute.POST.
    rewrite Hae, Hau. unfold select_where, mbind, M_bind, mret, M_ret.
    cbn [table trace]. rewrite Hup.
    rewrite !(filter_own_row user (param_id request) rows row Hnd Hin Hid Hu).
    cbn [single]. split_and!; intros Hc; by destruct (category row).
Qed.

(** Alice opens the task chat on her project and on the task of Bob. *)
Lemma chat_routes_check_the_entry_witness :
  let w := alice_world (Some "Hello") in
  run (TaskChatRoute.POST w (chat_request "id-3" "hi")) sample_table
  = (NextResponse.json_status (BError "Entry is not a task") 400,
     mkSt sample_table [StoreQuery])
  ∧ run (TaskChatRoute.POST w (chat_request "id-2" "hi")) sample_table
    = (NextResponse.json_status (BError "Task not found") 404,
       mkSt sample_table [StoreQuery]).
Proof.
  intros w.
  destruct (chat_routes_check_the_entry w "alice" (chat_request "id-3" "hi")
              sample_table eq_refl eq_refl) as [_ Hcat].
  destruct (chat_routes_check_the_entry w "alice" (chat_request "id-2" "hi")
              sample_table eq_refl eq_refl) as [Hmiss _].
  split.
  - refine (proj1 (Hcat alice_project eq_refl sample_table_keys _ eq_refl eq_refl) _).
    + by repeat constructor.
    + discriminate.
  - refine (proj1 (Hmiss (or_intror _))).
    intros e He Hid Hown. unfold sample_table in He.
    repeat (apply elem_of_cons in He as [->|He]); try discriminate.
    by apply elem_of_nil in He.
Defined.

(** ** A store that fails *)

Ltac refused H :=
  injection H as <- <-; split; [by (left + right) | reflexivity].

(** X18. When the store answers every query with an error, a signed-in
    caller gets status 500 from the listing, read-one and delete-one, and
    400 or 500 from create-one, update-one and classify-and-create, while
    the digest hides the failure: it answers 200 with no bullets and does
    not call the model. Nothing is written. *)
Theorem store_failure_answers (w : World) (user : string) (request : Request)
    (rows : list Entry) :
  auth_user w = Some user → store_up w = false →
  run (EntriesRoute.GET w request) rows
  = (NextResponse.json_status (BError "Failed to fetch entries") 500,
     mkSt rows [StoreQuery])
  ∧ run (EntryRoute.GET w request) rows
    = (NextResponse.json_status (BError "Failed to fetch entry") 500,
       mkSt rows [StoreQuery])
  ∧ run (EntryRoute.DELETE w request) rows
    = (NextResponse.json_status (BError "Failed to delete entry") 500,
       mkSt rows [StoreQuery])
  ∧ run (SummaryRoute.GET w) rows
    = (NextResponse.json (BBullets (JArr [])), mkSt rows [StoreQuery; StoreQuery])
  ∧ (∀ resp st, run (EntriesRoute.POST w request) rows = (resp, st) →
       (status resp = 400%nat ∨ status resp = 500%nat) ∧ table st = rows)
  ∧ (∀ resp st, run (EntryRoute.PATCH w request) rows = (resp, st) →
       (status resp = 400%nat ∨ status resp = 500%nat) ∧ table st = rows)
  ∧ (∀ resp st, run (CaptureRoute.POST w request) rows = (resp, st) →
       (status resp = 400%nat ∨ status resp = 500%nat) ∧ table st = rows).
Proof.
  intros Hauth Hup.
  unfold run, EntriesRoute.GET, EntryRoute.GET, EntryRoute.DELETE, SummaryRoute.GET,
    EntriesRoute.POST, EntryRoute.PATCH, CaptureRoute.POST.
  rewrite Hauth.
  unfold mbind at 1 2 3 4 5 6, M_bind, mret, M_ret, select_where, delete_where.
  cbn [table trace]. rewrite Hup. cbn [map_result single is_empty take andb].
  split_and!; try reflexivity.
  - intros resp st H. unfold insert_row in H. rewrite Hup in H.
    repeat (first [refused H | head_case H]).
  - intros resp st H. unfold update_where in H. rewrite Hup in H.
    repeat (first [refused H | head_case H]).
  - intros resp st H. unfold insert_row, select_where in H. rewrite Hup in H.
    repeat (first [refused H | head_case H]).
    all: match goal with
         | Hp : (if ?c then _ else _) _ = (_, _) |- _ =>
             destruct c; injection Hp as _ <-
         end; refused H.
Qed.

(** Alice asks for her entries and her digest while the store is down. *)
Lemma store_failure_answers_witness :
  let w := mkWorld (Some "alice") false false (Some "[]") false 0 0 "id-9" no_date
      same_case not_a_number refuse refuse refuse in
  run (EntriesRoute.GET w (mkRequest "" [] None)) sample_table
  = (NextResponse.json_status (BError "Failed to fetch entries") 500,
     mkSt sample_table [StoreQuery])
  ∧ run (SummaryRoute.GET w) sample_table
    = (NextResponse.json (BBullets (JArr [])),
       mkSt sample_table [StoreQuery; StoreQuery]).
Proof.
  intros w.
  destruct (store_failure_answers w "alice" (mkRequest "" [] None) sample_table
              eq_refl eq_refl) as (Hlist & _ & _ & Hdigest & _).
  by split.
Defined.

(** ** The distance route *)

(** X19. The distance route never touches the store and calls the maps
    service at most once, and only for a signed-in caller who gives a
    non-empty origin and a non-empty destination while the key of the
    service is configured. Without one of the two places the answer is
    400; with both but without the key it is 500. *)
Theorem distance_calls_out_only_when_ready (w : World) (fetched : option json)
    (request : Request) (rows : list Entry) :
  let out := run (DistanceRoute.GET w fetched request) rows in
  let origin := searchParams_get (query request) "origin" in
  let destination := searchParams_get (query request) "destination" in
  let ready :=
    (∃ o d, origin = Some o ∧ o ≠ "" ∧ destination = Some d ∧ d ≠ "") in
  table (snd out) = rows
  ∧ (trace (snd out) = [] ∨ trace (snd out) = [MapsCall])
  ∧ (trace (snd out) = [MapsCall] →
     auth_user w ≠ None ∧ maps_key w = true ∧ ready)
  ∧ (auth_user w ≠ None → ¬ ready →
     out = (NextResponse.json_status (BError "Missing origin or destination") 400,
            mkSt rows []))
  ∧ (auth_user w ≠ None → ready → maps_key w = false →
     out = (NextResponse.json_status (BError "API key not configured") 500,
            mkSt rows [])).
Proof.
  intros out origin destination ready. subst out.
  unfold run, DistanceRoute.GET. fold origin destination.
  destruct (auth_user w) as [user|].
  2:{ split_and!; try done; [by left|..]; by intros []. }
  assert (Hready : given origin && given destination = true ↔ ready).
  { unfold ready, given. destruct origin as [o|], destination as [d|]; cbn.
    - rewrite andb_true_iff, !negb_true_iff, !String.eqb_neq. split.
      + intros [Ho Hd]. by exists o, d.
      + by intros (? & ? & [= <-] & ? & [= <-] & ?).
    - split; [by rewrite andb_false_r|]. by intros (? & ? & _ & _ & ? & _).
    - split; [done|]. by intros (? & ? & ? & _).
    - split; [done|]. by intros (? & ? & ? & _). }
  destruct (given origin && given destination) eqn:Hboth.
  - assert (Hyes : ready) by by apply Hready.
    apply andb_true_iff in Hboth as [-> ->]. cbn [negb orb].
    destruct (maps_key w); cbn [negb].
    + unfold mbind at 1, M_bind, emit, mret, M_ret. cbn [table trace app].
      repeat match goal with
             | |- context [match ?x with _ => _ end] => destruct x
             end;
        split_and!; try done; try (by right); by intros _ Hno.
    + split_and!; try done; first [by left | by intros _ Hno].
  - assert (Hno : ¬ ready) by (intros Hr%Hready; congruence).
    apply andb_false_iff in Hboth.
    replace (negb (given origin) || negb (given destination)) with true
      by (destruct Hboth as [-> | ->]; by rewrite ?orb_true_r).
    split_and!; try done; by left.
Qed.

(** A request of Alice with both places, and a world where the key of the
    maps service is configured. *)
Lemma distance_calls_out_only_when_ready_witness :
  let w := mkWorld (Some "alice") false true None true 0 0 "id-9" no_date
      same_case not_a_number refuse refuse refuse in
  let request := mkRequest "" [("origin", "home"); ("destination", "")] None in
  let out := run (DistanceRoute.GET w None request) sample_table in
  out = (NextResponse.json_status (BError "Missing origin or destination") 400,
         mkSt sample_table []).
Proof.
  intros w request out.
  destruct (distance_calls_out_only_when_ready w None request sample_table)
    as (_ & _ & _ & Hmissing & _).
  apply Hmissing; [discriminate|].
  intros (o & d & _ & _ & [= <-] & Hd). by apply Hd.
Defined.

(** X20. When the maps service answers with a status other than [OK] the
    distance route passes that status on as the error of a 400 answer;
    when the first element of the first row is missing or its status is
    not [OK] the answer is 400 as well. Otherwise the answer carries the
    text of the distance and, as the duration, the text of the duration in
    traffic when there is one and the text of the plain duration when
    there is none. *)
Theorem distance_reports_traffic_time (w : World) (user : string)
    (request : Request) (rows : list Entry) (data : gmap string json) :
  auth_user w = Some user → maps_key w = true →
  given (searchParams_get (query request) "origin") = true →
  given (searchParams_get (query request) "destination") = true →
  let out := run (DistanceRoute.GET w (Some (JObj data)) request) rows in
  let called := mkSt rows [MapsCall] in
  (∀ s, data !! "status" = Some (JStr s) → s ≠ "OK" →
        out = (NextResponse.json_status (BError s) 400, called))
  ∧ (data !! "status" = Some (JStr "OK") →
     (first_of (opt_prop (first_of (data !! "rows")) "elements") = None →
      out = (NextResponse.json_status (BError "Could not calculate distance") 400,
             called))
     ∧ ∀ elt,
         first_of (opt_prop (first_of (data !! "rows")) "elements")
         = Some (JObj elt) →
         (elt !! "status" ≠ Some (JStr "OK") →
          out = (NextResponse.json_status (BError "Could not calculate distance")
                   400, called))
         ∧ (elt !! "status" = Some (JStr "OK") →
            ∃ answer,
              out = (NextResponse.json (BOther (JObj answer)), called)
              ∧ answer !! "distance" = opt_prop (elt !! "distance") "text"
              ∧ (∀ t, opt_prop (elt !! "duration_in_traffic") "text"
                      = Some (JStr t) → t ≠ "" →
                      answer !! "duration" = Some (JStr t))
              ∧ (elt !! "duration_in_traffic" = None →
                 answer !! "duration" = opt_prop (elt !! "duration") "text"))).
Proof.
  intros Hauth Hkey Ho Hd out called. subst out called.
  unfold run, DistanceRoute.GET. rewrite Hauth, Hkey, Ho, Hd. cbn [negb orb].
  unfold mbind at 1, M_bind, emit, mret, M_ret. cbn [table trace app].
  cbn [mbind option_bind]. rewrite !prop_obj. cbn [mbind option_bind].
  split.
  - intros s -> Hs. cbn [is_string]. apply String.eqb_neq in Hs. by rewrite Hs.
  - intros ->. cbn [is_string String.eqb]. change (negb (is_string "OK" (Some (JStr "OK")))) with false.
    cbv iota. split.
    + by intros ->.
    + intros elt ->. cbn [truthy negb]. rewrite !prop_obj. split.
      * intros Hs. replace (is_string "OK" (elt !! "status")) with false; [done|].
        destruct (elt !! "status") as [[| | |s| |]|]; try done. cbn.
        symmetry. apply String.eqb_neq. congruence.
      * intros ->. change (negb (is_string "OK" (Some (JStr "OK")))) with false.
        cbv iota. eexists. split; [reflexivity|].
        rewrite !object_lookup. cbn [field String.eqb Ascii.eqb Bool.eqb].
        split_and!.
        -- by destruct (opt_prop (elt !! "distance") "text").
        -- intros t -> Ht. cbn. apply String.eqb_neq in Ht. by rewrite Ht.
        -- intros ->. cbn. by destruct (opt_prop (elt !! "duration") "text").
Qed.

(** The answer of the service for a trip of Alice, with and without the
    duration in traffic. *)
Lemma distance_reports_traffic_time_witness :
  let w := mkWorld (Some "alice") false true None true 0 0 "id-9" no_date
      same_case not_a_number refuse refuse refuse in
  let request := mkRequest "" [("origin", "home"); ("destination", "shop")] None in
  let text t : json := JObj {["text" := JStr t]} in
  let elt : gmap string json :=
    <["status" := JStr "OK"]>
      (<["distance" := text "5 km"]>
         (<["duration" := text "10 mins"]>
            {["duration_in_traffic" := text "14 mins"]})) in
  let data : gmap string json :=
    <["status" := JStr "OK"]>
      {["rows" := JArr [JObj {["elements" := JArr [JObj elt]]}]]} in
  ∃ answer,
    run (DistanceRoute.GET w (Some (JObj data)) request) sample_table
    = (NextResponse.json (BOther (JObj answer)), mkSt sample_table [MapsCall])
    ∧ answer !! "distance" = Some (JStr "5 km")
    ∧ answer !! "duration" = Some (JStr "14 mins").
Proof.
  intros w request text elt data.
  destruct (distance_reports_traffic_time w "alice" request sample_table data
              eq_refl eq_refl eq_refl eq_refl) as [_ Hok].
  destruct (Hok eq_refl) as [_ Helt].
  destruct (Helt elt eq_refl) as [_ Hanswer].
  destruct (Hanswer eq_refl) as (answer & Hrun & Hdist & Htraffic & _).
  exists answer. split_and!; [done|done|].
  by apply Htraffic.
Defined.

(** ** Suggestions *)







(** ** The pages *)

Lemma PATCH_own_row (w : World) (user i : string) (b : gmap string json)
    (rows : list Entry) (tr : list Event) (row row' : Entry) :
  auth_user w = Some user → store_up w = true →
  NoDup (id <$> rows) → row ∈ rows → id row = i → user_id row = user →
  apply_patch w
    (object [("updated_at", Some (JStr (toISOString (now w))));
             ("data", b !! "data"); ("category", b !! "category");
             ("needs_review", b !! "needs_review"); ("archived", b !! "archived");
             ("linked_entries", b !! "linked_entries")]) row = Some row' →
  fetch_PATCH w i b (mkSt rows tr)
  = (NextResponse.json (BRow row'),
     mkSt (persist i user (λ _, row') rows) (tr ++ [StoreQuery])).
Proof.
  intros Hauth Hup Hnd Hin Hi Hu Hp.
  unfold fetch_PATCH, EntryRoute.PATCH. rewrite Hauth.
  cbn [body param_id mbind option_bind]. rewrite !prop_obj.
  cbn [mbind option_bind].
  unfold mbind, M_bind, update_where, mret, M_ret. cbn [table trace].
  rewrite Hup, (patch_rows_map _ _ _ (λ _, row')).
  - by rewrite (filter_own_row user i rows row).
  - intros e He Hsel. by rewrite (own_row_selected user i rows row e).
Qed.

Lemma patch_archived (w : World) (a : bool) (e : Entry) :
  let b : gmap string json := {["archived" := JBool a]} in
  apply_patch w
    (object [("updated_at", Some (JStr (toISOString (now w))));
             ("data", b !! "data"); ("category", b !! "category");
             ("needs_review", b !! "needs_review"); ("archived", b !! "archived");
             ("linked_entries", b !! "linked_entries")]) e
  = Some (with_archived a (toISOString (now w)) e).
Proof. intros b. unfold apply_patch. by rewrite !object_lookup. Qed.

Lemma patch_data (w : World) (d : gmap string json) (e : Entry) :
  let b : gmap string json := {["data" := JObj d]} in
  apply_patch w
    (object [("updated_at", Some (JStr (toISOString (now w))));
             ("data", b !! "data"); ("category", b !! "category");
             ("needs_review", b !! "needs_review"); ("archived", b !! "archived");
             ("linked_entries", b !! "linked_entries")]) e
  = Some (with_data (JObj d) (toISOString (now w)) e).
Proof. intros b. unfold apply_patch. by rewrite !object_lookup. Qed.

Lemma patch_category (w : World) (c : Category) (e : Entry) :
  let b : gmap string json :=
    <["category" := JStr (category_name c)]> {["needs_review" := JBool false]} in
  apply_patch w
    (object [("updated_at", Some (JStr (toISOString (now w))));
             ("data", b !! "data"); ("category", b !! "category");
             ("needs_review", b !! "needs_review"); ("archived", b !! "archived");
             ("linked_entries", b !! "linked_entries")]) e
  = Some (with_category c (toISOString (now w)) e).
Proof. intros b. unfold apply_patch. rewrite !object_lookup. by destruct c. Qed.

Lemma page_listing (w : World) (user : string) (flag : bool)
    (entries rows : list Entry) :
  auth_user w = Some user → store_up w = true →
  ∃ listed,
    run ((if flag then Archive.fetchArchived else Dashboard.fetchEntries) w entries)
      rows
    = (listed, mkSt rows [StoreQuery])
    ∧ ∀ e, e ∈ listed ↔
        e ∈ rows ∧ user_id e = user ∧ archived e = Some flag.
Proof.
  intros Hauth Hup.
  exists (order_desc
            (filter (λ e, (eq_user user e && true && eq_archived flag e && true)
                          = true) rows)).
  split; [|intros e; apply listed_iff].
  destruct flag; unfold run, Archive.fetchArchived, Dashboard.fetchEntries,
    EntriesRoute.GET; rewrite Hauth;
    unfold mbind, M_bind, select_where, mret, M_ret; cbn; by rewrite Hup.
Qed.

Lemma persist_own_ids (i user : string) (rows : list Entry) (row' : Entry) :
  id row' = i → id <$> persist i user (λ _, row') rows = id <$> rows.
Proof.
  intros Hi. unfold persist. rewrite <- list_fmap_compose. apply list_fmap_ext.
  intros ? e _. cbn. destruct (eq_id i e && eq_user user e) eqn:Hsel; [|done].
  apply andb_true_iff in Hsel as [He _]. apply eq_id_true in He. congruence.
Qed.

Lemma persist_const_twice (i user : string) (rows : list Entry) (a b : Entry) :
  id a = i → user_id a = user →
  persist i user (λ _, b) (persist i user (λ _, a) rows)
  = persist i user (λ _, b) rows.
Proof.
  intros Hi Hu. unfold persist. rewrite <- list_fmap_compose. apply list_fmap_ext.
  intros ? e _. cbn. destruct (eq_id i e && eq_user user e) eqn:Hsel.
  - by rewrite select_own_row.
  - by rewrite Hsel.
Qed.

(** X23. Archiving an entry from the dashboard and restoring it from the
    archive panel is a round trip. After the first step the stored row is
    archived: the dashboard drops it from its list, the listing of the
    dashboard no longer holds it and the listing of the archive panel
    does. After the second step the stored row is the row it was, but for
    the time stamp of the update: the panel drops it and the listing of the
    dashboard holds it again. No other row changes. *)
Theorem archive_and_restore_round_trip (w w' : World) (user i : string)
    (rows shown kept : list Entry) (row : Entry) :
  auth_user w = Some user → store_up w = true →
  auth_user w' = Some user → store_up w' = true →
  NoDup (id <$> rows) → row ∈ rows → id row = i → user_id row = user →
  archived row = Some false →
  let archive := run (Dashboard.handleArchive w i shown) rows in
  let restore := run (Archive.handleUnarchive w' i kept) (table (snd archive)) in
  let archived_row := with_archived true (toISOString (now w)) row in
  let restored_row := with_archived false (toISOString (now w')) row in
  archive
  = (filter (λ e, id e ≠ i) shown,
     mkSt (persist i user (λ _, archived_row) rows) [StoreQuery])
  ∧ restore
    = (filter (λ e, id e ≠ i) kept,
       mkSt (persist i user (λ _, restored_row) rows) [StoreQuery])
  ∧ restored_row
    = mkEntry (id row) (category row) (data row) (confidence row)
        (needs_review row) (archived row) (linked_entries row) (created_at row)
        (toISOString (now w')) (user_id row)
  ∧ (∃ listed panel,
       fst (run (Dashboard.fetchEntries w []) (table (snd archive))) = listed
       ∧ fst (run (Archive.fetchArchived w []) (table (snd archive))) = panel
       ∧ (∀ e, e ∈ listed → id e ≠ i) ∧ archived_row ∈ panel)
  ∧ (∃ listed panel,
       fst (run (Dashboard.fetchEntries w' []) (table (snd restore))) = listed
       ∧ fst (run (Archive.fetchArchived w' []) (table (snd restore))) = panel
       ∧ restored_row ∈ listed ∧ (∀ e, e ∈ panel → id e ≠ i)).
Proof.
  intros Hauth Hup Hauth' Hup' Hnd Hin Hi Hu Harc archive restore archived_row
    restored_row.
  assert (Ha : archive
               = (filter (λ e, id e ≠ i) shown,
                  mkSt (persist i user (λ _, archived_row) rows) [StoreQuery])).
  { unfold archive, run, Dashboard.handleArchive, mbind, M_bind.
    by rewrite (PATCH_own_row w user i _ rows [] row archived_row Hauth Hup Hnd Hin
                  Hi Hu (patch_archived w true row)). }
  assert (Hnd1 : NoDup (id <$> persist i user (λ _, archived_row) rows)).
  { by rewrite persist_own_ids. }
  assert (Hin1 : archived_row ∈ persist i user (λ _, archived_row) rows).
  { by apply (persist_elem i user (λ _, archived_row) rows row). }
  assert (Hr : restore
               = (filter (λ e, id e ≠ i) kept,
                  mkSt (persist i user (λ _, restored_row) rows) [StoreQuery])).
  { unfold restore. rewrite Ha. cbn [snd table].
    unfold run, Archive.handleUnarchive, mbind, M_bind.
    rewrite (PATCH_own_row w' user i _ _ [] archived_row restored_row Hauth' Hup'
               Hnd1 Hin1 Hi Hu (patch_archived w' false archived_row)).
    cbn. f_equal. f_equal. by apply persist_const_twice. }
  assert (Hin2 : restored_row ∈ persist i user (λ _, restored_row) rows).
  { by apply (persist_elem i user (λ _, restored_row) rows row). }
  assert (Hsame : ∀ (f : Entry → Entry) e,
            id (f row) = i → e ∈ persist i user (λ _, f row) rows → id e = i →
            e = f row).
  { intros f e Hf He Hid. unfold persist in He.
    apply list_elem_of_fmap in He as (x & -> & Hx).
    destruct (eq_id i x && eq_user user x) eqn:Hsel; [done|].
    exfalso. rewrite select_own_row in Hsel; [done|done|].
    by rewrite (NoDup_id_inj rows x row Hnd Hx Hin) by congruence. }
  rewrite Ha, Hr. cbn [snd table]. split_and!; try done.
  - unfold restored_row, with_archived. by rewrite Harc.
  - destruct (page_listing w user false [] (persist i user (λ _, archived_row) rows)
                Hauth Hup) as (listed & -> & Hl).
    destruct (page_listing w user true [] (persist i user (λ _, archived_row) rows)
                Hauth Hup) as (panel & -> & Hp).
    exists listed, panel. split_and!; try done.
    + intros e [He [_ Hea]]%Hl Hid.
      by rewrite (Hsame (with_archived true (toISOString (now w))) e) in Hea.
    + by apply Hp.
  - destruct (page_listing w' user false [] (persist i user (λ _, restored_row) rows)
                Hauth' Hup') as (listed & -> & Hl).
    destruct (page_listing w' user true [] (persist i user (λ _, restored_row) rows)
                Hauth' Hup') as (panel & -> & Hp).
    exists listed, panel. split_and!; try done.
    + by apply Hl.
    + intros e [He [_ Hea]]%Hp Hid.
      by rewrite (Hsame (with_archived false (toISOString (now w'))) e) in Hea.
Qed.

(** Alice archives her task and restores it. *)
Lemma archive_and_restore_round_trip_witness :
  let w := alice_world None in
  let archive := run (Dashboard.handleArchive w "id-1" [alice_task]) sample_table in
  let restore :=
    run (Archive.handleUnarchive w "id-1" [alice_task]) (table (snd archive)) in
  fst archive = [] ∧ fst restore = []
  ∧ table (snd restore)
    = [with_archived false (toISOString (now w)) alice_task; bob_task;
       alice_project; alice_idea].
Proof.
  intros w archive restore.
  destruct (archive_and_restore_round_trip w w "alice" "id-1" sample_table
              [alice_task] [alice_task] alice_task)
    as (Ha & Hr & _); first [reflexivity | apply sample_table_keys | left | idtac].
  subst archive restore. rewrite Hr, Ha. by split_and!.
Defined.

(** X24. Completing a task from the dashboard sends the data of the copy
    the page holds, with the status [completed]: the stored data of the
    task becomes that object, whatever the store held, and the page
    replaces its copy by the stored row. When the page holds no entry with
    the id nothing is sent. *)
Theorem complete_task_sends_the_page_copy (w : World) (user i : string)
    (rows entries : list Entry) (row : Entry) :
  auth_user w = Some user → store_up w = true →
  NoDup (id <$> rows) → row ∈ rows → id row = i → user_id row = user →
  let out := run (Dashboard.handleCompleteTask w i entries) rows in
  (List.find (λ e, String.eqb (id e) i) entries = None →
   out = (entries, mkSt rows []))
  ∧ (∀ entry, List.find (λ e, String.eqb (id e) i) entries = Some entry →
       ∃ stored,
         let updated := with_data (JObj stored) (toISOString (now w)) row in
         out = ((λ e, if String.eqb (id e) i then updated else e) <$> entries,
                mkSt (persist i user (λ _, updated) rows) [StoreQuery])
         ∧ stored !! "status" = Some (JStr "completed")
         ∧ (∀ k, k ≠ "status" → stored !! k = spread (Some (data entry)) !! k)).
Proof.
  intros Hauth Hup Hnd Hin Hi Hu out. subst out.
  unfold run, Dashboard.handleCompleteTask. split.
  - by intros ->.
  - intros entry ->.
    exists (<["status" := JStr "completed"]> (spread (Some (data entry)))).
    cbv zeta. unfold mbind, M_bind.
    rewrite (PATCH_own_row w user i _ rows [] row _ Hauth Hup Hnd Hin Hi Hu
               (patch_data w _ row)).
    split_and!; [done|apply lookup_insert_eq|].
    intros k Hk. by rewrite lookup_insert_ne.
Qed.

(** The page of Alice still shows her task without the deadline that the
    store holds. *)
Lemma complete_task_sends_the_page_copy_witness :
  let w := alice_world None in
  let copy :=
    mkEntry "id-1" tasks (JObj {["task" := JStr "buy milk"]}) (Some (7 # 8))
      (Some false) (Some false) (Some [])
      "2024-01-01T00:00:00.000Z" "2024-01-01T00:00:00.000Z" "alice" in
  ∃ stored,
    table (snd (run (Dashboard.handleCompleteTask w "id-1" [copy]) sample_table))
    = persist "id-1" "alice"
        (λ _, with_data (JObj stored) (toISOString (now w)) alice_task) sample_table
    ∧ stored !! "status" = Some (JStr "completed")
    ∧ stored !! "task" = Some (JStr "buy milk")
    ∧ stored !! "deadline" = None.
Proof.
  intros w copy.
  destruct (complete_task_sends_the_page_copy w "alice" "id-1" sample_table [copy]
              alice_task eq_refl eq_refl sample_table_keys) as [_ Hsent];
    first [reflexivity | left | idtac].
  destruct (Hsent copy eq_refl) as (stored & Hrun & Hstatus & Hrest).
  exists stored. rewrite Hrun. split_and!; [done|done|..].
  - by rewrite Hrest.
  - by rewrite Hrest.
Defined.

(** X25. Giving a category to an entry in the review list takes it out of
    review: the stored row gets the category and its review flag is
    cleared, nothing else but the time stamp changes, and the page, once
    it has put the answer in place of its copy, shows the entry on the card
    of that category and no longer in the review list. *)
Theorem assigned_entry_leaves_the_review_list (w : World) (user i : string)
    (c : Category) (rows entries : list Entry) (row : Entry) :
  auth_user w = Some user → store_up w = true →
  NoDup (id <$> rows) → row ∈ rows → id row = i → user_id row = user →
  let out := run (Dashboard.handleAssignCategory w i c entries) rows in
  let updated := with_category c (toISOString (now w)) row in
  out = ((λ e, if String.eqb (id e) i then updated else e) <$> entries,
         mkSt (persist i user (λ _, updated) rows) [StoreQuery])
  ∧ (∀ e, e ∈ Dashboard.reviewEntries (fst out) → id e ≠ i)
  ∧ (∀ c', c' ≠ c → ∀ e, e ∈ Dashboard.getEntriesByCategory c' (fst out) → id e ≠ i)
  ∧ ((∃ e, e ∈ entries ∧ id e = i) →
     updated ∈ Dashboard.getEntriesByCategory c (fst out)).
Proof.
  intros Hauth Hup Hnd Hin Hi Hu out updated.
  assert (Hout : out
    = ((λ e, if String.eqb (id e) i then updated else e) <$> entries,
       mkSt (persist i user (λ _, updated) rows) [StoreQuery])).
  { unfold out, run, Dashboard.handleAssignCategory, mbind, M_bind.
    by rewrite (PATCH_own_row w user i _ rows [] row _ Hauth Hup Hnd Hin Hi Hu
                  (patch_category w c row)). }
  rewrite Hout. cbn [fst].
  assert (Hshown : ∀ e, e ∈ (λ e, if String.eqb (id e) i then updated else e)
                              <$> entries → id e = i → e = updated).
  { intros e (x & -> & Hx)%list_elem_of_fmap Hid.
    destruct (String.eqb_spec (id x) i); [done|congruence]. }
  split_and!; [done|..].
  - intros e [Hrev He]%list_elem_of_filter Hid.
    by rewrite (Hshown e He Hid) in Hrev.
  - intros c' Hc e [Hcat He]%list_elem_of_filter Hid.
    rewrite (Hshown e He Hid) in Hcat. cbn in Hcat.
    apply andb_true_iff in Hcat as [Hcat _]. by destruct c, c'.
  - intros (e & He & Hid). apply list_elem_of_filter. split.
    + cbn. by destruct c.
    + apply list_elem_of_fmap. exists e. split; [|done].
      by rewrite <- Hid, String.eqb_refl.
Qed.

(** A note of Alice waits in the review list, filed under ideas; she says
    it is a task. *)
Lemma assigned_entry_leaves_the_review_list_witness :
  let w := alice_world None in
  let note :=
    mkEntry "id-8" ideas (JObj {["insight" := JStr "milk?"]}) (Some (1 # 4))
      (Some true) (Some false) (Some [])
      "2024-01-05T00:00:00.000Z" "2024-01-05T00:00:00.000Z" "alice" in
  let out := run (Dashboard.handleAssignCategory w "id-8" tasks [note]) [note] in
  fst out = [with_category tasks (toISOString (now w)) note]
  ∧ Dashboard.reviewEntries (fst out) = []
  ∧ Dashboard.getEntriesByCategory tasks (fst out) = fst out.
Proof.
  intros w note out.
  destruct (assigned_entry_leaves_the_review_list w "alice" "id-8" tasks [note]
              [note] note) as (Hout & _);
    first [reflexivity | left | idtac].
  - apply (bool_decide_unpack (NoDup (id <$> [note]))). reflexivity.
  - subst out. rewrite Hout. by split_and!.
Defined.

(** X26. Editing a cell of a card is a round trip through the store: the
    page sends the data of its copy with the field of the column set to
    the text typed, update-one stores it, and the row that comes back
    shows that text in the column and, in every other column, what the
    copy showed before. *)
Theorem edited_cell_reads_back (w : World) (user : string) (c : Category)
    (entry row : Entry) (d : gmap string json) (col : nat) (field value : string)
    (rows entries : list Entry) :
  auth_user w = Some user → store_up w = true →
  NoDup (id <$> rows) → row ∈ rows → id row = id entry → user_id row = user →
  data entry = JObj d → LiveCard.column_field c col = Some field →
  let newData := LiveCard.updateCellValue c entry col value in
  let updated := with_data (JObj newData) (toISOString (now w)) row in
  run (Dashboard.handleUpdate w (id entry) (JObj newData) entries) rows
  = ((λ e, if String.eqb (id e) (id entry) then updated else e) <$> entries,
     mkSt (persist (id entry) user (λ _, updated) rows) [StoreQuery])
  ∧ newData = <[field := JStr value]> d
  ∧ LiveCard.getCellValue c updated col = Some (JStr value)
  ∧ (∀ col', col' ≠ col →
       LiveCard.getCellValue c updated col' = LiveCard.getCellValue c entry col').
Proof.
  intros Hauth Hup Hnd Hin Hid Hu Hd Hcol newData updated.
  assert (Hnew : newData = <[field := JStr value]> d).
  { unfold newData, LiveCard.updateCellValue. by rewrite Hcol, Hd. }
  split_and!; [|done|..].
  - unfold run, Dashboard.handleUpdate, mbind, M_bind.
    by rewrite (PATCH_own_row w user (id entry) _ rows [] row _ Hauth Hup Hnd Hin
                  Hid Hu (patch_data w _ row)).
  - unfold LiveCard.getCellValue, updated. cbn [data with_data].
    rewrite Hnew, !prop_obj. cbn [mbind option_bind].
    destruct c, col as [|[|[|?]]]; try discriminate; injection Hcol as <-;
      cbn [LiveCard.column_field default lookup list_lookup];
      rewrite lookup_insert_eq; cbn;
      by destruct (String.eqb value "") eqn:Hv;
        [apply String.eqb_eq in Hv as ->|].
  - intros col' Hne. unfold LiveCard.getCellValue, updated. cbn [data with_data].
    rewrite Hnew, Hd, !prop_obj. cbn [mbind option_bind].
    destruct c, col as [|[|[|?]]]; try discriminate; injection Hcol as <-;
      destruct col' as [|[|[|?]]]; try done;
      cbn [LiveCard.column_field default lookup list_lookup];
      by rewrite lookup_insert_ne.
Qed.

(** Alice changes the priority of her task on the card of the tasks. *)
Lemma edited_cell_reads_back_witness :
  let w := alice_world None in
  let newData := LiveCard.updateCellValue tasks alice_task 2 "high" in
  let updated := with_data (JObj newData) (toISOString (now w)) alice_task in
  fst (run (Dashboard.handleUpdate w "id-1" (JObj newData) [alice_task])
         sample_table)
  = [updated]
  ∧ LiveCard.getCellValue tasks updated 2 = Some (JStr "high")
  ∧ LiveCard.getCellValue tasks updated 0 = Some (JStr "buy milk").
Proof.
  intros w newData updated.
  destruct (edited_cell_reads_back w "alice" tasks alice_task alice_task
              (<["task" := JStr "buy milk"]>
                 (<["priority" := JStr "low"]> {["deadline" := JStr "none"]}))
              2 "priority" "high" sample_table [alice_task])
    as (Hrun & _ & Hcell & Hrest);
    first [reflexivity | apply sample_table_keys | left | idtac].
  split_and!.
  - exact (f_equal fst Hrun).
  - exact Hcell.
  - exact (eq_trans (Hrest 0%nat ltac:(discriminate)) eq_refl).
Defined.







(** ** The lines of the PDF *)

Lemma split_spaces_inhabited (t : string) :
  ∃ w ws, split_spaces t = w :: ws.
Proof.
  destruct t as [|c t]; cbn [split_spaces]; [by eexists _, _|].
  destruct (Ascii.eqb c " "); [by eexists _, _|].
  destruct (split_spaces t); by eexists _, _.
Qed.

Lemma split_spaces_app (a b : string) :
  split_spaces (a ++ String " " b) = (split_spaces a ++ split_spaces b)%list.
Proof.
  induction a as [|c a IH]; [done|].
  simpl. rewrite IH.
  destruct (Ascii.eqb c " "); [done|].
  by destruct (split_spaces_inhabited a) as (w & ws & ->).
Qed.

Lemma split_spaces_spaceless (w : string) :
  spaceless w = true → split_spaces w = [w].
Proof.
  induction w as [|c w IH]; [done|]. cbn [spaceless split_spaces].
  intros [Hc Hw]%andb_prop. apply negb_true_iff in Hc. rewrite Hc.
  by rewrite (IH Hw).
Qed.

Lemma split_spaces_pieces (t : string) :
  Forall (λ w, spaceless w = true) (split_spaces t).
Proof.
  induction t as [|c t IH]; cbn [split_spaces]; [by repeat constructor|].
  destruct (Ascii.eqb c " ") eqn:Hc; [by constructor|].
  destruct (split_spaces t) as [|w ws].
  { repeat constructor. cbn [spaceless]. by rewrite Hc. }
  inversion_clear IH as [|? ? Hw Hws]. constructor; [|done].
  cbn [spaceless]. by rewrite Hc, Hw.
Qed.

Lemma words_app (a b : string) :
  words (a ++ " " ++ b) = (words a ++ words b)%list.
Proof.
  unfold words. change (a ++ " " ++ b) with (a ++ String " " b).
  by rewrite split_spaces_app, filter_app.
Qed.

Lemma words_spaceless (w : string) :
  spaceless w = true → words w = filter (λ w, w ≠ EmptyString) [w].
Proof. intros H. unfold words. by rewrite split_spaces_spaceless. Qed.

Lemma wrap_words_inv (widthOfText : string → Q) (maxWidth : Q)
    (ws lines : list string) (cur : string) :
  Forall (λ w, spaceless w = true) ws →
  (∀ l, l ∈ lines →
     l ≠ "" ∧ ((widthOfText l <= maxWidth)%Q ∨ spaceless l = true)) →
  ((widthOfText cur <= maxWidth)%Q ∨ spaceless cur = true) →
  ∀ lines' cur',
    fold_left (wrap_word widthOfText maxWidth) ws (lines, cur) = (lines', cur') →
    (∀ l, l ∈ lines' →
       l ≠ "" ∧ ((widthOfText l <= maxWidth)%Q ∨ spaceless l = true))
    ∧ ((widthOfText cur' <= maxWidth)%Q ∨ spaceless cur' = true)
    ∧ (concat (words <$> lines') ++ words cur'
       = concat (words <$> lines) ++ words cur
         ++ filter (λ w, w ≠ EmptyString) ws)%list.
Proof.
  intros Hws. revert lines cur.
  induction Hws as [|word ws Hword Hws IH]; intros lines cur Hlines Hcur lines' cur'.
  - intros [= <- <-]. split_and!; try done.
    by rewrite filter_nil, app_nil_r.
  - cbn [fold_left]. unfold wrap_word at 2.
    destruct (String.eqb_spec cur "") as [->|Hne]; cbn [negb].
    + rewrite andb_false_r. intros Hrun.
      apply IH in Hrun as (H1 & H2 & H3); [|done|by right].
      split_and!; try done. rewrite H3.
      rewrite (words_spaceless word Hword).
      change (words "") with (@nil string). cbn [app].
      by rewrite (filter_app _ [word] ws).
    + rewrite andb_true_r.
      destruct (Qle_bool (widthOfText (cur ++ " " ++ word)) maxWidth) eqn:Hfit;
        cbn [negb]; intros Hrun.
      * apply IH in Hrun as (H1 & H2 & H3);
          [|done|left; by apply Qle_bool_iff].
        split_and!; try done. rewrite H3, words_app.
        rewrite (words_spaceless word Hword), <- !app_assoc.
        by rewrite (filter_app _ [word] ws).
      * apply IH in Hrun as (H1 & H2 & H3); [| |by right].
        -- split_and!; try done. rewrite H3.
           rewrite fmap_app, concat_app. cbn [fmap list_fmap concat].
           rewrite app_nil_r, <- !app_assoc.
           rewrite (words_spaceless word Hword).
           by rewrite (filter_app _ [word] ws).
        -- intros l [Hl| ->%list_elem_of_singleton]%elem_of_app; auto.
Qed.

(** X29. The lines [wrapText] makes of a text are never empty; a line is
    at most [maxWidth] wide unless it has no space in it (one word that is
    too long); and the words of the lines, in their order, are the words
    of the text: wrapping loses no word and adds none. *)
Theorem wrapped_lines_keep_the_words (widthOfText : string → Q) (maxWidth : Q)
    (text : string) :
  (∀ line, line ∈ wrapText widthOfText maxWidth text →
     line ≠ ""
     ∧ ((widthOfText line <= maxWidth)%Q ∨ spaceless line = true))
  ∧ concat (words <$> wrapText widthOfText maxWidth text) = words text.
Proof.
  unfold wrapText.
  destruct (fold_left _ _ _) as [lines cur] eqn:Hrun.
  apply wrap_words_inv in Hrun as (H1 & H2 & H3);
    [|apply split_spaces_pieces|by intros l ?%elem_of_nil|by right].
  cbn [fmap list_fmap concat app] in H3. change (words "") with (@nil string) in H3.
  cbn [app] in H3. fold (words text) in H3.
  destruct (String.eqb_spec cur "") as [->|Hne]; cbn [negb].
  - split; [done|]. rewrite <- H3. change (words "") with (@nil string).
    by rewrite app_nil_r.
  - split.
    + intros l [Hl| ->%list_elem_of_singleton]%elem_of_app; auto.
    + rewrite fmap_app, concat_app. cbn [fmap list_fmap concat].
      by rewrite app_nil_r.
Qed.

(** ** The page of a project *)

Lemma validate_status_truthy (u : json) :
  truthy (Some u) = true →
  truthy (ProjectChatRoute.validate_status (Some u)) = true.
Proof.
  intros H. unfold ProjectChatRoute.validate_status.
  destruct u; try done. by case_match.
Qed.

(** X30. When the chat of a project's page sends a message and the route
    applies an update, the page ends up showing the data that was stored:
    the fields the answer reports, laid over the data the page had, are
    the data of the project's row in the table afterwards, provided the
    page held the stored data before. *)
Theorem project_page_shows_what_was_stored (w : World) (rows : list Entry)
    (user : string) (project page : Entry) (text : string) (suggestions : jsval)
    (action : gmap string json) (u : json) (reply matchedJson : string)
    (m : MatchResult) :
  auth_error w = false → auth_user w = Some user → store_up w = true →
  NoDup (id <$> rows) → project ∈ rows →
  user_id project = user → category project = projects →
  trim text ≠ "" →
  data page = data project →
  ProjectChatRoute.prompt_ok (data project) suggestions = true →
  model_reply w = Some reply →
  first_match jsonPatterns reply = Some (m, matchedJson) →
  JSON_parse (cleanJson matchedJson) = Some (JObj action) →
  action !! "action" = Some (JStr "update") →
  action !! "updates" = Some u → truthy (Some u) = true →
  let out :=
    run (ProjectPage.sendMessage w (id project) text suggestions (Some page))
      rows in
  ∃ shown stored,
    fst out = Some shown
    ∧ stored ∈ table (snd out)
    ∧ id stored = id project ∧ user_id stored = user
    ∧ data shown = data stored.
Proof.
  intros Hae Hau Hup Hnd Hin Hu Hcat Htext Hpage Hprompt Hreply Hm Hparse
    Haction Hupdates Htruthy out.
  pose proof (project_chat_update w
                (mkRequest (id project) []
                   (Some (JObj (object [("message", Some (JStr (trim text)));
                                        ("suggestions", suggestions)]))))
                rows user project _ action u reply matchedJson m
                Hae Hau Hup Hnd Hin eq_refl Hu Hcat eq_refl) as Hrun.
  rewrite object_lookup in Hrun. 
  replace (field _ _) with suggestions in Hrun by (by destruct suggestions).
  specialize (Hrun Hprompt Hreply Hm Hparse Haction Hupdates Htruthy).
  unfold run in Hrun.
  subst out. unfold run, ProjectPage.sendMessage.
  apply String.eqb_neq in Htext. rewrite Htext.
  unfold mbind, M_bind. rewrite Hrun.
  cbn [mret M_ret fst snd table payload NextResponse.json ProjectPage.handleProjectUpdate].
  rewrite (validate_status_truthy u Htruthy).
  eexists _, _. split; [reflexivity|]. split.
  { apply (persist_elem _ _ _ _ project); done. }
  cbn [id user_id data with_data param_id]. by rewrite Hpage.
Qed.

(** Alice tells the chat of her project to ship; the page holds the
    project as stored. *)
Lemma project_page_shows_what_was_stored_witness :
  let reply :=
    dq "Ok. {'action':'update','updates':{'status':'archived','nextAction':'ship'}}" in
  let w := alice_world (Some reply) in
  let out :=
    run (ProjectPage.sendMessage w "id-3" " ship it " None (Some alice_project))
      sample_table in
  ∃ shown stored,
    fst out = Some shown
    ∧ stored ∈ table (snd out)
    ∧ id stored = "id-3" ∧ user_id stored = "alice"
    ∧ data shown = data stored.
Proof.
  intros reply w.
  apply (project_page_shows_what_was_stored w sample_table "alice"
           alice_project alice_project " ship it " None
           (<["action" := JStr "update"]>
              {["updates" :=
                  JObj (<["status" := JStr "archived"]>
                          {["nextAction" := JStr "ship"]})]})
           (JObj (<["status" := JStr "archived"]> {["nextAction" := JStr "ship"]}))
           reply
           (dq "{'action':'update','updates':{'status':'archived','nextAction':'ship'}}")
           (mkMatch "Ok. "
              (dq "{'action':'update','updates':{'status':'archived','nextAction':'ship'}}")
              ∅ ""));
    first [reflexivity | discriminate | apply sample_table_keys
           | by repeat constructor].
Defined.
